(** * python-netsnmpagent: a shallow embedding of [netsnmpagent.py]

    The development follows the module top-down:
    - [Py]: the fragment of Python the module relies on (exceptions,
      [str], [int], [split], [rstrip], [replace], [re.match], [re.sub]);
    - the data model: variables, tables and rows, the agent object;
    - [environment]: the interpreter line and the net-snmp calls the module
      makes, each call an oracle from its arguments to its result;
    - the agent: log and index-stop callbacks, [start], [_prepareOID],
      [_prepareRegistration], the object registry;
    - tables: [addRow], [getRow], [deleteRow], [clear], [setRowColumn],
      [value];
    - [send_trap] with its inner [snmp_pdu.add];
    - module set-up: [enum] and the net-snmp calls of [__init__];
    - a reference environment, then the properties.

    Byte strings and text strings are both modelled by [string] (a list of
    8-bit characters); only ASCII text is considered. Operations that
    change an object return the new state next to their result; an
    exception is a [Raise] result. *)

From Stdlib Require Import ZArith Ascii String.
From stdpp Require Import gmap strings list pretty.

Open Scope Z_scope.
Open Scope string_scope.

(** ** Python fragment *)

Module Py.

(** The interpreter line. The module is written for both
    ([# Python 2.x] / [# Python 3.x] branches) and behaves differently
    where it tests [sys.version_info]. *)
Inductive version := Python2 | Python3.

(** [sys.version_info <= (3,)]: a tuple [(3, minor, ...)] is longer than
    [(3,)] and therefore greater, so the test holds on Python 2 only. *)
Definition version_info_le_3 (v : version) : bool :=
  match v with Python2 => true | Python3 => false end.

Inductive exn :=
| netsnmpAgentException (msg : string)
| IndexError
| NameError
| AttributeError
| TypeError
| ValueError.

Inductive result (A : Type) :=
| Ok (a : A)
| Raise (e : exn).
Arguments Ok {A} a.
Arguments Raise {A} e.

Definition bind {A B} (m : result A) (k : A -> result B) : result B :=
  match m with
  | Ok a => k a
  | Raise e => Raise e
  end.

Definition raised {A} (m : result A) : bool :=
  match m with Ok _ => false | Raise _ => true end.

(** *** Characters *)

Definition dquote : ascii := ascii_of_nat 34.
Definition squote : ascii := ascii_of_nat 39.
Definition backslash : ascii := ascii_of_nat 92.
Definition newline : ascii := ascii_of_nat 10.
Definition dot : ascii := ascii_of_nat 46.

Definition is_digit (c : ascii) : bool :=
  let n := nat_of_ascii c in (48 <=? n)%nat && (n <=? 57)%nat.

Definition digit_val (c : ascii) : Z := Z.of_nat (nat_of_ascii c) - 48.

(** The blanks [int] skips around a number given as a byte string or as
    ASCII text: space, \t, \n, \v, \f and \r. *)
Definition is_space (c : ascii) : bool :=
  let n := nat_of_ascii c in
  (n =? 32)%nat || ((9 <=? n)%nat && (n <=? 13)%nat).

Definition lower (c : ascii) : ascii :=
  let n := nat_of_ascii c in
  if (65 <=? n)%nat && (n <=? 90)%nat then ascii_of_nat (n + 32) else c.

(** *** Strings *)

Fixpoint str_lower (s : string) : string :=
  match s with
  | EmptyString => EmptyString
  | String c s' => String (lower c) (str_lower s')
  end.

Fixpoint lstrip_while (p : ascii -> bool) (s : string) : string :=
  match s with
  | EmptyString => EmptyString
  | String c s' => if p c then lstrip_while p s' else s
  end.

(** The text without its longest suffix of characters satisfying [p] *)
Fixpoint rstrip_while (p : ascii -> bool) (s : string) : string :=
  match s with
  | EmptyString => EmptyString
  | String c s' =>
      match rstrip_while p s' with
      | EmptyString => if p c then EmptyString else String c EmptyString
      | r => String c r
      end
  end.

(** [s.rstrip(b"\n")] *)
Definition rstrip_newlines (s : string) : string :=
  rstrip_while (Ascii.eqb newline) s.

(** [s.strip()] as applied by [int] to its argument *)
Definition strip (s : string) : string :=
  rstrip_while is_space (lstrip_while is_space s).

(** [s.replace(c, "")] for a one-character [c] *)
Fixpoint remove_char (c : ascii) (s : string) : string :=
  match s with
  | EmptyString => EmptyString
  | String d s' =>
      if Ascii.eqb c d then remove_char c s' else String d (remove_char c s')
  end.

Fixpoint all_chars (p : ascii -> bool) (s : string) : bool :=
  match s with
  | EmptyString => true
  | String c s' => p c && all_chars p s'
  end.

Fixpoint contains_char (c : ascii) (s : string) : bool :=
  match s with
  | EmptyString => false
  | String d s' => Ascii.eqb c d || contains_char c s'
  end.

(** [s.split(c)]: always at least one field *)
Fixpoint split (c : ascii) (s : string) : list string :=
  match s with
  | EmptyString => [EmptyString]
  | String d s' =>
      match split c s' with
      | f :: fs =>
          if Ascii.eqb c d then EmptyString :: f :: fs
          else String d f :: fs
      | [] => [EmptyString]
      end
  end.

(** [s.split(c, 1)]: the text before the first [c] and, when there is
    a [c], the text after it. *)
Fixpoint split1 (c : ascii) (s : string) : string * option string :=
  match s with
  | EmptyString => (EmptyString, None)
  | String d s' =>
      if Ascii.eqb c d then (EmptyString, Some s')
      else let '(h, t) := split1 c s' in (String d h, t)
  end.

(** [sep.join(l)] *)
Fixpoint join (sep : string) (l : list string) : string :=
  match l with
  | [] => EmptyString
  | [x] => x
  | x :: rest => x +:+ sep +:+ join sep rest
  end.

Fixpoint str_take (n : nat) (s : string) : string :=
  match n, s with
  | S k, String c s' => String c (str_take k s')
  | _, _ => EmptyString
  end.

Fixpoint str_drop (n : nat) (s : string) : string :=
  match n, s with
  | S k, String _ s' => str_drop k s'
  | _, _ => s
  end.

(** *** [str] and [repr] *)

Definition str_int (z : Z) : string := pretty z.

Definition hex_digit (n : nat) : ascii :=
  if (n <? 10)%nat then ascii_of_nat (48 + n) else ascii_of_nat (87 + n).

Definition repr_byte (quote c : ascii) : string :=
  let n := nat_of_ascii c in
  if Ascii.eqb c backslash then String backslash (String backslash EmptyString)
  else if Ascii.eqb c quote then String backslash (String quote EmptyString)
  else if (n =? 9)%nat then String backslash "t"
  else if (n =? 10)%nat then String backslash "n"
  else if (n =? 13)%nat then String backslash "r"
  else if (n <? 32)%nat || (127 <=? n)%nat then
    String backslash
      (String "x" (String (hex_digit (n / 16)) (String (hex_digit (n mod 16)) EmptyString)))
  else String c EmptyString.

Fixpoint repr_body (quote : ascii) (s : string) : string :=
  match s with
  | EmptyString => EmptyString
  | String c s' => repr_byte quote c +:+ repr_body quote s'
  end.

(** [repr(b)] of a bytes object on Python 3: [b'...'], with double
    quotes when the text holds a single quote and no double quote. *)
Definition repr_bytes (s : string) : string :=
  let q := if contains_char squote s && negb (contains_char dquote s)
           then dquote else squote in
  String "b" (String q (repr_body q s +:+ String q EmptyString)).

(** [str(b)] of a byte string: the text itself on Python 2 (where
    [bytes] is [str]), its [repr] on Python 3. *)
Definition str_bytes (v : version) (s : string) : string :=
  match v with Python2 => s | Python3 => repr_bytes s end.

(** *** [int(text)] *)

(** Digits of a base-10 literal, most significant first. Python 3.6+
    accepts single underscores between digits; Python 2 accepts none. *)
Fixpoint digits (v : version) (acc : Z) (prev_digit : bool) (s : string)
  : option Z :=
  match s with
  | EmptyString => if prev_digit then Some acc else None
  | String c s' =>
      if is_digit c then digits v (10 * acc + digit_val c) true s'
      else if Ascii.eqb c "_" then
        match v with
        | Python3 => if prev_digit then digits v acc false s' else None
        | Python2 => None
        end
      else None
  end.

(** [int(s)]: surrounding white space is ignored, one sign is allowed;
    [None] stands for [ValueError]. *)
Definition int (v : version) (s : string) : option Z :=
  match strip s with
  | EmptyString => None
  | String c s' =>
      if Ascii.eqb c "-" then option_map Z.opp (digits v 0 false s')
      else if Ascii.eqb c "+" then digits v 0 false s'
      else digits v 0 false (String c s')
  end.

(** *** Regular expressions: the fragment the module's patterns use *)

Inductive regex :=
| Eps
| Chr (c : ascii)
| Dot                       (* any character but a newline *)
| Seq (r1 r2 : regex)
| Alt (r1 r2 : regex)
| Star (r : regex)
| Void.

Fixpoint lit (s : string) : regex :=
  match s with
  | EmptyString => Eps
  | String c s' => Seq (Chr c) (lit s')
  end.

Fixpoint nullable (r : regex) : bool :=
  match r with
  | Eps => true
  | Chr _ => false
  | Dot => false
  | Seq r1 r2 => nullable r1 && nullable r2
  | Alt r1 r2 => nullable r1 || nullable r2
  | Star _ => true
  | Void => false
  end.

Fixpoint deriv (c : ascii) (r : regex) : regex :=
  match r with
  | Eps => Void
  | Chr d => if Ascii.eqb c d then Eps else Void
  | Dot => if Ascii.eqb c newline then Void else Eps
  | Seq r1 r2 =>
      if nullable r1 then Alt (Seq (deriv c r1) r2) (deriv c r2)
      else Seq (deriv c r1) r2
  | Alt r1 r2 => Alt (deriv c r1) (deriv c r2)
  | Star r1 => Seq (deriv c r1) (Star r1)
  | Void => Void
  end.

(** [bool(re.match(r, s))]: some prefix of [s] is in the language. *)
Fixpoint re_match (r : regex) (s : string) : bool :=
  nullable r ||
  match s with
  | EmptyString => false
  | String c s' => re_match (deriv c r) s'
  end.

(** Length of the longest prefix of [s] in the language of [r]. *)
Fixpoint longest_prefix (r : regex) (s : string) : option nat :=
  let deeper :=
    match s with
    | EmptyString => None
    | String c s' => option_map S (longest_prefix (deriv c r) s')
    end in
  match deeper with
  | Some n => Some n
  | None => if nullable r then Some 0%nat else None
  end.

(** [re.sub("^" + r, "", s)]: the pattern is anchored at the start, so
    at most one occurrence is removed. For the one pattern this is
    used with ([(Warning|Error): *], whose alternatives exclude each
    other and whose only repetition is the greedy final one), the
    backtracking matcher returns the longest match. *)
Definition re_sub_anchored (r : regex) (s : string) : string :=
  match longest_prefix r s with
  | Some n => str_drop n s
  | None => s
  end.

End Py.

Import Py.

(** ** Data model *)

(** The ASN.1 type tags the module dispatches on in [Table.value]. *)
Inductive asn_type :=
| ASN_INTEGER
| ASN_OCTET_STR
| ASN_IPADDRESS
| ASN_COUNTER
| ASN_COUNTER64
| ASN_UNSIGNED
| ASN_TIMETICKS.

Global Instance asn_type_eq_dec : EqDecision asn_type.
Proof. solve_decision. Defined.

(** What a ctypes variable holds: a machine integer or a byte buffer. *)
Inductive cval :=
| CInt (z : Z)
| CBytes (s : string).

(** Modelled from the spec: the classes of [netsnmpvartypes], whose file
    is not part of the sources at hand. "A Scalar wraps a typed value
    (integer kinds, octet string, IP address, counter32/64, unsigned,
    time-ticks)"; the fields are the attributes this module reads:
    the class name ([type(obj).__name__]), [_asntype] and [_cvar.value].
    [value()] returns the wrapped value and [update(v)] replaces it. *)
Record VarType := mkVarType {
  cls_name : string;
  _asntype : asn_type;
  _cvar_value : cval;
}.

Definition Integer32 (initval : Z) : VarType := mkVarType "Integer32" ASN_INTEGER (CInt initval).
Definition Unsigned32 (initval : Z) : VarType := mkVarType "Unsigned32" ASN_UNSIGNED (CInt initval).
Definition Counter32 (initval : Z) : VarType := mkVarType "Counter32" ASN_COUNTER (CInt initval).
Definition OctetString (initval : string) : VarType := mkVarType "OctetString" ASN_OCTET_STR (CBytes initval).

Definition VarType_value (v : VarType) : cval := _cvar_value v.

(** [netsnmp_handler_registration]: the fields the module reads back. *)
Record handler_reginfo := mkReginfo {
  rootoid : list Z;
  handler_modes_rw : bool;
  contextName : string;
}.

(** One cell of a row (or of the default row): [netsnmp_table_data_set_storage]. *)
Record storage := mkStorage {
  column : Z;
  st_type : asn_type;
  st_writable : Z;
  st_data : option cval;
}.

(** A stored row: the index variables it was created with, the index OID
    the engine derived from them, and its cells. *)
Record table_row := mkRow {
  indexes : list VarType;
  index_oid : list Z;
  row_data : list storage;
}.

(** The Python [Table] object together with the [netsnmp_table_data_set]
    it owns. [_counterobj] is [None] when no counter object was given and
    otherwise holds the current value of the counter, an integer
    variable shared with the caller of which the table only ever uses
    [value()] and [update()]. *)
Record Table := mkTable {
  index_types : list asn_type;
  default_row : list storage;
  table_rows : list table_row;
  _handler_reginfo : handler_reginfo;
  _counterobj : option Z;
}.

(** A Python-side row handle: the position of the engine row it points to. *)
Record TableRow := mkTableRow { _table_row : nat }.

(** Values passed as row indices. [Var] is an instance of a [_VarType]
    class; any other object matters only through [str()]. *)
Inductive pyitem :=
| Var (v : VarType)
| PyInt (z : Z)
| PyStr (s : string)
| PyObj (str_of : string).

(** What [_getIndices] returns. *)
Inductive indices_val :=
| IdxNone
| IdxInt (z : Z)
| IdxStr (s : string).

Global Instance indices_val_eq_dec : EqDecision indices_val.
Proof. solve_decision. Defined.

(** A registered SNMP object. *)
Inductive snmpobj :=
| ScalarObj (v : VarType)
| TableObj (t : Table).

Inductive netsnmpAgentStatus :=
| REGISTRATION
| FIRSTCONNECT
| CONNECTFAILED
| CONNECTED
| RECONNECTING.

Global Instance netsnmpAgentStatus_eq_dec : EqDecision netsnmpAgentStatus.
Proof. solve_decision. Defined.

(** syslog priorities, the keys of the [priorities] dictionary. *)
Inductive log_priority :=
| LOG_EMERG | LOG_ALERT | LOG_CRIT | LOG_ERR
| LOG_WARNING | LOG_NOTICE | LOG_INFO | LOG_DEBUG.

Global Instance log_priority_eq_dec : EqDecision log_priority.
Proof. solve_decision. Defined.

(** What reaches the outside of the log callback: a call of the
    caller-supplied [LogHandler], or a line printed to the default sink. *)
Inductive sink_line :=
| ToLogHandler (msgprio msgtext : string)
| Printed (line : string).

(** A callback net-snmp delivers to the agent. *)
Inductive callback :=
| LogCallback (priority : log_priority) (msg : string)
| IndexStopCallback (minorID : Z).

(** The agent object. [sink] and [init_snmp_calls] record its visible
    effects: lines forwarded by the log callback (oldest first) and the
    number of calls of [init_snmp]. *)
Record netsnmpAgent := mkAgent {
  AgentName : string;
  MasterSocket : option string;
  UseMIBFiles : bool;
  LogHandler : bool;
  _status : netsnmpAgentStatus;
  _objs : gmap string (gmap string snmpobj);
  sink : list sink_line;
  init_snmp_calls : nat;
}.

Definition set_status (s : netsnmpAgentStatus) (a : netsnmpAgent) : netsnmpAgent :=
  mkAgent (AgentName a) (MasterSocket a) (UseMIBFiles a) (LogHandler a) s
          (_objs a) (sink a) (init_snmp_calls a).

Definition set_objs (o : gmap string (gmap string snmpobj)) (a : netsnmpAgent) : netsnmpAgent :=
  mkAgent (AgentName a) (MasterSocket a) (UseMIBFiles a) (LogHandler a) (_status a)
          o (sink a) (init_snmp_calls a).

Definition emit (l : sink_line) (a : netsnmpAgent) : netsnmpAgent :=
  mkAgent (AgentName a) (MasterSocket a) (UseMIBFiles a) (LogHandler a) (_status a)
          (_objs a) (sink a ++ [l])%list (init_snmp_calls a).

Definition count_init_snmp (a : netsnmpAgent) : netsnmpAgent :=
  mkAgent (AgentName a) (MasterSocket a) (UseMIBFiles a) (LogHandler a) (_status a)
          (_objs a) (sink a) (S (init_snmp_calls a)).

(** [netsnmpAgent.__init__], after its set-up calls succeeded: status
    [REGISTRATION] and an empty registry. *)
Definition new_agent (name : string) (socket : option string) (use_mib : bool)
    (log_handler : bool) : netsnmpAgent :=
  mkAgent name socket use_mib log_handler REGISTRATION ∅ [] 0.

(** ** The interpreter and net-snmp, as seen from the module

    Everything the module obtains by calling out: each net-snmp function
    is an oracle from the arguments of the call to its result. *)
Record environment := mkEnv {
  python : Py.version;
  (** width of [c_oid] (an unsigned long declared in [netsnmpapi]) *)
  c_oid_bits : Z;
  SNMPD_CALLBACK_INDEX_STOP : Z;
  (** [str(obj)] of a [_VarType] instance (the default object repr) *)
  object_str : VarType -> string;
  (** [read_objid]: the resolved OID, or [None] where it returns 0 *)
  read_objid : string -> option (list Z);
  netsnmp_register_watched_scalar : handler_reginfo -> VarType -> Z;
  netsnmp_inject_handler : handler_reginfo -> Z;
  (** called with the columns defined so far *)
  netsnmp_table_set_add_default_row : list storage -> Z -> asn_type -> Z -> Z;
  netsnmp_register_table_data_set : handler_reginfo -> Z;
  (** whether [snmp_varlist_add_variable] returns a variable (not [None]) *)
  snmp_varlist_add_variable : VarType -> bool;
  (** index OID that [netsnmp_table_dataset_add_row] derives for a row *)
  build_index_oid : list VarType -> list Z;
  (** text that [snprint_objid] leaves in the buffer *)
  snprint_objid : list Z -> string;
  netsnmp_set_row_column : table_row -> Z -> asn_type -> Z;
  (** called with the variables already in the PDU *)
  snmp_add_var : list (list Z * ascii * string) -> list Z -> ascii -> string -> Z;
}.

Definition SNMPERR_SUCCESS : Z := 0.
Definition SNMP_ERR_NOERROR : Z := 0.

(** ** The agent *)

(** *** Log callback *)

Definition priorities (p : log_priority) : string :=
  match p with
  | LOG_EMERG => "Emergency"
  | LOG_ALERT => "Alert"
  | LOG_CRIT => "Critical"
  | LOG_ERR => "Error"
  | LOG_WARNING => "Warning"
  | LOG_NOTICE => "Notice"
  | LOG_INFO => "Info"
  | LOG_DEBUG => "Debug"
  end.

(** [^(Warning|Error): *] without its anchor *)
Definition severity_prefix_re : regex :=
  Seq (Alt (lit "Warning") (lit "Error")) (Seq (Chr ":") (Star (Chr " "))).

(** [Failed to .* the agentx master agent.*] *)
Definition connect_failed_re : regex :=
  Seq (lit "Failed to ")
      (Seq (Star Dot) (Seq (lit " the agentx master agent") (Star Dot))).

(** [AgentX subagent connected] *)
Definition connected_re : regex := lit "AgentX subagent connected".

(** [AgentX master disconnected us.*] *)
Definition disconnected_re : regex :=
  Seq (lit "AgentX master disconnected us") (Star Dot).

(** The text the callback works on: trailing linefeeds and a leading
    [Warning: ] or [Error: ] removed. *)
Definition msgtext_of (msg : string) : string :=
  re_sub_anchored severity_prefix_re (rstrip_newlines msg).

(** The tail of the callback: hand the message to [LogHandler] when one
    was given, print it otherwise. *)
Definition forward (msgprio msgtext : string) (a : netsnmpAgent) : netsnmpAgent :=
  if LogHandler a then emit (ToLogHandler msgprio msgtext) a
  else emit (Printed ("[" +:+ msgprio +:+ "] " +:+ msgtext)) a.

(** The first condition of the callback, as Python parses it: [and]
    binds tighter than [or]. *)
Definition failure_branch (msgprio msgtext : string) : bool :=
  String.eqb msgprio "Warning"
  || (String.eqb msgprio "Error" && re_match connect_failed_re msgtext).

(** [_py_log_handler]; it always returns 0. *)
Definition _py_log_handler (a : netsnmpAgent) (priority : log_priority) (msg : string)
  : netsnmpAgent :=
  let msgprio := priorities priority in
  let msgtext := msgtext_of msg in
  if failure_branch msgprio msgtext then
    if decide (_status a = FIRSTCONNECT) then set_status CONNECTFAILED a
    else forward msgprio msgtext a
  else if String.eqb msgprio "Info" && re_match connected_re msgtext then
    forward msgprio msgtext (set_status CONNECTED a)
  else if String.eqb msgprio "Info" && re_match disconnected_re msgtext then
    forward msgprio msgtext (set_status RECONNECTING a)
  else forward msgprio msgtext a.

(** [_py_index_stop_callback] *)
Definition _py_index_stop_callback (env : environment) (a : netsnmpAgent) (minorID : Z)
  : netsnmpAgent :=
  if decide (minorID = SNMPD_CALLBACK_INDEX_STOP env) then set_status RECONNECTING a
  else a.

Definition deliver (env : environment) (a : netsnmpAgent) (cb : callback) : netsnmpAgent :=
  match cb with
  | LogCallback priority msg => _py_log_handler a priority msg
  | IndexStopCallback minorID => _py_index_stop_callback env a minorID
  end.

(** [libnsa.init_snmp(...)]: net-snmp attempts the connection and, while
    doing so, delivers the callbacks [cbs] in order. *)
Definition init_snmp (env : environment) (a : netsnmpAgent) (cbs : list callback)
  : netsnmpAgent :=
  foldl (deliver env) (count_init_snmp a) cbs.

(** *** start *)

(** [str.format] of [MasterSocket], which may be [None] *)
Definition format_socket (s : option string) : string :=
  match s with Some t => t | None => "None" end.

Definition connect_error_msg (socket : option string) : string :=
  "Error connecting to snmpd instance at " +:+ String dquote (format_socket socket)
  +:+ String dquote " -- incorrect " +:+ String dquote "MasterSocket"
  +:+ String dquote " or snmpd not running?".

(** [start()], with the callbacks that arrive during its [init_snmp]. *)
Definition start (env : environment) (a : netsnmpAgent) (cbs : list callback)
  : netsnmpAgent * result unit :=
  if negb (bool_decide (_status a = CONNECTED))
     && negb (bool_decide (_status a = RECONNECTING)) then
    let a1 := set_status FIRSTCONNECT a in
    let a2 := init_snmp env a1 cbs in
    if decide (_status a2 = CONNECTFAILED) then
      (a2, Raise (netsnmpAgentException (connect_error_msg (MasterSocket a2))))
    else (a2, Ok tt)
  else (a, Ok tt).

(** *** OIDs *)

Definition c_oid (env : environment) (z : Z) : Z := z mod 2 ^ c_oid_bits env.

(** [[long(x) for x in fields]] where [long] is [int]: [None] stands for
    the [ValueError] of the first field that is not an integer literal. *)
Fixpoint parse_fields (py : Py.version) (fields : list string) : option (list Z) :=
  match fields with
  | [] => Some []
  | x :: rest =>
      match Py.int py x with
      | None => None
      | Some z => option_map (cons z) (parse_fields py rest)
      end
  end.

(** [_prepareOID]. Without MIB files, [long] is defined only where
    [sys.version_info <= (3,)]; elsewhere the name is unbound when the
    first field is converted, and the [NameError] passes the
    [except ValueError] clause. *)
Definition _prepareOID (env : environment) (a : netsnmpAgent) (oidstr : string)
  : result (list Z) :=
  if UseMIBFiles a then
    match read_objid env oidstr with
    | None => Raise (netsnmpAgentException ("read_objid(" +:+ oidstr +:+ ") failed!"))
    | Some oid => Ok oid
    end
  else
    let fields := split dot oidstr in
    if version_info_le_3 (python env) then
      match parse_fields (python env) fields with
      | None => Raise (netsnmpAgentException ("Invalid OID (not using MIB): " +:+ oidstr))
      | Some parts => Ok (map (c_oid env) parts)
      end
    else
      match fields with
      | [] => Ok []
      | _ :: _ => Raise NameError
      end.

(** *** Registration *)

Definition registration_after_start_msg : string :=
  "Attempt to register SNMP object after agent has been started!".

(** [_prepareRegistration] *)
Definition _prepareRegistration (env : environment) (a : netsnmpAgent)
    (oidstr : string) (writable : bool) : result handler_reginfo :=
  if negb (bool_decide (_status a = REGISTRATION)) then
    Raise (netsnmpAgentException registration_after_start_msg)
  else
    bind (_prepareOID env a oidstr) (fun oid =>
    Ok (mkReginfo oid writable EmptyString)).

Definition set_contextName (ctx : string) (r : handler_reginfo) : handler_reginfo :=
  mkReginfo (rootoid r) (handler_modes_rw r) ctx.

(** [_inject_custom_handler] *)
Definition _inject_custom_handler (env : environment) (r : handler_reginfo) : result unit :=
  if decide (netsnmp_inject_handler env r = SNMPERR_SUCCESS) then Ok tt
  else Raise (netsnmpAgentException "Error injecting custom callback handler!").

(** [self._objs[context]] on a [defaultdict(dict)]: a missing key is
    inserted with an empty dictionary before it is returned. *)
Definition defaultdict_getitem (objs : gmap string (gmap string snmpobj)) (context : string)
  : gmap string (gmap string snmpobj) * gmap string snmpobj :=
  match objs !! context with
  | Some d => (objs, d)
  | None => (<[context := ∅]> objs, ∅)
  end.

(** [self._objs[context][oidstr] = obj] *)
Definition store_obj (context oidstr : string) (obj : snmpobj) (a : netsnmpAgent)
  : netsnmpAgent :=
  let '(objs, d) := defaultdict_getitem (_objs a) context in
  set_objs (<[context := <[oidstr := obj]> d]> objs) a.

(** The wrapper generated for each variable class: [cls_inst] is the
    instance just built from [initval]; [oidstr] is [None] (or empty)
    for a variable meant to go into a table. *)
Definition _cls_wrapper (env : environment) (a : netsnmpAgent) (cls_inst : VarType)
    (oidstr : option string) (writable : bool) (context : string) (callback : bool)
  : netsnmpAgent * result VarType :=
  match oidstr with
  | None => (a, Ok cls_inst)
  | Some EmptyString => (a, Ok cls_inst)
  | Some oidstr =>
      match _prepareRegistration env a oidstr writable with
      | Raise e => (a, Raise e)
      | Ok reginfo =>
          let reginfo := set_contextName context reginfo in
          if decide (netsnmp_register_watched_scalar env reginfo cls_inst = 0) then
            match (if callback then _inject_custom_handler env reginfo else Ok tt) with
            | Raise e => (a, Raise e)
            | Ok _ => (store_obj context oidstr (ScalarObj cls_inst) a, Ok cls_inst)
            end
          else (a, Raise (netsnmpAgentException "Error registering variable with net-snmp!"))
      end
  end.

(** [getContexts] *)
Definition getContexts (a : netsnmpAgent) : gset string := dom (_objs a).

(** ** Tables *)

Fixpoint mapM {A B} (f : A -> result B) (l : list A) : result (list B) :=
  match l with
  | [] => Ok []
  | x :: rest => bind (f x) (fun y => bind (mapM f rest) (fun ys => Ok (y :: ys)))
  end.

(** [str(x._cvar.value)] *)
Definition str_cvar (env : environment) (x : pyitem) : result string :=
  match x with
  | Var v =>
      match _cvar_value v with
      | CInt z => Ok (str_int z)
      | CBytes s => Ok (str_bytes (python env) s)
      end
  | _ => Raise AttributeError
  end.

(** [str(x)] *)
Definition str_item (env : environment) (x : pyitem) : string :=
  match x with
  | Var v => object_str env v
  | PyInt z => str_int z
  | PyStr s => s
  | PyObj s => s
  end.

(** [repr(x)], as [str] of a tuple shows its elements *)
Definition repr_item (env : environment) (x : pyitem) : string :=
  match x with
  | PyStr s =>
      let q := if contains_char squote s && negb (contains_char dquote s)
               then dquote else squote in
      String q (repr_body q s +:+ String q EmptyString)
  | _ => str_item env x
  end.

(** [str(t)] of a tuple *)
Definition str_tuple (env : environment) (l : list pyitem) : string :=
  match l with
  | [x] => "(" +:+ repr_item env x +:+ ",)"
  | _ => "(" +:+ join ", " (map (repr_item env) l) +:+ ")"
  end.

(** The [indices] / [idxobjs] argument of the row operations: a list, a
    tuple, or a single object. *)
Inductive pyarg :=
| PyList (l : list pyitem)
| PyTuple (l : list pyitem)
| NotSeq (x : pyitem).

(** The list [_getRow] works on: [indices] itself when it is a list,
    [[indices]] otherwise. A wrapped tuple counts through its [str]. *)
Definition as_list (env : environment) (indices : pyarg) : list pyitem :=
  match indices with
  | PyList l => l
  | PyTuple l => [PyObj (str_tuple env l)]
  | NotSeq x => [x]
  end.

(** The text [_getRow] looks for. [indices[0]] of an empty list raises. *)
Definition matchStr_of (env : environment) (indices : pyarg) : result string :=
  let l := as_list env indices in
  match l with
  | [] => Raise IndexError
  | Var _ :: _ => bind (mapM (str_cvar env) l) (fun ss => Ok (join "." ss))
  | _ :: _ => Ok (join "." (map (str_item env) l))
  end.

(** [_getIndices] of a row that exists: the rendering of the row's full
    OID (registered OID, entry 1, a fixed column 2, index OID) with
    everything up to the first dot removed; an integer when that text is
    an integer literal, the text without double quotes otherwise. *)
Definition _getIndices (env : environment) (t : Table) (row : table_row)
  : result indices_val :=
  let fulloid := (rootoid (_handler_reginfo t) ++ [1; 2] ++ index_oid row)%list in
  let oidcstr := snprint_objid env fulloid in
  match snd (split1 dot oidcstr) with
  | None => Raise IndexError
  | Some indices =>
      match Py.int (python env) indices with
      | Some z => Ok (IdxInt z)
      | None => Ok (IdxStr (remove_char dquote indices))
      end
  end.

(** [matchStr != rowIndices]: a text differs from [None] and from every
    integer. *)
Definition differs (matchStr : string) (rowIndices : indices_val) : bool :=
  match rowIndices with
  | IdxStr s => negb (String.eqb matchStr s)
  | IdxInt _ => true
  | IdxNone => true
  end.

(** The loop of [_getRow] over the rows from position [pos] on: the
    first row whose [_getIndices] equals [matchStr], with its position,
    or [None] for the null row at the end of the list. *)
Fixpoint find_row (env : environment) (t : Table) (matchStr : string)
    (rows : list table_row) (pos : nat) : result (option (nat * table_row)) :=
  match rows with
  | [] => Ok None
  | row :: rest =>
      bind (_getIndices env t row) (fun rowIndices =>
      if differs matchStr rowIndices then find_row env t matchStr rest (S pos)
      else Ok (Some (pos, row)))
  end.

(** [_getRow] *)
Definition _getRow (env : environment) (t : Table) (indices : pyarg)
  : result (option (nat * table_row)) :=
  bind (matchStr_of env indices) (fun matchStr =>
  find_row env t matchStr (table_rows t) 0).

Definition set_rows (rows : list table_row) (t : Table) : Table :=
  mkTable (index_types t) (default_row t) rows (_handler_reginfo t) (_counterobj t).

Definition set_counter (c : option Z) (t : Table) : Table :=
  mkTable (index_types t) (default_row t) (table_rows t) (_handler_reginfo t) c.

(** [self._counterobj.update(f(self._counterobj.value()))], guarded by
    [if self._counterobj:] *)
Definition update_counter (f : Z -> Z) (t : Table) : Table :=
  match _counterobj t with
  | Some c => set_counter (Some (f c)) t
  | None => t
  end.

(** [for idxobj in idxobjs] of [TableRow.__init__]: the index variables
    added to the new row. A text iterates over its characters, other
    single objects are not iterable; reading [_asntype] off anything but a
    variable raises. *)
Definition index_objects (env : environment) (idxobjs : pyarg) : result (list VarType) :=
  let need_var (x : pyitem) : result VarType :=
    match x with
    | Var v =>
        if snmp_varlist_add_variable env v then Ok v
        else Raise (netsnmpAgentException "snmp_varlist_add_variable() failed!")
    | _ => Raise AttributeError
    end in
  match idxobjs with
  | PyList l => mapM need_var l
  | PyTuple l => mapM need_var l
  | NotSeq (PyStr EmptyString) => Ok []
  | NotSeq (PyStr _) => Raise AttributeError
  | NotSeq _ => Raise TypeError
  end.

(** [TableRow.__init__] followed by [netsnmp_table_dataset_add_row].
    Modelled from the spec: the engine's row store, "an ordered collection
    of Rows (insertion order preserved for traversal)" to which [addRow]
    "appends" the row built "from the schema's default values". *)
Definition new_row (env : environment) (t : Table) (idx : list VarType) : table_row :=
  mkRow idx (build_index_oid env idx) (default_row t).

(** [_getOrAddRow] *)
Definition _getOrAddRow (env : environment) (t : Table) (idxobjs : pyarg)
    (_getExistingRow : bool) : Table * result TableRow :=
  if _getExistingRow then
    match _getRow env t idxobjs with
    | Raise e => (t, Raise e)
    | Ok None => (t, Raise (netsnmpAgentException "Row not found!"))
    | Ok (Some (pos, _)) => (t, Ok (mkTableRow pos))
    end
  else
    match index_objects env idxobjs with
    | Raise e => (t, Raise e)
    | Ok idx =>
        let t1 := set_rows (table_rows t ++ [new_row env t idx])%list t in
        (update_counter (fun c => c + 1) t1, Ok (mkTableRow (List.length (table_rows t))))
    end.

Definition getRow (env : environment) (t : Table) (idxobjs : pyarg)
  : Table * result TableRow :=
  _getOrAddRow env t idxobjs true.

Definition addRow (env : environment) (t : Table) (idxobjs : pyarg)
  : Table * result TableRow :=
  _getOrAddRow env t idxobjs false.

(** [clear] *)
Definition clear (t : Table) : Table :=
  update_counter (fun _ => 0) (set_rows [] t).

(** [deleteRow] *)
Definition deleteRow (env : environment) (t : Table) (indices : pyarg)
  : Table * result unit :=
  match _getRow env t indices with
  | Raise e => (t, Raise e)
  | Ok None => (t, Ok tt)
  | Ok (Some (pos, _)) =>
      (update_counter (fun c => c - 1) (set_rows (delete pos (table_rows t)) t), Ok tt)
  end.

(** Modelled from the spec: what a successful [netsnmp_set_row_column]
    leaves in the row, the cell of that column holding the new value. *)
Definition set_cell (colIdx : Z) (val : cval) (row : table_row) : table_row :=
  mkRow (indexes row) (index_oid row)
        (map (fun s => if decide (column s = colIdx)
                       then mkStorage (column s) (st_type s) (st_writable s) (Some val)
                       else s)
             (row_data row)).

Definition set_row_column_failed_msg (rc : Z) : string :=
  "netsnmp_set_row_column() failed with error code " +:+ str_int rc +:+ "!".

(** The shared tail of [setRowColumn] and [TableRow.setRowCell] *)
Definition set_row_column_at (env : environment) (t : Table) (pos : nat) (row : table_row)
    (colIdx : Z) (snmpobj : VarType) : Table * result unit :=
  let rc := netsnmp_set_row_column env row colIdx (_asntype snmpobj) in
  if decide (rc = SNMPERR_SUCCESS) then
    (set_rows (<[pos := set_cell colIdx (_cvar_value snmpobj) row]> (table_rows t)) t, Ok tt)
  else (t, Raise (netsnmpAgentException (set_row_column_failed_msg rc))).

(** [str.format] of the [indices] argument in the message of
    [setRowColumn] *)
Definition format_indices (env : environment) (indices : pyarg) : string :=
  match indices with
  | PyList l => "[" +:+ join ", " (map (repr_item env) l) +:+ "]"
  | PyTuple l => str_tuple env l
  | NotSeq x => str_item env x
  end.

(** [setRowColumn] *)
Definition setRowColumn (env : environment) (t : Table) (indices : pyarg)
    (colIdx : Z) (snmpobj : VarType) : Table * result unit :=
  match _getRow env t indices with
  | Raise e => (t, Raise e)
  | Ok None =>
      (t, Raise (netsnmpAgentException
                   ("setRowColumn() failed to find row for indices "
                    +:+ format_indices env indices +:+ "!")))
  | Ok (Some (pos, row)) => set_row_column_at env t pos row colIdx snmpobj
  end.

(** *** Table construction *)

Definition add_default_row_failed_msg (rc : Z) : string :=
  "netsnmp_table_set_add_default_row() failed with error code " +:+ str_int rc +:+ "!".

Definition register_table_failed_msg (rc : Z) : string :=
  "Error code " +:+ str_int rc +:+ " while registering table with net-snmp!".

(** The loop over [coldefs]: each is [(colno, defobj)] or
    [(colno, defobj, writable)]. Modelled from the spec: an accepted
    column is appended to the schema ("[defineColumn] appends a column"). *)
Fixpoint add_default_rows (env : environment) (cols : list storage)
    (coldefs : list (Z * VarType * option Z)) : result (list storage) :=
  match coldefs with
  | [] => Ok cols
  | (colno, defobj, w) :: rest =>
      let writable := default 0 w in
      let rc := netsnmp_table_set_add_default_row env cols colno (_asntype defobj) writable in
      if decide (rc = SNMPERR_SUCCESS) then
        add_default_rows env
          (cols ++ [mkStorage colno (_asntype defobj) writable (Some (_cvar_value defobj))])%list
          rest
      else Raise (netsnmpAgentException (add_default_row_failed_msg rc))
  end.

(** [Table.__init__], reached through [netsnmpAgent.Table]. [counterobj]
    is the counter object passed in, if any, with its value. The registry
    entry is the table object itself; it is stored here as the table
    stands at the end of the constructor. *)
Definition Table_init (env : environment) (a : netsnmpAgent) (oidstr : string)
    (idxobjs : list VarType) (coldefs : list (Z * VarType * option Z))
    (counterobj : option Z) (extendable : bool) (context : string) (callback : bool)
  : netsnmpAgent * result Table :=
  match add_default_rows env [] coldefs with
  | Raise e => (a, Raise e)
  | Ok cols =>
      match _prepareRegistration env a oidstr extendable with
      | Raise e => (a, Raise e)
      | Ok reginfo =>
          let reginfo := set_contextName context reginfo in
          match (if callback then _inject_custom_handler env reginfo else Ok tt) with
          | Raise e => (a, Raise e)
          | Ok _ =>
              let rc := netsnmp_register_table_data_set env reginfo in
              if decide (rc = SNMP_ERR_NOERROR) then
                let t := mkTable (map _asntype idxobjs) cols [] reginfo
                                 (option_map (fun _ => 0) counterobj) in
                (store_obj context oidstr (TableObj t) a, Ok t)
              else (a, Raise (netsnmpAgentException (register_table_failed_msg rc)))
          end
      end
  end.

(** *** Table.value *)

Inductive cellval :=
| IntVal (z : Z)
| TextVal (s : string).

(** An entry of the dictionary [value()] returns: the schema under key
    [0], the cells of a row under the row's indices. *)
Inductive dump_entry :=
| SchemaEntry (cols : list (Z * (string * option cellval)))
| RowEntry (cells : list (Z * cellval)).

(** [d[k] = v] on a dictionary kept as an association list in insertion
    order *)
Fixpoint dict_set {K V} `{EqDecision K} (k : K) (v : V) (d : list (K * V)) : list (K * V) :=
  match d with
  | [] => [(k, v)]
  | (k', v') :: rest =>
      if decide (k = k') then (k, v) :: rest else (k', v') :: dict_set k v rest
  end.

Definition asntypes (ty : asn_type) : string :=
  match ty with
  | ASN_INTEGER => "Integer"
  | ASN_OCTET_STR => "OctetString"
  | ASN_IPADDRESS => "IPAddress"
  | ASN_COUNTER => "Counter32"
  | ASN_COUNTER64 => "Counter64"
  | ASN_UNSIGNED => "Unsigned32"
  | ASN_TIMETICKS => "TimeTicks"
  end.

(** The engine keeps a cell in the representation of its type; the two
    readers are total for definiteness only. *)
Definition int_of (d : cval) : Z := match d with CInt z => z | CBytes _ => 0 end.
Definition text_of (d : cval) : string := match d with CBytes s => s | CInt _ => EmptyString end.

(** [socket.inet_ntoa(struct.pack("I", v))] of the value read as an
    unsigned 32-bit integer, on a little-endian host *)
Definition inet_ntoa_pack_I (z : Z) : string :=
  let u := z mod 2 ^ 32 in
  join "." (map str_int [u mod 256; (u / 256) mod 256; (u / 65536) mod 256; u / 16777216]).

Definition schema_cell (s : storage) : string * option cellval :=
  (asntypes (st_type s),
   match st_data s with
   | None => None
   | Some d =>
       Some (match st_type s with
             | ASN_OCTET_STR => TextVal (text_of d)
             | ASN_IPADDRESS => TextVal (inet_ntoa_pack_I (int_of d))
             | _ => IntVal (int_of d)
             end)
   end).

(** The inner loop over a row's cells; [retdict[indices] += {}] on a cell
    without data is not an operation dictionaries have. *)
Fixpoint row_cells (cells : list storage) (acc : list (Z * cellval))
  : result (list (Z * cellval)) :=
  match cells with
  | [] => Ok acc
  | s :: rest =>
      match st_data s with
      | None => Raise TypeError
      | Some d =>
          let v := match st_type s with
                   | ASN_OCTET_STR => TextVal (text_of d)
                   | ASN_COUNTER64 => IntVal (int_of d)
                   | ASN_IPADDRESS => TextVal (inet_ntoa_pack_I (int_of d))
                   | _ => IntVal (int_of d)
                   end in
          row_cells rest (dict_set (column s) v acc)
      end
  end.

Fixpoint rows_dump (env : environment) (t : Table) (rows : list table_row)
    (retdict : list (indices_val * dump_entry)) : result (list (indices_val * dump_entry)) :=
  match rows with
  | [] => Ok retdict
  | row :: rest =>
      bind (_getIndices env t row) (fun indices =>
      bind (row_cells (row_data row) []) (fun cells =>
      rows_dump env t rest (dict_set indices (RowEntry cells) retdict)))
  end.

(** [Table.value] *)
Definition value (env : environment) (t : Table) : result (list (indices_val * dump_entry)) :=
  let schema := foldl (fun d s => dict_set (column s) (schema_cell s) d) [] (default_row t) in
  rows_dump env t (table_rows t) [(IdxInt 0, SchemaEntry schema)].

(** *** getRegistered *)

Inductive objvalue :=
| ScalarValue (v : cval)
| TableValue (d : list (indices_val * dump_entry)).

Definition type_name (o : snmpobj) : string :=
  match o with
  | ScalarObj v => cls_name v
  | TableObj _ => "Table"
  end.

Definition snmpobj_value (env : environment) (o : snmpobj) : result objvalue :=
  match o with
  | ScalarObj v => Ok (ScalarValue (VarType_value v))
  | TableObj t => bind (value env t) (fun d => Ok (TableValue d))
  end.

(** [getRegistered]: [self._objs[context]] is read through the
    [defaultdict]. *)
Definition getRegistered (env : environment) (a : netsnmpAgent) (context : string)
  : netsnmpAgent * result (gmap string (string * objvalue)) :=
  let '(objs, d) := defaultdict_getitem (_objs a) context in
  (set_objs objs a,
   bind (mapM (fun '(oidstr, o) =>
                 bind (snmpobj_value env o) (fun v => Ok (oidstr, (type_name o, v))))
              (map_to_list d))
        (fun l => Ok (list_to_map l))).

(** ** Traps *)

(** One variable of a PDU: OID, type character, value text. *)
Definition varbind : Type := list Z * ascii * string.

Inductive sent_trap :=
| V2Trap (variables : list varbind)
| V3Trap (variables : list varbind) (context : string)
| EasyTrap (trap specific : option Z).

(** The PDU under construction and what [send_trap] does around it:
    every call of [snmp_add_var] (oldest first), the debug lines printed,
    and the traps handed to net-snmp. *)
Record trap_state := mkTrapState {
  variables : list varbind;
  add_var_calls : list varbind;
  printed : list string;
  sent : list sent_trap;
}.

Definition new_pdu : trap_state := mkTrapState [] [] [] [].

(** [snmp_pdu._humanToASNtype] *)
Definition _humanToASNtype (varType : option string) : result ascii :=
  let varType := default "=" varType in
  let varType :=
    if (1 <? String.length varType)%nat then
      let varTypeL := str_lower varType in
      if String.eqb (str_take 3 varTypeL) "hex" then "x"
      else if String.eqb (str_take 3 varTypeL) "obj"
              || String.eqb (str_take 3 varTypeL) "oid" then "o"
      else if String.eqb (str_take 4 varTypeL) "uinteger" then "3"
      else if String.eqb varTypeL "gauge" || String.eqb varTypeL "unsigned32" then "u"
      else if String.eqb (str_take 2 varTypeL) "ip" then "a"
      else if String.eqb (str_take 3 varTypeL) "dec" then "d"
      else if String.eqb varTypeL "counter64" then "C"
      else if String.eqb varTypeL "integer" || String.eqb varTypeL "integer32" then "i"
      else if String.eqb (str_take 1 varType) "B" then "b"
      else varType
    else varType in
  match varType with
  | EmptyString => Raise IndexError
  | String c _ => Ok c
  end.

(** One call of [snmp_add_var]. Modelled from the spec: a call that
    returns 0 has appended the variable to the "outbound variable list". *)
Definition call_snmp_add_var (env : environment) (st : trap_state) (oid : list Z)
    (ty : ascii) (val : string) : trap_state * Z :=
  let ret := snmp_add_var env (variables st) oid ty val in
  (mkTrapState
     (if decide (ret = 0) then (variables st ++ [(oid, ty, val)])%list else variables st)
     (add_var_calls st ++ [(oid, ty, val)])%list
     (printed st) (sent st),
   ret).

Definition print_line (line : string) (st : trap_state) : trap_state :=
  mkTrapState (variables st) (add_var_calls st) (printed st ++ [line])%list (sent st).

Definition send (tr : sent_trap) (st : trap_state) : trap_state :=
  mkTrapState (variables st) (add_var_calls st) (printed st) (sent st ++ [tr])%list.

(** [snmp_pdu.add]. The [while ret:] loop runs its body once or twice: a
    failed call with a type other than [=] resets the type to [=] and goes
    round again; a failed call with type [=] breaks; a call returning 0
    ends the loop. *)
Definition add (env : environment) (a : netsnmpAgent) (st : trap_state)
    (varOID varData : string) (varType : option string) : trap_state * result Z :=
  match _humanToASNtype varType with
  | Raise e => (st, Raise e)
  | Ok ty =>
      match _prepareOID env a varOID with
      | Raise e => (st, Raise e)
      | Ok varOid =>
          let '(st1, ret) := call_snmp_add_var env st varOid ty varData in
          if decide (ret = 0) then (st1, Ok ret)
          else if negb (Ascii.eqb ty "=") then
            let st2 := print_line ("ZDBG: ret=" +:+ str_int ret) st1 in
            let '(st3, ret') := call_snmp_add_var env st2 varOid "=" varData in
            (st3, Ok ret')
          else (st1, Ok ret)
      end
  end.

(** An element of [traps]: a dictionary that may hold the keys [oid],
    [val] and [type]. *)
Record trap_entry := mkEntry {
  entry_oid : option string;
  entry_val : option string;
  entry_type : option string;
}.

(** The loop [for entry in traps]; the result of [pdu.add] is dropped. *)
Fixpoint add_entries (env : environment) (a : netsnmpAgent) (st : trap_state)
    (traps : list trap_entry) : trap_state * result unit :=
  match traps with
  | [] => (st, Ok tt)
  | entry :: rest =>
      match entry_oid entry with
      | Some varOid =>
          match entry_val entry with
          | Some varData =>
              match add env a st varOid varData (entry_type entry) with
              | (st', Raise e) => (st', Raise e)
              | (st', Ok _) => add_entries env a st' rest
              end
          | None => (st, Raise (netsnmpAgentException "missing 'val' key in trap list!"))
          end
      | None => (st, Raise (netsnmpAgentException "missing 'oid' key in trap list!"))
      end
  end.

(** The keyword arguments of [send_trap]; [args] are its positional ones. *)
Record trap_kwargs := mkKwargs {
  kw_trap : option Z;
  kw_specific : option Z;
  kw_oid : option string;
  kw_traps : option (list trap_entry);
  kw_context : option string;
  kw_uptime : option Z;
}.

Definition truthy_str (s : option string) : bool :=
  match s with Some (String _ _) => true | _ => false end.

Definition truthy_int (z : option Z) : bool :=
  match z with Some z => negb (z =? 0)%Z | None => false end.

Definition trap_oid_failed_msg (oid : string) : string :=
  "Failed to add " +:+ oid +:+ " as snmpTrapOID!".

(** The first step of [send_trap] with an [oid]: [if uptime:
    pdu.add('SNMPv2-MIB::sysUpTime.0', uptime, 't')], result dropped. *)
Definition add_uptime (env : environment) (a : netsnmpAgent) (pdu : trap_state)
    (kw : trap_kwargs) : trap_state * result Z :=
  if truthy_int (kw_uptime kw) then
    add env a pdu "SNMPv2-MIB::sysUpTime.0" (str_int (default 0 (kw_uptime kw))) (Some "t")
  else (pdu, Ok 0).

(** [send_trap] *)
Definition send_trap (env : environment) (a : netsnmpAgent) (args : list Z)
    (kw : trap_kwargs) : trap_state * result unit :=
  if truthy_str (kw_oid kw) then
    let oid := default EmptyString (kw_oid kw) in
    let pdu := new_pdu in
    match add_uptime env a pdu kw with
    | (pdu, Raise e) => (pdu, Raise e)
    | (pdu, Ok _) =>
        match add env a pdu "SNMPv2-MIB::snmpTrapOID.0" oid (Some "=") with
        | (pdu, Raise e) => (pdu, Raise e)
        | (pdu, Ok result) =>
            if negb (result =? 0)%Z then
              (pdu, Raise (netsnmpAgentException (trap_oid_failed_msg oid)))
            else
              match add_entries env a pdu (default [] (kw_traps kw)) with
              | (pdu, Raise e) => (pdu, Raise e)
              | (pdu, Ok _) =>
                  if truthy_str (kw_context kw) then
                    (send (V3Trap (variables pdu) (default EmptyString (kw_context kw))) pdu, Ok tt)
                  else (send (V2Trap (variables pdu)) pdu, Ok tt)
              end
        end
    end
  else
    let '(trap, specific) :=
      if truthy_int (kw_trap kw) && truthy_int (kw_specific kw) then
        (kw_trap kw, kw_specific kw)
      else
        match args with
        | [t; s] => (Some t, Some s)
        | _ => (kw_trap kw, kw_specific kw)
        end in
    (send (EasyTrap trap specific) new_pdu, Ok tt).

(** ** Module set-up *)

(** *** enum *)

(** An attribute of the class [enum] returns: a number, or the [Names]
    dictionary. *)
Inductive enum_attr :=
| EnumVal (z : Z)
| EnumNames (names : list (Z * string)).

(** [dict(zip(sequential, range(len(sequential))), **named)]; dictionaries
    are kept in insertion order, a later value for a key replacing the
    earlier one in place. *)
Definition enum_values (sequential : list string) (named : list (string * Z))
  : list (string * Z) :=
  foldl (fun d kv => dict_set (fst kv) (snd kv) d)
        (foldl (fun d kv => dict_set (fst kv) (snd kv) d) []
               (zip sequential (map Z.of_nat (seq 0 (length sequential)))))
        named.

(** [dict((value, key) for key, value in enums_iterator)] *)
Definition enum_names (enums : list (string * Z)) : list (Z * string) :=
  foldl (fun d kv => dict_set (snd kv) (fst kv) d) [] enums.

(** [enum]: the attributes of the class it returns. *)
Definition enum (sequential : list string) (named : list (string * Z))
  : list (string * enum_attr) :=
  let enums := enum_values sequential named in
  dict_set "Names" (EnumNames (enum_names enums))
           (map (fun kv => (fst kv, EnumVal (snd kv))) enums).

(** *** netsnmpAgent.__init__ *)

(** The callbacks [__init__] registers. *)
Inductive registered_callback :=
| LogHandlerCallback
| IndexStopHandlerCallback.

Inductive ds_string_key :=
| NETSNMP_DS_AGENT_X_SOCKET
| NETSNMP_DS_LIB_PERSISTENT_DIR.

(** A call [__init__] makes into net-snmp. *)
Inductive setup_call :=
| snmp_register_callback (cb : registered_callback)
| snmp_enable_calllog
| netsnmp_ds_set_boolean_agent_role
| netsnmp_ds_set_string (key : ds_string_key) (value : string)
| init_agent (name : string)
| netsnmp_init_mib
| read_mib (mib : string).

(** The [MIBFiles] argument: [None], a single file name, or a list or
    tuple of file names. *)
Inductive mibfiles_arg :=
| NoMIBFiles
| OneMIBFile (mib : string)
| MIBFileList (mibs : list string).

(** The keyword arguments of [__init__], [AgentName] with its default
    resolved. *)
Record init_args := mkInitArgs {
  arg_AgentName : string;
  arg_MasterSocket : option string;
  arg_PersistenceDir : option string;
  arg_UseMIBFiles : bool;
  arg_MIBFiles : mibfiles_arg;
  arg_LogHandler : bool;
}.

(** net-snmp during set-up: for a call, given the calls made before it,
    the callbacks of the agent it runs before it returns, and its return
    code. *)
Definition libnsa : Type := list setup_call -> setup_call -> list callback * Z.

(** What [inspect.getargspec] returns for an [__init__] method, as far
    as the constructor reads it: the argument names and the defaults
    ([None] when no argument has one). *)
Record argspec := mkArgspec {
  spec_args : list string;
  spec_defaults : option (list cval);
}.

(** The interpreter's [inspect] module and the module [netsnmpvartypes],
    as the end of [__init__] sees them: the names of the public classes
    derived from [_VarType], in the order [inspect.getmembers] lists
    them, and [inspect.getargspec] applied to the [__init__] of such a
    class; [getargspec] is [None] on an interpreter that has no such
    function. *)
Record inspect_env := mkInspect {
  vartype_classes : list string;
  getargspec : option (string -> result argspec);
}.

(** The constructor at work: the calls made so far and the object under
    construction. *)
Record setup_state := mkSetup {
  made : list setup_call;
  self : netsnmpAgent;
}.

(** A step of [__init__]: it changes the state and returns or raises. *)
Definition setup (A : Type) : Type := setup_state -> setup_state * result A.

Definition setup_ret {A} (x : A) : setup A := fun st => (st, Ok x).

Definition setup_bind {A B} (m : setup A) (f : A -> setup B) : setup B :=
  fun st =>
    match m st with
    | (st', Ok x) => f x st'
    | (st', Raise e) => (st', Raise e)
    end.

(** One call into net-snmp: the callbacks it delivers run on the object
    before the call returns. *)
Definition libcall (env : environment) (lib : libnsa) (c : setup_call) : setup Z :=
  fun st =>
    let '(cbs, rc) := lib (made st) c in
    (mkSetup (made st ++ [c])%list (foldl (deliver env) (self st) cbs), Ok rc).

(** [if libnsa.f(...) <failed>: raise netsnmpAgentException(msg)] *)
Definition checked (env : environment) (lib : libnsa) (c : setup_call)
    (failed : Z -> bool) (msg : string) : setup unit :=
  setup_bind (libcall env lib c) (fun rc =>
  if failed rc then (fun st => (st, Raise (netsnmpAgentException msg)))
  else setup_ret tt).

Definition not_success (rc : Z) : bool := negb (rc =? SNMPERR_SUCCESS)%Z.

(** [self.MIBFiles] as the loop sees it when [UseMIBFiles] holds: a
    single name has been wrapped into a tuple. *)
Definition mibfiles_list (m : mibfiles_arg) : list string :=
  match m with
  | NoMIBFiles => []
  | OneMIBFile mib => [mib]
  | MIBFileList mibs => mibs
  end.

(** ["netsnmp_read_module({0}) " + "failed!".format(mib)]: [format]
    applies to the second literal only. *)
Definition read_mib_failed_msg (mib : string) : string :=
  "netsnmp_read_module({0}) " +:+ "failed!".

Fixpoint read_mibs (env : environment) (lib : libnsa) (mibs : list string) : setup unit :=
  match mibs with
  | [] => setup_ret tt
  | mib :: rest =>
      setup_bind (checked env lib (read_mib mib) (fun rc => (rc =? 0)%Z)
                    (read_mib_failed_msg mib))
                 (fun _ => read_mibs env lib rest)
  end.

(** The net-snmp part of [__init__], from the registration of the log
    handler to the reading of the MIB files. *)
Definition init_net_snmp (env : environment) (lib : libnsa) (args : init_args)
  : setup unit :=
  let when (b : bool) (m : setup unit) : setup unit := if b then m else setup_ret tt in
  setup_bind (checked env lib (snmp_register_callback LogHandlerCallback) not_success
                "snmp_register_callback() failed for _netsnmp_log_handler!") (fun _ =>
  setup_bind (libcall env lib snmp_enable_calllog) (fun _ =>
  setup_bind (checked env lib (snmp_register_callback IndexStopHandlerCallback) not_success
                "snmp_register_callback() failed for _netsnmp_index_callback!") (fun _ =>
  setup_bind (checked env lib netsnmp_ds_set_boolean_agent_role not_success
                "netsnmp_ds_set_boolean() failed for NETSNMP_DS_AGENT_ROLE!") (fun _ =>
  setup_bind (when (truthy_str (arg_MasterSocket args))
                (checked env lib (netsnmp_ds_set_string NETSNMP_DS_AGENT_X_SOCKET
                                    (default EmptyString (arg_MasterSocket args)))
                   not_success
                   "netsnmp_ds_set_string() failed for NETSNMP_DS_AGENT_X_SOCKET!")) (fun _ =>
  setup_bind (when (truthy_str (arg_PersistenceDir args))
                (checked env lib (netsnmp_ds_set_string NETSNMP_DS_LIB_PERSISTENT_DIR
                                    (default EmptyString (arg_PersistenceDir args)))
                   not_success
                   "netsnmp_ds_set_string() failed for NETSNMP_DS_LIB_PERSISTENT_DIR!"))
             (fun _ =>
  setup_bind (checked env lib (init_agent (arg_AgentName args))
                (fun rc => negb (rc =? 0)%Z) "init_agent() failed!") (fun _ =>
  setup_bind (when (arg_UseMIBFiles args)
                (setup_bind (libcall env lib netsnmp_init_mib) (fun _ => setup_ret tt)))
             (fun _ =>
  when (arg_UseMIBFiles args) (read_mibs env lib (mibfiles_list (arg_MIBFiles args))))))))))).

(** [l.index(x)]; [None] stands for the [ValueError] of a missing [x]. *)
Fixpoint list_index (x : string) (l : list string) : option nat :=
  match l with
  | [] => None
  | y :: rest => if String.eqb y x then Some 0%nat else option_map S (list_index x rest)
  end.

(** [argspec[3][list(filter(lambda e: e != "self", argspec[0])).index("initval")]]:
    the position is computed first, then [argspec[3]] is subscripted. *)
Definition default_initval (spec : argspec) : result cval :=
  match list_index "initval"
          (List.filter (fun e => negb (String.eqb e "self")) (spec_args spec)) with
  | None => Raise ValueError
  | Some i =>
      match spec_defaults spec with
      | None => Raise TypeError
      | Some defaults =>
          match defaults !! i with
          | Some d => Ok d
          | None => Raise IndexError
          end
      end
  end.

(** The loop over the variable classes at the end of [__init__]: for
    each class the default of [initval], under which its wrapper is made
    available as a method of the agent. *)
Fixpoint class_wrappers (insp : inspect_env) (classes : list string)
  : result (list (string * cval)) :=
  match classes with
  | [] => Ok []
  | cls :: rest =>
      match getargspec insp with
      | None => Raise AttributeError
      | Some inspect_getargspec =>
          bind (inspect_getargspec cls) (fun spec =>
          bind (default_initval spec) (fun default =>
          bind (class_wrappers insp rest) (fun wrappers =>
          Ok ((cls, default) :: wrappers))))
      end
  end.

(** [netsnmpAgent.__init__]: the attributes are set from the arguments
    and the status to [REGISTRATION], net-snmp is set up, the registry is
    created and the class wrappers are defined. The result is the list
    of wrappers with their default initial values, or the exception; the
    state holds the calls made and the object as the constructor left
    it. *)
Definition netsnmpAgent_init (env : environment) (lib : libnsa) (insp : inspect_env)
    (args : init_args) : setup_state * result (list (string * cval)) :=
  let st0 := mkSetup [] (new_agent (arg_AgentName args) (arg_MasterSocket args)
                                   (arg_UseMIBFiles args) (arg_LogHandler args)) in
  match init_net_snmp env lib args st0 with
  | (st, Raise e) => (st, Raise e)
  | (st, Ok _) =>
      (mkSetup (made st) (set_objs ∅ (self st)),
       class_wrappers insp (vartype_classes insp))
  end.

(** ** A reference environment

    Modelled from the spec: the engine behaviour the specification
    describes, used to run the module on concrete inputs.
    - "integers render as decimal digits joined by [.]; string-typed index
      components render as their OID-packed byte sequence decoded back to
      text" (between double quotes, which [_getIndices] strips);
    - the rendering names the column and then the index, so that "the
      portion after the entry-OID prefix" is what follows the first dot;
    - "[defineColumn] ... fails with [DuplicateColumnError] if [number]
      repeats";
    - every other engine call succeeds. *)

Definition string_of_subids (l : list Z) : string :=
  foldr (fun z s => String (ascii_of_nat (Z.to_nat z)) s) EmptyString l.

Definition subids_of_string (s : string) : list Z :=
  map (fun c => Z.of_nat (nat_of_ascii c)) (list_ascii_of_string s).

Definition spec_index_oid (idx : list VarType) : list Z :=
  flat_map (fun v => match _cvar_value v with
                     | CInt z => [z]
                     | CBytes s => Z.of_nat (String.length s) :: subids_of_string s
                     end) idx.

Fixpoint render_index (kinds : list asn_type) (oid : list Z) : list string :=
  match kinds, oid with
  | ASN_OCTET_STR :: kinds', n :: oid' =>
      String dquote (string_of_subids (take (Z.to_nat n) oid') +:+ String dquote EmptyString)
      :: render_index kinds' (drop (Z.to_nat n) oid')
  | _ :: kinds', z :: oid' => str_int z :: render_index kinds' oid'
  | _, _ => map str_int oid
  end.

Definition spec_snprint_objid (rootoidlen : nat) (kinds : list asn_type) (fulloid : list Z)
  : string :=
  join "." ("NET-SNMP-EXAMPLES-MIB::column" :: render_index kinds (drop (rootoidlen + 2) fulloid)).

Definition spec_read_objid (oidstr : string) : option (list Z) :=
  if String.eqb oidstr "SNMPv2-MIB::sysUpTime.0" then Some [1; 3; 6; 1; 2; 1; 1; 3; 0]
  else if String.eqb oidstr "SNMPv2-MIB::snmpTrapOID.0" then Some [1; 3; 6; 1; 6; 3; 1; 1; 4; 1; 0]
  else parse_fields Python2 (split dot oidstr).

Definition SNMPERR_GENERR : Z := -1.

Definition spec_add_default_row (cols : list storage) (colno : Z) (ty : asn_type) (w : Z) : Z :=
  if bool_decide (colno ∈ map column cols) then SNMPERR_GENERR else SNMPERR_SUCCESS.

Definition spec_env (py : Py.version) (rootoidlen : nat) (kinds : list asn_type) : environment :=
  mkEnv py 64 11
        (fun v => "<netsnmpvartypes." +:+ cls_name v +:+ " object>")
        spec_read_objid
        (fun _ _ => 0)
        (fun _ => SNMPERR_SUCCESS)
        spec_add_default_row
        (fun _ => SNMP_ERR_NOERROR)
        (fun _ => true)
        spec_index_oid
        (spec_snprint_objid rootoidlen kinds)
        (fun _ _ _ => SNMPERR_SUCCESS)
        (fun _ _ _ _ => 0).

(** The same environment with another [snmp_add_var]. *)
Definition with_snmp_add_var
    (f : list varbind -> list Z -> ascii -> string -> Z) (env : environment) : environment :=
  mkEnv (python env) (c_oid_bits env) (SNMPD_CALLBACK_INDEX_STOP env) (object_str env)
        (read_objid env) (netsnmp_register_watched_scalar env) (netsnmp_inject_handler env)
        (netsnmp_table_set_add_default_row env) (netsnmp_register_table_data_set env)
        (snmp_varlist_add_variable env) (build_index_oid env) (snprint_objid env) (netsnmp_set_row_column env) f.

(** ** Notions used in the statements *)

(** The fields the callbacks never write. *)
Definition same_config (a b : netsnmpAgent) : Prop :=
  AgentName b = AgentName a /\ MasterSocket b = MasterSocket a
  /\ UseMIBFiles b = UseMIBFiles a /\ LogHandler b = LogHandler a
  /\ _objs b = _objs a /\ init_snmp_calls b = init_snmp_calls a.

(** Once connected, the status stays within [CONNECTED] and
    [RECONNECTING]. *)
Definition connected_before (a : netsnmpAgent) : Prop :=
  _status a = CONNECTED \/ _status a = RECONNECTING.

(** What the caller of a sequence of agent operations sees. *)
Inductive action :=
| Start (cbs : list callback)
| Callback (cb : callback).

(** Runs the operations in order and collects the exceptions raised to
    the caller, oldest first. *)
Fixpoint run (env : environment) (a : netsnmpAgent) (acts : list action)
  : netsnmpAgent * list exn :=
  match acts with
  | [] => (a, [])
  | Start cbs :: rest =>
      let '(a1, r) := start env a cbs in
      let '(a2, errs) := run env a1 rest in
      (a2, match r with Raise e => e :: errs | Ok _ => errs end)
  | Callback cb :: rest => run env (deliver env a cb) rest
  end.

(** The operations that change the row store. *)
Inductive table_op :=
| AddRow (idxobjs : pyarg)
| DeleteRow (indices : pyarg)
| Clear.

Definition apply_op (env : environment) (t : Table) (op : table_op) : Table :=
  match op with
  | AddRow idxobjs => fst (addRow env t idxobjs)
  | DeleteRow indices => fst (deleteRow env t indices)
  | Clear => clear t
  end.

(** The full OID [_getIndices] has rendered for a row. *)
Definition fulloid_of (t : Table) (row : table_row) : list Z :=
  (rootoid (_handler_reginfo t) ++ [1; 2] ++ index_oid row)%list.

(** A table with one integer index column, two columns and a row
    counter, registered at [1.3.6.1.4.1.8072.2.2.1]. *)
Definition int_index_table : Table :=
  mkTable [ASN_INTEGER]
          [mkStorage 2 ASN_OCTET_STR 1 (Some (CBytes "none")); mkStorage 3 ASN_INTEGER 0 (Some (CInt 0))]
          []
          (mkReginfo [1; 3; 6; 1; 4; 1; 8072; 2; 2; 1] true EmptyString)
          (Some 0).

Definition int_index_env (py : Py.version) : environment := spec_env py 10 [ASN_INTEGER].

(** The counter follows the number of stored rows. *)
Definition counter_in_step (t : Table) : Prop :=
  _counterobj t = Some (Z.of_nat (length (table_rows t))).

(** An engine that takes no variable of type [i]. *)
Definition no_integer_env : environment :=
  with_snmp_add_var
    (fun _ _ ty _ => if Ascii.eqb ty "i" then 1 else 0)
    (spec_env Python3 0 []).

(** An engine that takes no variable under [1.3.6.1.5]. *)
Definition rejecting_env : environment :=
  with_snmp_add_var
    (fun _ oid _ _ => if bool_decide (oid = [1; 3; 6; 1; 5]) then 1 else 0)
    (spec_env Python3 0 []).

(** ** Notions used in the further properties *)

(** The language of a pattern: the texts it matches as a whole. *)
Inductive matches : regex -> string -> Prop :=
| MEps : matches Eps EmptyString
| MChr (c : ascii) : matches (Chr c) (String c EmptyString)
| MDot (c : ascii) : c <> newline -> matches Dot (String c EmptyString)
| MSeq (r1 r2 : regex) (s1 s2 : string) :
    matches r1 s1 -> matches r2 s2 -> matches (Seq r1 r2) (s1 +:+ s2)
| MAltL (r1 r2 : regex) (s : string) : matches r1 s -> matches (Alt r1 r2) s
| MAltR (r1 r2 : regex) (s : string) : matches r2 s -> matches (Alt r1 r2) s
| MStar0 (r : regex) : matches (Star r) EmptyString
| MStarS (r : regex) (s1 s2 : string) :
    matches r s1 -> matches (Star r) s2 -> matches (Star r) (s1 +:+ s2).

(** Whether the last character of a text satisfies [p]. *)
Fixpoint last_satisfies (p : ascii -> bool) (s : string) : bool :=
  match s with
  | EmptyString => false
  | String c EmptyString => p c
  | String _ s' => last_satisfies p s'
  end.

(** [n] blanks *)
Fixpoint blanks (n : nat) : string :=
  match n with
  | O => EmptyString
  | S k => String " " (blanks k)
  end.

(** [self._objs[context][oidstr]] read without inserting anything: the
    object registered under a context and OID text, if any. *)
Definition lookup_obj (a : netsnmpAgent) (context oidstr : string) : option snmpobj :=
  match _objs a !! context with
  | Some d => d !! oidstr
  | None => None
  end.

(** The calls that may change a table: the row operations and
    [setRowColumn]. *)
Inductive table_call :=
| RowOp (op : table_op)
| SetRowColumn (indices : pyarg) (colIdx : Z) (snmpobj : VarType).

Definition apply_call (env : environment) (t : Table) (c : table_call) : Table :=
  match c with
  | RowOp op => apply_op env t op
  | SetRowColumn indices colIdx snmpobj => fst (setRowColumn env t indices colIdx snmpobj)
  end.

(** The calls of a set-up in which nothing fails, in order. *)
Definition setup_plan (args : init_args) : list setup_call :=
  ([snmp_register_callback LogHandlerCallback; snmp_enable_calllog;
    snmp_register_callback IndexStopHandlerCallback; netsnmp_ds_set_boolean_agent_role]
   ++ (if truthy_str (arg_MasterSocket args)
       then [netsnmp_ds_set_string NETSNMP_DS_AGENT_X_SOCKET
               (default EmptyString (arg_MasterSocket args))]
       else [])
   ++ (if truthy_str (arg_PersistenceDir args)
       then [netsnmp_ds_set_string NETSNMP_DS_LIB_PERSISTENT_DIR
               (default EmptyString (arg_PersistenceDir args))]
       else [])
   ++ [init_agent (arg_AgentName args)]
   ++ (if arg_UseMIBFiles args
       then netsnmp_init_mib :: map read_mib (mibfiles_list (arg_MIBFiles args))
       else []))%list.

(** The return code that makes [__init__] raise after a call: 0 for
    [read_mib], anything but 0 for the other checked calls; the results
    of [snmp_enable_calllog] and [netsnmp_init_mib] are not looked at. *)
Definition failed_code (c : setup_call) (rc : Z) : Prop :=
  match c with
  | read_mib _ => rc = 0
  | snmp_enable_calllog | netsnmp_init_mib => False
  | _ => rc <> 0
  end.

(** None of the calls, made in this order after [before], fails. *)
Fixpoint all_ok (lib : libnsa) (before calls : list setup_call) : Prop :=
  match calls with
  | [] => True
  | c :: rest =>
      ~ failed_code c (snd (lib before c)) /\ all_ok lib (before ++ [c])%list rest
  end.

(** The callbacks net-snmp delivers during these calls, oldest first. *)
Fixpoint delivered (lib : libnsa) (before calls : list setup_call) : list callback :=
  match calls with
  | [] => []
  | c :: rest => (fst (lib before c) ++ delivered lib (before ++ [c])%list rest)%list
  end.

(** The state after these calls: they are on record and their callbacks
    have run on the object. *)
Definition after_calls (env : environment) (lib : libnsa) (st : setup_state)
    (calls : list setup_call) : setup_state :=
  mkSetup (made st ++ calls)%list
          (foldl (deliver env) (self st) (delivered lib (made st) calls)).

(** A part of the set-up makes the calls of [plan] in order and returns
    [x], or stops with an exception at the first call that fails. *)
Definition stops_at_first_failure {A} (env : environment) (lib : libnsa) (m : setup A)
    (plan : list setup_call) (x : A) : Prop :=
  forall st,
    (m st = (after_calls env lib st plan, Ok x) /\ all_ok lib (made st) plan)
    \/ exists before c rest msg,
        plan = (before ++ c :: rest)%list
        /\ all_ok lib (made st) before
        /\ failed_code c (snd (lib (made st ++ before)%list c))
        /\ m st = (after_calls env lib st (before ++ [c])%list,
                   Raise (netsnmpAgentException msg))
        /\ (msg = "netsnmp_read_module({0}) failed!" <-> exists mib, c = read_mib mib).


(** How [value()] shows the data of a cell of the given type. *)
Definition cell_value (ty : asn_type) (dat : cval) : cellval :=
  match ty with
  | ASN_OCTET_STR => TextVal (text_of dat)
  | ASN_IPADDRESS => TextVal (inet_ntoa_pack_I (int_of dat))
  | _ => IntVal (int_of dat)
  end.

(** [d.get(k)] on a dictionary kept as an association list *)
Fixpoint dict_get {K V} `{EqDecision K} (k : K) (d : list (K * V)) : option V :=
  match d with
  | [] => None
  | (k', v) :: rest => if decide (k = k') then Some v else dict_get k rest
  end.

(** * Properties *)

(** ** The connection state machine *)

Section StateMachine.

Variable env : environment.

Lemma failure_branch_priorities (p : log_priority) (txt : string) :
  failure_branch (priorities p) txt
  = bool_decide (p = LOG_WARNING)
    || (bool_decide (p = LOG_ERR) && re_match connect_failed_re txt).
Proof. destruct p; reflexivity. Qed.

Lemma status_forward (msgprio msgtext : string) (a : netsnmpAgent) :
  _status (forward msgprio msgtext a) = _status a.
Proof. unfold forward. destruct (LogHandler a); reflexivity. Qed.

Lemma sink_forward (msgprio msgtext : string) (a : netsnmpAgent) :
  sink (forward msgprio msgtext a)
  = (sink a ++ [if LogHandler a then ToLogHandler msgprio msgtext
                else Printed ("[" +:+ msgprio +:+ "] " +:+ msgtext)])%list.
Proof. unfold forward. destruct (LogHandler a); reflexivity. Qed.

Lemma same_config_refl (a : netsnmpAgent) : same_config a a.
Proof. repeat split. Qed.

Lemma same_config_trans (a b c : netsnmpAgent) :
  same_config a b -> same_config b c -> same_config a c.
Proof.
  unfold same_config. intros (?&?&?&?&?&?) (?&?&?&?&?&?).
  repeat split; congruence.
Qed.

Lemma same_config_forward (msgprio msgtext : string) (a : netsnmpAgent) :
  same_config a (forward msgprio msgtext a).
Proof. unfold forward. destruct (LogHandler a); repeat split. Qed.

Lemma same_config_set_status (s : netsnmpAgentStatus) (a : netsnmpAgent) :
  same_config a (set_status s a).
Proof. repeat split. Qed.

Lemma same_config_deliver (a : netsnmpAgent) (cb : callback) :
  same_config a (deliver env a cb).
Proof.
  destruct cb as [p msg | minorID]; simpl.
  - unfold _py_log_handler.
    repeat case_match;
      eauto using same_config_forward, same_config_set_status, same_config_trans.
  - unfold _py_index_stop_callback. case_decide; auto using same_config_refl, same_config_set_status.
Qed.

Lemma same_config_foldl (cbs : list callback) (a : netsnmpAgent) :
  same_config a (foldl (deliver env) a cbs).
Proof.
  revert a. induction cbs as [|cb cbs IH]; intros a; simpl.
  - apply same_config_refl.
  - eapply same_config_trans; [apply same_config_deliver | apply IH].
Qed.



Lemma connected_before_deliver (a : netsnmpAgent) (cb : callback) :
  connected_before a -> connected_before (deliver env a cb).
Proof.
  unfold connected_before. intros Ha.
  destruct cb as [p msg | minorID]; simpl.
  - unfold _py_log_handler.
    repeat case_match; rewrite ?status_forward; simpl; auto.
    destruct Ha; congruence.
  - unfold _py_index_stop_callback. case_decide; simpl; auto.
Qed.

Lemma start_connected (a : netsnmpAgent) (cbs : list callback) :
  connected_before a -> start env a cbs = (a, Ok tt).
Proof.
  unfold connected_before, start. intros [H | H]; rewrite H; reflexivity.
Qed.

End StateMachine.

Section StartAndLog.

Variable env : environment.

Lemma run_connected (acts : list action) (a : netsnmpAgent) :
  connected_before a -> snd (run env a acts) = [].
Proof.
  revert a. induction acts as [|[cbs | cb] acts IH]; intros a Ha; simpl.
  - reflexivity.
  - rewrite (start_connected env a cbs Ha).
    specialize (IH a Ha). destruct (run env a acts). exact IH.
  - apply IH. by apply connected_before_deliver.
Qed.

(** C2 (the code departs from the claim). In [FIRSTCONNECT] a message of
    priority Warning whose text does not match the connection-failure
    pattern still moves the status to [CONNECTFAILED], and is not
    forwarded: in [msgprio == "Warning" or msgprio == "Error" and
    re.match(...)] the pattern only guards the Error case. *)
Theorem warning_without_pattern_sets_connectfailed :
  let a := set_status FIRSTCONNECT (new_agent "agent" None true false) in
  let msg := "Cannot find module (FOO-MIB): At line 0 in (none)" in
  re_match connect_failed_re (msgtext_of msg) = false
  /\ _status (_py_log_handler a LOG_WARNING msg) = CONNECTFAILED
  /\ sink (_py_log_handler a LOG_WARNING msg) = [].
Proof. vm_compute. auto. Qed.

(** What the callback does decide on in [FIRSTCONNECT]. *)
Lemma firstconnect_failed_iff (a : netsnmpAgent) (p : log_priority) (msg : string) :
  _status a = FIRSTCONNECT ->
  _status (_py_log_handler a p msg) = CONNECTFAILED
  <-> p = LOG_WARNING
      \/ (p = LOG_ERR /\ re_match connect_failed_re (msgtext_of msg) = true).
Proof.
  intros Hs. unfold _py_log_handler.
  rewrite failure_branch_priorities.
  destruct (decide (p = LOG_WARNING)) as [-> | Hw].
  { simpl. rewrite decide_True by exact Hs. simpl. tauto. }
  rewrite (bool_decide_eq_false_2 _ Hw). simpl.
  destruct (decide (p = LOG_ERR)) as [-> | He].
  - simpl. destruct (re_match connect_failed_re (msgtext_of msg)); simpl.
    + rewrite decide_True by exact Hs. simpl. tauto.
    + rewrite status_forward, Hs. split; [discriminate | intros [? | [_ ?]]; discriminate].
  - rewrite (bool_decide_eq_false_2 _ He). simpl.
    assert (_status (if String.eqb (priorities p) "Info"
                        && re_match connected_re (msgtext_of msg)
                     then forward (priorities p) (msgtext_of msg) (set_status CONNECTED a)
                     else if String.eqb (priorities p) "Info"
                             && re_match disconnected_re (msgtext_of msg)
                          then forward (priorities p) (msgtext_of msg)
                                       (set_status RECONNECTING a)
                          else forward (priorities p) (msgtext_of msg) a)
            <> CONNECTFAILED) as Hne.
    { repeat case_match; rewrite status_forward; simpl; rewrite ?Hs; discriminate. }
    split; [intros ?; contradiction | intros [? | [? _]]; contradiction].
Qed.




End StartAndLog.



(** C9, as stated, fails: a connection error can be raised more than
    once. [start()] only stands still when the status is [CONNECTED] or
    [RECONNECTING]; called again after a failed first attempt it makes
    another first attempt, which can fail and raise again. *)
Lemma connection_error_raised_twice :
  let env0 := spec_env Python3 0 [] in
  let a := new_agent "agent" (Some "tcp:localhost:705") true false in
  let failure := [LogCallback LOG_WARNING
                    "Warning: Failed to connect to the agentx master agent ([NIL]): "] in
  let e := netsnmpAgentException (connect_error_msg (Some "tcp:localhost:705")) in
  snd (run env0 a [Start failure; Start failure]) = [e; e].
Proof. vm_compute. reflexivity. Qed.

(** C9, amended. A log message taken for a connection failure (priority
    Warning or Error, text matching the pattern) is kept from the sink
    when the status is [FIRSTCONNECT], where it sets [CONNECTFAILED]; when
    the status is [RECONNECTING] it is forwarded with its priority label
    and the status stays. Once the status is [CONNECTED] or
    [RECONNECTING], no later callback or [start()] raises anything. A
    connection error comes from [start()] only, one per call, and only for
    an attempt that this very call began and that ended in
    [CONNECTFAILED]. *)
Theorem classified_failure_handling (env : environment) (a : netsnmpAgent)
    (p : log_priority) (msg : string) :
  p = LOG_WARNING \/ p = LOG_ERR ->
  re_match connect_failed_re (msgtext_of msg) = true ->
  (_status a = FIRSTCONNECT ->
   _status (_py_log_handler a p msg) = CONNECTFAILED
   /\ sink (_py_log_handler a p msg) = sink a)
  /\ (_status a = RECONNECTING ->
      _status (_py_log_handler a p msg) = RECONNECTING
      /\ sink (_py_log_handler a p msg)
         = (sink a ++ [if LogHandler a
                       then ToLogHandler (priorities p) (msgtext_of msg)
                       else Printed ("[" +:+ priorities p +:+ "] " +:+ msgtext_of msg)])%list)
  /\ (connected_before a -> forall acts, snd (run env a acts) = [])
  /\ (forall cbs,
        snd (start env a cbs) = Ok tt
        \/ (snd (start env a cbs)
            = Raise (netsnmpAgentException (connect_error_msg (MasterSocket a)))
            /\ _status (fst (start env a cbs)) = CONNECTFAILED
            /\ _status a <> CONNECTED /\ _status a <> RECONNECTING
            /\ init_snmp_calls (fst (start env a cbs)) = S (init_snmp_calls a))).
Proof.
  intros Hp Hm.
  assert (Hfb : failure_branch (priorities p) (msgtext_of msg) = true).
  { rewrite failure_branch_priorities, Hm. destruct Hp as [-> | ->]; reflexivity. }
  split; [|split; [|split]].
  - intros Hs. unfold _py_log_handler. rewrite Hfb, Hs. split; reflexivity.
  - intros Hs. unfold _py_log_handler. rewrite Hfb, Hs. simpl.
    by rewrite status_forward, sink_forward.
  - intros Hc acts. by apply run_connected.
  - intros cbs. unfold start.
    destruct (decide (_status a = CONNECTED)) as [Hc | Hc];
      [rewrite Hc; left; reflexivity|].
    destruct (decide (_status a = RECONNECTING)) as [Hr | Hr];
      [rewrite Hr; left; reflexivity|].
    rewrite (bool_decide_eq_false_2 _ Hc), (bool_decide_eq_false_2 _ Hr). simpl.
    unfold init_snmp.
    pose proof (same_config_foldl env cbs (count_init_snmp (set_status FIRSTCONNECT a)))
      as (_ & Hsock & _ & _ & _ & Hcalls).
    case_decide as Hf; simpl; [right | left; reflexivity].
    rewrite Hsock. repeat split; auto.
Qed.

Lemma classified_failure_handling_witness :
  let env0 := spec_env Python3 0 [] in
  let a := set_status RECONNECTING (new_agent "agent" None true true) in
  let msg := "Warning: Failed to connect to the agentx master agent ([NIL]): " in
  sink (_py_log_handler a LOG_WARNING msg)
  = [ToLogHandler "Warning" "Failed to connect to the agentx master agent ([NIL]): "]
  /\ _status (_py_log_handler a LOG_WARNING msg) = RECONNECTING.
Proof.
  intros env0 a msg.
  assert (Hp : LOG_WARNING = LOG_WARNING \/ LOG_WARNING = LOG_ERR) by (left; reflexivity).
  assert (Hm : re_match connect_failed_re (msgtext_of msg) = true) by (vm_compute; reflexivity).
  destruct (classified_failure_handling env0 a LOG_WARNING msg Hp Hm) as (_ & Hre & _).
  destruct Hre as [Hs Hk]; [reflexivity|].
  split; [rewrite Hk; vm_compute; reflexivity | exact Hs].
Defined.

(** ** Registration and the registry *)

Lemma getContexts_store_obj (context oidstr : string) (obj : snmpobj) (a : netsnmpAgent) :
  getContexts (store_obj context oidstr obj a) = {[context]} ∪ getContexts a.
Proof.
  unfold getContexts, store_obj, defaultdict_getitem.
  destruct (_objs a !! context) as [d|] eqn:Hd; simpl.
  - by rewrite dom_insert_L.
  - rewrite !dom_insert_L. by rewrite (assoc_L (∪)), (idemp_L (∪)).
Qed.

Lemma getContexts_getRegistered (env : environment) (a : netsnmpAgent) (context : string) :
  getContexts (fst (getRegistered env a context)) = {[context]} ∪ getContexts a.
Proof.
  unfold getContexts, getRegistered, defaultdict_getitem.
  destruct (_objs a !! context) as [d|] eqn:Hd; simpl.
  - symmetry. apply subseteq_union_1_L, singleton_subseteq_l, elem_of_dom. eauto.
  - by rewrite dom_insert_L.
Qed.

(** C8 (the code departs from the claim). [getRegistered] reads
    [self._objs[context]] from a [defaultdict(dict)], which inserts the
    missing key: on a fresh agent, with nothing registered, a query for an
    unknown context returns the empty dictionary and from then on
    [getContexts()] lists that context. *)
Theorem getRegistered_adds_context :
  let env0 := spec_env Python3 0 [] in
  let a := new_agent "agent" None true false in
  getContexts a = ∅
  /\ snd (getRegistered env0 a "unknown") = Ok ∅
  /\ getContexts (fst (getRegistered env0 a "unknown")) = {["unknown"]}.
Proof.
  intros env0 a. split; [|split].
  - unfold getContexts, a, new_agent. simpl. apply dom_empty_L.
  - unfold getRegistered, defaultdict_getitem, a, new_agent. simpl.
    rewrite lookup_empty. simpl. rewrite map_to_list_empty. reflexivity.
  - rewrite getContexts_getRegistered.
    unfold getContexts, a, new_agent. simpl. rewrite dom_empty_L. apply (right_id_L ∅ (∪)).
Qed.

(** C4, as stated, fails for tables: the constructor hands the column
    definitions to the engine before it looks at the status, so a table
    whose column the engine rejects fails with that error instead. *)
Lemma table_column_error_comes_first :
  let env0 := spec_env Python3 0 [] in
  let a := set_status CONNECTED (new_agent "agent" None true false) in
  let r := Table_init env0 a "1.3.6.1.4.1.8072.2.2.1" [Integer32 0]
             [(1, Integer32 0, None); (1, OctetString "none", None)]
             None false EmptyString false in
  _status a = CONNECTED
  /\ snd r = Raise (netsnmpAgentException
                      "netsnmp_table_set_add_default_row() failed with error code -1!")
  /\ snd r <> Raise (netsnmpAgentException registration_after_start_msg).
Proof. vm_compute. repeat split. discriminate. Qed.

(** C4, amended. Outside [REGISTRATION], registering a scalar (a
    non-empty [oidstr]) always fails with the registration-after-start
    error, and a table registration always fails too: with that error
    whenever the engine accepted the column definitions, and with the
    engine's column error otherwise. The agent, its registry included, is
    unchanged in every case. *)
Theorem registration_after_start (env : environment) (a : netsnmpAgent) :
  _status a <> REGISTRATION ->
  (forall cls_inst c oidstr writable context callback,
      _cls_wrapper env a cls_inst (Some (String c oidstr)) writable context callback
      = (a, Raise (netsnmpAgentException registration_after_start_msg)))
  /\ (forall oidstr idxobjs coldefs counterobj extendable context callback,
        let r := Table_init env a oidstr idxobjs coldefs counterobj extendable
                            context callback in
        fst r = a
        /\ raised (snd r) = true
        /\ (forall cols, add_default_rows env [] coldefs = Ok cols ->
                         snd r = Raise (netsnmpAgentException registration_after_start_msg))
        /\ (forall e, add_default_rows env [] coldefs = Raise e -> snd r = Raise e)).
Proof.
  intros Hs.
  assert (Hprep : forall oidstr w, _prepareRegistration env a oidstr w
                    = Raise (netsnmpAgentException registration_after_start_msg)).
  { intros. unfold _prepareRegistration. by rewrite (bool_decide_eq_false_2 _ Hs). }
  split.
  - intros. unfold _cls_wrapper. by rewrite Hprep.
  - intros. subst r. unfold Table_init. rewrite Hprep.
    destruct (add_default_rows env [] coldefs) as [cols | e]; simpl.
    + repeat split; try done; intros; congruence.
    + repeat split; try done; intros; congruence.
Qed.

Lemma registration_after_start_witness :
  let env0 := spec_env Python3 0 [] in
  let a := set_status RECONNECTING (new_agent "agent" None true false) in
  _cls_wrapper env0 a (Integer32 0) (Some "1.3.6.1.4.1.8072.2.1.1.0") true EmptyString false
  = (a, Raise (netsnmpAgentException registration_after_start_msg))
  /\ Table_init env0 a "1.3.6.1.4.1.8072.2.2.1" [Integer32 0] [(2, OctetString "none", Some 1)]
       (Some 4) true EmptyString false
     = (a, Raise (netsnmpAgentException registration_after_start_msg)).
Proof.
  intros env0 a.
  assert (Hs : _status a <> REGISTRATION) by discriminate.
  destruct (registration_after_start env0 a Hs) as [Hscalar Htable].
  split; [apply Hscalar|].
  specialize (Htable "1.3.6.1.4.1.8072.2.2.1" [Integer32 0] [(2, OctetString "none", Some 1)]
                     (Some 4) true EmptyString false).
  destruct Htable as (Hfst & _ & Hok & _).
  apply injective_projections; [exact Hfst|].
  eapply Hok. vm_compute. reflexivity.
Defined.

(** ** OID parsing without MIB files *)

Lemma split_cons (c : ascii) (s : string) : exists f fs, split c s = f :: fs.
Proof.
  induction s as [|d s (f & fs & IH)]; simpl; [eauto|].
  rewrite IH. destruct (Ascii.eqb c d); eauto.
Qed.

Lemma parse_fields_length (py : Py.version) (fields : list string) (parts : list Z) :
  parse_fields py fields = Some parts -> length parts = length fields.
Proof.
  revert parts. induction fields as [|x rest IH]; intros parts; simpl.
  - by intros [= <-].
  - destruct (Py.int py x); [|discriminate].
    destruct (parse_fields py rest) as [zs|]; [|discriminate].
    intros [= <-]. simpl. f_equal. by apply IH.
Qed.

Lemma parse_fields_None (py : Py.version) (fields : list string) (x : string) :
  x ∈ fields -> Py.int py x = None -> parse_fields py fields = None.
Proof.
  induction 1 as [x rest | x y rest Hin IH]; intros Hx; simpl.
  - by rewrite Hx.
  - destruct (Py.int py y); [|reflexivity]. by rewrite IH.
Qed.

Lemma parse_fields_Forall2 (py : Py.version) (fields : list string) (parts : list Z) :
  parse_fields py fields = Some parts
  <-> Forall2 (fun x z => Py.int py x = Some z) fields parts.
Proof.
  revert parts. induction fields as [|x rest IH]; intros parts; simpl.
  - split; [intros [= <-]; constructor | intros H; by inversion H].
  - destruct (Py.int py x) as [z|] eqn:Hx.
    + destruct (parse_fields py rest) as [zs|] eqn:Hrest; simpl.
      * split.
        -- intros [= <-]. constructor; [exact Hx | by apply IH].
        -- intros H. inversion H as [|? z' ? zs' Hz Hzs]; subst.
           apply IH in Hzs. congruence.
      * split; [discriminate|].
        intros H. inversion H as [|? z' ? zs' Hz Hzs]; subst.
        apply IH in Hzs. discriminate.
    + split; [discriminate|].
      intros H. inversion H; subst. congruence.
Qed.

(** On Python 3 the name [long] is never bound. *)
Lemma prepareOID_python3 (env : environment) (a : netsnmpAgent) (oidstr : string) :
  UseMIBFiles a = false -> python env = Python3 ->
  _prepareOID env a oidstr = Raise NameError.
Proof.
  intros Hmib Hpy. unfold _prepareOID. rewrite Hmib, Hpy. simpl.
  destruct (split_cons dot oidstr) as (f & fs & ->). reflexivity.
Qed.

Lemma prepareOID_python3_example :
  _prepareOID (spec_env Python3 0 []) (new_agent "agent" None false false) "1.3.6"
  = Raise NameError.
Proof. reflexivity. Qed.

(** C6, as stated, fails: a negative component is not rejected. [int]
    reads the sign and [c_oid] reduces the value modulo the width of
    the unsigned sub-identifier type. *)
Lemma negative_component_accepted :
  _prepareOID (spec_env Python2 0 []) (new_agent "agent" None false false) "1.3.-6"
  = Ok [1; 3; 2 ^ 64 - 6].
Proof. vm_compute. reflexivity. Qed.

(** C6, amended. Without MIB files and where [long] is defined (Python
    2), [_prepareOID] splits the text on the dots and reads every field
    with [int]: it raises the invalid-OID exception as soon as one field
    is not an integer literal, and otherwise returns one sub-identifier
    per field, each the value read reduced modulo the width of [c_oid]
    (so a negative component is accepted and wraps around). *)
Theorem numeric_oid_parsing (env : environment) (a : netsnmpAgent) (oidstr : string) :
  UseMIBFiles a = false -> python env = Python2 ->
  let fields := split dot oidstr in
  ((exists x, x ∈ fields /\ Py.int Python2 x = None) ->
   _prepareOID env a oidstr
   = Raise (netsnmpAgentException ("Invalid OID (not using MIB): " +:+ oidstr)))
  /\ (forall parts, Forall2 (fun x z => Py.int Python2 x = Some z) fields parts ->
                    _prepareOID env a oidstr
                    = Ok (map (fun z => z mod 2 ^ c_oid_bits env) parts))
  /\ (forall oid, _prepareOID env a oidstr = Ok oid -> length oid = length fields).
Proof.
  intros Hmib Hpy fields. subst fields.
  unfold _prepareOID. rewrite Hmib, Hpy. simpl. split; [|split].
  - intros (x & Hin & Hx). by rewrite (parse_fields_None _ _ _ Hin Hx).
  - intros parts Hparts. apply parse_fields_Forall2 in Hparts. by rewrite Hparts.
  - intros oid. destruct (parse_fields Python2 (split dot oidstr)) as [parts|] eqn:Hp;
      [|discriminate].
    intros [= <-]. rewrite length_map. by eapply parse_fields_length.
Qed.

Lemma numeric_oid_parsing_witness :
  let env0 := spec_env Python2 0 [] in
  let a := new_agent "agent" None false false in
  _prepareOID env0 a "1.3.6.1.4.1.8072" = Ok [1; 3; 6; 1; 4; 1; 8072]
  /\ _prepareOID env0 a "1.3.six"
     = Raise (netsnmpAgentException "Invalid OID (not using MIB): 1.3.six").
Proof.
  intros env0 a.
  pose proof (numeric_oid_parsing env0 a "1.3.6.1.4.1.8072" eq_refl eq_refl) as (_ & Hok & _).
  pose proof (numeric_oid_parsing env0 a "1.3.six" eq_refl eq_refl) as (Hbad & _).
  split.
  - apply (Hok [1; 3; 6; 1; 4; 1; 8072]). repeat constructor.
  - apply Hbad. exists "six". split; [|reflexivity].
    vm_compute. do 2 right. left.
Defined.

(** ** Tables *)

Section Rows.

Variable env : environment.

Lemma int_index_table_constructed (py : Py.version) :
  snd (Table_init (int_index_env py) (new_agent "agent" None true false)
         "1.3.6.1.4.1.8072.2.2.1" [Integer32 0]
         [(2, OctetString "none", Some 1); (3, Integer32 0, None)]
         (Some 17) true EmptyString false)
  = Ok int_index_table.
Proof. destruct py; vm_compute; reflexivity. Qed.

Lemma find_row_Some (t : Table) (m : string) (rows : list table_row) (pos p : nat)
    (row : table_row) :
  find_row env t m rows pos = Ok (Some (p, row)) ->
  (pos <= p)%nat /\ rows !! (p - pos)%nat = Some row
  /\ _getIndices env t row = Ok (IdxStr m).
Proof.
  revert pos. induction rows as [|r rest IH]; intros pos; simpl; [discriminate|].
  destruct (_getIndices env t r) as [ri|e] eqn:Hri; simpl; [|discriminate].
  destruct (differs m ri) eqn:Hd.
  - intros H. destruct (IH _ H) as (Hle & Hl & Hr).
    split; [lia|]. split; [|exact Hr].
    replace (p - pos)%nat with (S (p - S pos)) by lia. exact Hl.
  - intros [= <- <-]. rewrite Nat.sub_diag. split; [lia|]. split; [reflexivity|].
    destruct ri as [|z|s]; simpl in Hd; try discriminate.
    apply negb_false_iff, String.eqb_eq in Hd. by subst.
Qed.

Lemma find_row_lt (t : Table) (m : string) (rows : list table_row) (p : nat)
    (row : table_row) :
  find_row env t m rows 0 = Ok (Some (p, row)) -> (p < length rows)%nat.
Proof.
  intros H. destruct (find_row_Some _ _ _ _ _ _ H) as (_ & Hl & _).
  rewrite Nat.sub_0_r in Hl. by eapply lookup_lt_Some.
Qed.

Lemma remove_char_absent (c : ascii) (s : string) :
  contains_char c s = false -> remove_char c s = s.
Proof.
  induction s as [|d s IH]; simpl; [reflexivity|].
  destruct (Ascii.eqb c d); simpl; [discriminate|]. intros H. by rewrite IH.
Qed.

Lemma split1_contains (c q : ascii) (s rest : string) :
  snd (split1 c s) = Some rest -> contains_char q s = false -> contains_char q rest = false.
Proof.
  induction s as [|d s IH]; simpl; [discriminate|].
  destruct (Ascii.eqb c d).
  - simpl. intros [= ->] H. apply orb_false_iff in H. tauto.
  - destruct (split1 c s) as [h tl]. simpl in *. intros Htl H.
    apply orb_false_iff in H. apply IH; tauto.
Qed.

(** A row whose rendering holds no double quote yields an integer from
    [_getIndices] whenever the text after the first dot is an integer
    literal; it can only yield a text that is none. *)
Lemma getIndices_text_not_literal (t : Table) (row : table_row) (m : string) :
  contains_char dquote (snprint_objid env (fulloid_of t row)) = false ->
  _getIndices env t row = Ok (IdxStr m) ->
  Py.int (python env) m = None.
Proof.
  unfold _getIndices, fulloid_of. intros Hq.
  destruct (snd (split1 dot _)) as [rest|] eqn:Hs; [|discriminate].
  destruct (Py.int (python env) rest) eqn:Hi; [discriminate|].
  intros [= <-]. rewrite remove_char_absent; [exact Hi|].
  eapply split1_contains; eauto.
Qed.

(** The row search compares a text with what [_getIndices] returns. If
    the text looked for is an integer literal, as it is for a single
    integer index, no row rendered without double quotes can match:
    [getRow] raises and [deleteRow] deletes nothing. *)
Lemma integer_literal_never_found (t : Table) (indices : pyarg) (m : string) (z : Z) :
  matchStr_of env indices = Ok m ->
  Py.int (python env) m = Some z ->
  (forall row, row ∈ table_rows t ->
               contains_char dquote (snprint_objid env (fulloid_of t row)) = false) ->
  fst (getRow env t indices) = t
  /\ raised (snd (getRow env t indices)) = true
  /\ fst (deleteRow env t indices) = t.
Proof.
  intros Hm Hz Hq.
  assert (Hfind : forall p row, find_row env t m (table_rows t) 0 <> Ok (Some (p, row))).
  { intros p row Hp. destruct (find_row_Some _ _ _ _ _ _ Hp) as (_ & Hl & Hr).
    apply list_elem_of_lookup_2 in Hl.
    rewrite (getIndices_text_not_literal _ _ _ (Hq _ Hl) Hr) in Hz. discriminate. }
  unfold getRow, deleteRow, _getOrAddRow, _getRow. rewrite Hm. simpl.
  destruct (find_row env t m (table_rows t) 0) as [[[p row]|]|e]; simpl; auto.
  all: exfalso; by eapply Hfind.
Qed.

Lemma counter_in_step_op (t : Table) (op : table_op) :
  counter_in_step t -> counter_in_step (apply_op env t op).
Proof.
  unfold counter_in_step. intros Hc. destruct op as [idxobjs | indices |]; simpl.
  - unfold addRow, _getOrAddRow.
    destruct (index_objects env idxobjs) as [idx|e]; simpl; [|exact Hc].
    unfold update_counter. simpl. rewrite Hc. simpl.
    rewrite length_app. simpl. f_equal. lia.
  - unfold deleteRow, _getRow.
    destruct (matchStr_of env indices) as [m|e]; simpl; [|exact Hc].
    destruct (find_row env t m (table_rows t) 0) as [[[p row]|]|e] eqn:Hf; simpl;
      try exact Hc.
    apply find_row_lt in Hf.
    unfold update_counter. simpl. rewrite Hc. simpl.
    rewrite length_delete by (by apply lookup_lt_is_Some). f_equal. lia.
  - unfold clear, update_counter. simpl. rewrite Hc. reflexivity.
Qed.

Lemma counter_in_step_ops (ops : list table_op) (t : Table) :
  counter_in_step t -> counter_in_step (foldl (apply_op env) t ops).
Proof.
  revert t. induction ops as [|op ops IH]; intros t Ht; simpl; [exact Ht|].
  apply IH. by apply counter_in_step_op.
Qed.

Lemma counter_after_clear (t : Table) (c : Z) :
  _counterobj t = Some c -> _counterobj (clear t) = Some 0 /\ table_rows (clear t) = [].
Proof. unfold clear, update_counter. simpl. intros ->. split; reflexivity. Qed.

(** C10. With an empty list as index argument, [getRow], [deleteRow] and
    [setRowColumn] all end in the [IndexError] of [indices[0]], whatever
    the table holds, and leave the table as it was: [deleteRow] is no
    silent no-op and [getRow] does not report a missing row. *)
Theorem empty_index_list_raises (t : Table) (colIdx : Z) (snmpobj : VarType) :
  getRow env t (PyList []) = (t, Raise IndexError)
  /\ deleteRow env t (PyList []) = (t, Raise IndexError)
  /\ setRowColumn env t (PyList []) colIdx snmpobj = (t, Raise IndexError)
  /\ snd (deleteRow env t (PyList [])) <> Ok tt
  /\ snd (getRow env t (PyList [])) <> Raise (netsnmpAgentException "Row not found!").
Proof. repeat split; discriminate. Qed.

(** What the two operations do for a row that is not there, for
    comparison. *)
Lemma missing_row_behaviour (t : Table) (indices : pyarg) :
  _getRow env t indices = Ok None ->
  getRow env t indices = (t, Raise (netsnmpAgentException "Row not found!"))
  /\ deleteRow env t indices = (t, Ok tt).
Proof. unfold getRow, deleteRow, _getOrAddRow. intros ->. split; reflexivity. Qed.

End Rows.

(** C1 (the code departs from the claim). On a table with one integer
    index column, after [addRow] of index 5 the row is stored and its
    indices come out of [_getIndices] as the integer 5; [_getRow] looks
    for the text "5", and a text never equals an integer, so [getRow]
    of the same index reports that the row is not found. [deleteRow]
    then finds nothing to delete and the row stays. *)
Theorem getRow_after_addRow_not_found :
  let env0 := int_index_env Python3 in
  let five := PyList [Var (Integer32 5)] in
  let t1 := fst (addRow env0 int_index_table five) in
  map (_getIndices env0 t1) (table_rows t1) = [Ok (IdxInt 5)]
  /\ matchStr_of env0 five = Ok "5"
  /\ getRow env0 t1 five = (t1, Raise (netsnmpAgentException "Row not found!"))
  /\ getRow env0 t1 (PyTuple [Var (Integer32 5)])
     = (t1, Raise (netsnmpAgentException "Row not found!"))
  /\ deleteRow env0 t1 five = (t1, Ok tt)
  /\ length (table_rows t1) = 1%nat.
Proof. vm_compute. repeat split. Qed.

(** C5 (the code departs from the claim). On a table with one integer
    index column and a counter, three [addRow] calls bring the counter to
    3; [deleteRow] of the second row's index then finds no row, deletes
    nothing and leaves the counter at 3, not 2. *)
Theorem counter_after_three_adds_one_delete :
  let env0 := int_index_env Python3 in
  let row i := AddRow (PyList [Var (Integer32 i)]) in
  let t3 := foldl (apply_op env0) int_index_table [row 1; row 2; row 3] in
  let t4 := apply_op env0 t3 (DeleteRow (PyList [Var (Integer32 2)])) in
  _counterobj t3 = Some 3
  /\ map (_getIndices env0 t3) (table_rows t3) = [Ok (IdxInt 1); Ok (IdxInt 2); Ok (IdxInt 3)]
  /\ t4 = t3
  /\ _counterobj t4 = Some 3
  /\ _counterobj (clear t4) = Some 0.
Proof. vm_compute. repeat split. Qed.

(** On a table with two integer index columns the indices render as a
    text with a dot, the search works, and the counter goes to 2. *)
Lemma counter_two_integer_indexes :
  let env0 := spec_env Python3 10 [ASN_INTEGER; ASN_INTEGER] in
  let row i := AddRow (PyList [Var (Integer32 1); Var (Integer32 i)]) in
  let t3 := foldl (apply_op env0) int_index_table [row 1; row 2; row 3] in
  let t4 := apply_op env0 t3 (DeleteRow (PyList [Var (Integer32 1); Var (Integer32 2)])) in
  _counterobj t3 = Some 3 /\ _counterobj t4 = Some 2 /\ length (table_rows t4) = 2%nat.
Proof. vm_compute. repeat split. Qed.

(** ** Traps *)

Lemma sent_call_snmp_add_var (env : environment) (st : trap_state) (oid : list Z)
    (ty : ascii) (val : string) :
  sent (fst (call_snmp_add_var env st oid ty val)) = sent st.
Proof. reflexivity. Qed.

Lemma sent_add (env : environment) (a : netsnmpAgent) (st : trap_state)
    (varOID varData : string) (varType : option string) :
  sent (fst (add env a st varOID varData varType)) = sent st.
Proof.
  unfold add. destruct (_humanToASNtype varType) as [ty|e]; [|reflexivity].
  destruct (_prepareOID env a varOID) as [varOid|e]; [|reflexivity].
  simpl. repeat case_match; reflexivity.
Qed.

(** C7, as stated, fails. The engine answers the call for a trap entry
    of type [integer] with the non-zero code 1; the core does not raise
    but calls the engine again for the same entry with type [=], and
    sends the trap once that call succeeds. *)
Lemma failed_entry_call_is_retried :
  let a := new_agent "agent" None true false in
  let kw := mkKwargs None None (Some "1.3.6.1.4")
              (Some [mkEntry (Some "1.3.6.1.5") (Some "12") (Some "integer")]) None None in
  let trapoid := ([1; 3; 6; 1; 6; 3; 1; 1; 4; 1; 0], "="%char, "1.3.6.1.4") in
  let entry := ([1; 3; 6; 1; 5], "="%char, "12") in
  send_trap no_integer_env a [] kw
  = (mkTrapState [trapoid; entry]
                 [trapoid; ([1; 3; 6; 1; 5], "i"%char, "12"); entry]
                 ["ZDBG: ret=1"]
                 [V2Trap [trapoid; entry]],
     Ok tt).
Proof. vm_compute. reflexivity. Qed.

(** When the repeated call fails as well, [send_trap] drops the result
    of [pdu.add] and sends the trap without the entry. *)
Lemma failed_entry_is_dropped :
  let a := new_agent "agent" None true false in
  let kw := mkKwargs None None (Some "1.3.6.1.4")
              (Some [mkEntry (Some "1.3.6.1.5") (Some "12") (Some "integer")]) None None in
  let trapoid := ([1; 3; 6; 1; 6; 3; 1; 1; 4; 1; 0], "="%char, "1.3.6.1.4") in
  send_trap rejecting_env a [] kw
  = (mkTrapState [trapoid]
                 [trapoid; ([1; 3; 6; 1; 5], "i"%char, "12"); ([1; 3; 6; 1; 5], "="%char, "12")]
                 ["ZDBG: ret=1"]
                 [V2Trap [trapoid]],
     Ok tt).
Proof. vm_compute. reflexivity. Qed.

(** C7, amended. Inside one [add], the engine is called once when the
    call succeeds or its type is [=]; a failed call with another type is
    repeated once with type [=], and [add] returns the result of the last
    call. A non-zero result for the trap OID, which is added with type
    [=], is therefore final after one call: [send_trap] raises at once
    and hands no trap to the engine. *)
Theorem trap_construction_results (env : environment) (a : netsnmpAgent) :
  (forall st varOID varData varType ty varOid,
      _humanToASNtype varType = Ok ty ->
      _prepareOID env a varOID = Ok varOid ->
      let r := add env a st varOID varData varType in
      let first := snmp_add_var env (variables st) varOid ty varData in
      (first = 0 \/ ty = "="%char ->
       snd r = Ok first
       /\ add_var_calls (fst r) = (add_var_calls st ++ [(varOid, ty, varData)])%list)
      /\ (first <> 0 -> ty <> "="%char ->
          snd r = Ok (snmp_add_var env (variables st) varOid "=" varData)
          /\ add_var_calls (fst r)
             = (add_var_calls st ++ [(varOid, ty, varData); (varOid, "="%char, varData)])%list))
  /\ (forall args kw c oid pdu0 r0 trapOid,
        kw_oid kw = Some (String c oid) ->
        add_uptime env a new_pdu kw = (pdu0, Ok r0) ->
        _prepareOID env a "SNMPv2-MIB::snmpTrapOID.0" = Ok trapOid ->
        snmp_add_var env (variables pdu0) trapOid "=" (String c oid) <> 0 ->
        send_trap env a args kw
        = (mkTrapState (variables pdu0)
                       (add_var_calls pdu0 ++ [(trapOid, "="%char, String c oid)])%list
                       (printed pdu0) (sent pdu0),
           Raise (netsnmpAgentException ("Failed to add " +:+ String c oid +:+ " as snmpTrapOID!")))
        /\ sent pdu0 = []).
Proof.
  split.
  - intros st varOID varData varType ty varOid Hty Hoid r first. subst r.
    unfold add. rewrite Hty, Hoid. unfold call_snmp_add_var. fold first. simpl.
    destruct (decide (first = 0)) as [H0 | H0]; simpl.
    + split; [auto | intros; contradiction].
    + destruct (Ascii.eqb ty "=") eqn:Heq; simpl.
      * apply Ascii.eqb_eq in Heq. split; [auto | intros; contradiction].
      * apply Ascii.eqb_neq in Heq. split; [intros [? | ?]; contradiction|].
        intros _ _. rewrite <- app_assoc. split; reflexivity.
  - intros args kw c oid pdu0 r0 trapOid Hkw Hup Hoid Hrc.
    split.
    + unfold send_trap. rewrite Hkw. simpl. rewrite Hup.
      unfold add. simpl. rewrite Hoid. unfold call_snmp_add_var.
      rewrite !decide_False by assumption. simpl.
      destruct (Z.eqb_spec (snmp_add_var env (variables pdu0) trapOid "=" (String c oid)) 0);
        [contradiction|].
      reflexivity.
    + unfold add_uptime in Hup. destruct (truthy_int (kw_uptime kw)).
      * pose proof (sent_add env a new_pdu "SNMPv2-MIB::sysUpTime.0"
                             (str_int (default 0 (kw_uptime kw))) (Some "t")) as Hs.
        rewrite Hup in Hs. exact Hs.
      * by injection Hup as <- _.
Qed.

Lemma trap_construction_results_witness :
  let env0 := with_snmp_add_var (fun _ _ _ _ => 2) (spec_env Python3 0 []) in
  let a := new_agent "agent" None true false in
  let kw := mkKwargs None None (Some "1.3.6.1.4") None None None in
  send_trap env0 a [] kw
  = (mkTrapState [] [([1; 3; 6; 1; 6; 3; 1; 1; 4; 1; 0], "="%char, "1.3.6.1.4")] [] [],
     Raise (netsnmpAgentException "Failed to add 1.3.6.1.4 as snmpTrapOID!")).
Proof.
  intros env0 a kw.
  destruct (trap_construction_results env0 a) as [_ Htrap].
  refine (proj1 (Htrap [] kw "1"%char ".3.6.1.4" new_pdu 0
                       [1; 3; 6; 1; 6; 3; 1; 1; 4; 1; 0] _ _ _ _)).
  - reflexivity.
  - reflexivity.
  - reflexivity.
  - discriminate.
Defined.

(** ** [str] and [int] on integers *)

Lemma lstrip_while_none (p : ascii -> bool) (s : string) :
  all_chars (fun c => negb (p c)) s = true -> lstrip_while p s = s.
Proof.
  destruct s as [|c s]; simpl; [reflexivity|].
  destruct (p c); simpl; [discriminate | reflexivity].
Qed.

Lemma rstrip_while_none (p : ascii -> bool) (s : string) :
  all_chars (fun c => negb (p c)) s = true -> rstrip_while p s = s.
Proof.
  induction s as [|c s IH]; simpl; [reflexivity|].
  intros [Hc Hs]%andb_true_iff. rewrite (IH Hs).
  destruct s; [|reflexivity]. by destruct (p c).
Qed.

Lemma strip_none (s : string) :
  all_chars (fun c => negb (is_space c)) s = true -> strip s = s.
Proof.
  intros H. unfold strip. rewrite lstrip_while_none by exact H.
  by apply rstrip_while_none.
Qed.

Lemma pretty_N_char_digit (r : N) :
  (r < 10)%N ->
  is_digit (pretty_N_char r) = true
  /\ is_space (pretty_N_char r) = false
  /\ digit_val (pretty_N_char r) = Z.of_N r.
Proof.
  intros Hr.
  assert (r = 0 \/ r = 1 \/ r = 2 \/ r = 3 \/ r = 4 \/ r = 5 \/ r = 6 \/ r = 7
          \/ r = 8 \/ r = 9)%N as Hcases by lia.
  repeat (destruct Hcases as [-> | Hcases]; [repeat split|]).
  subst r. repeat split.
Qed.

Lemma pretty_N_go_no_space (x : N) (s : string) :
  all_chars (fun c => negb (is_space c)) s = true ->
  all_chars (fun c => negb (is_space c)) (pretty_N_go x s) = true.
Proof.
  revert s. induction (N.lt_wf_0 x) as [x _ IH]; intros s Hs.
  destruct (decide (x = 0%N)) as [-> | Hx]; [by rewrite pretty_N_go_0|].
  rewrite pretty_N_go_step by lia. apply IH; [apply N.div_lt; lia|].
  simpl. rewrite Hs.
  destruct (pretty_N_char_digit (x mod 10)%N) as (_ & -> & _); [|reflexivity].
  apply N.mod_lt. discriminate.
Qed.

(** Reading back the digits that [pretty_N_go] writes in front of [s]. *)
Lemma digits_pretty_N_go (py : Py.version) (x : N) :
  (0 < x)%N ->
  exists k : Z, 0 <= k /\ forall s acc b,
    digits py acc b (pretty_N_go x s) = digits py (acc * 10 ^ k + Z.of_N x) true s.
Proof.
  induction (N.lt_wf_0 x) as [x _ IH]. intros Hx.
  destruct (pretty_N_char_digit (x mod 10)%N) as (Hd & _ & Hv);
    [apply N.mod_lt; discriminate|].
  pose proof (N.div_mod x 10 ltac:(discriminate)) as Hdm.
  destruct (decide (x / 10 = 0)%N) as [H0 | H0].
  - exists 1. split; [lia|]. intros s acc b.
    rewrite pretty_N_go_step, H0, pretty_N_go_0 by exact Hx. simpl.
    rewrite Hd, Hv. f_equal. lia.
  - destruct (IH (x / 10)%N) as (k & Hk & IHk);
      [apply N.div_lt; lia | by apply N.neq_0_lt_0 |].
    exists (k + 1). split; [lia|]. intros s acc b.
    rewrite pretty_N_go_step, IHk by exact Hx. simpl.
    rewrite Hd, Hv. f_equal. rewrite Z.pow_add_r by lia. lia.
Qed.

Lemma pretty_N_go_head (x : N) (s : string) :
  (0 < x)%N ->
  exists c rest, pretty_N_go x s = String c rest /\ is_digit c = true.
Proof.
  revert s. induction (N.lt_wf_0 x) as [x _ IH]; intros s Hx.
  rewrite pretty_N_go_step by exact Hx.
  destruct (decide (x / 10 = 0)%N) as [H0 | H0].
  - rewrite H0, pretty_N_go_0. eexists _, _. split; [reflexivity|].
    apply pretty_N_char_digit, N.mod_lt. discriminate.
  - apply IH; [apply N.div_lt; lia | by apply N.neq_0_lt_0].
Qed.

Lemma int_pretty_positive (py : Py.version) (p : positive) :
  digits py 0 false (pretty_N_go (Npos p) EmptyString) = Some (Zpos p).
Proof.
  destruct (digits_pretty_N_go py (Npos p)) as (k & _ & Hk); [reflexivity|].
  rewrite Hk. reflexivity.
Qed.

(** [int(str(z)) == z] for every integer, on both interpreter lines. *)
Lemma int_str_int (py : Py.version) (z : Z) : Py.int py (str_int z) = Some z.
Proof.
  unfold Py.int, str_int, pretty, pretty_Z. destruct z as [|p|p].
  - destruct py; reflexivity.
  - unfold pretty, pretty_positive, pretty, pretty_N. simpl.
    rewrite strip_none by (by apply pretty_N_go_no_space).
    destruct (pretty_N_go_head (Npos p) EmptyString) as (c & rest & Heq & Hc);
      [reflexivity|].
    pose proof (int_pretty_positive py p) as Hp. rewrite Heq in Hp |- *.
    destruct (Ascii.eqb_spec c "-") as [-> | _]; [discriminate|].
    destruct (Ascii.eqb_spec c "+") as [-> | _]; [discriminate|].
    exact Hp.
  - unfold pretty, pretty_positive, pretty, pretty_N. simpl.
    rewrite strip_none by (simpl; by apply pretty_N_go_no_space).
    simpl.
    change (EmptyString +:+ pretty_N_go (Npos p) EmptyString)
      with (pretty_N_go (Npos p) EmptyString).
    by rewrite int_pretty_positive.
Qed.

(** No single integer index is ever found again: for every integer [n],
    every engine that renders the rows of the table without double
    quotes, and whatever rows the table holds, [getRow] of the one-element
    list with [n] raises and [deleteRow] leaves the table alone. *)
Lemma integer_index_never_found (env : environment) (t : Table) (n : Z) :
  (forall row, row ∈ table_rows t ->
               contains_char dquote (snprint_objid env (fulloid_of t row)) = false) ->
  fst (getRow env t (PyList [Var (Integer32 n)])) = t
  /\ raised (snd (getRow env t (PyList [Var (Integer32 n)]))) = true
  /\ fst (deleteRow env t (PyList [Var (Integer32 n)])) = t.
Proof.
  intros Hq.
  apply (integer_literal_never_found env t _ (str_int n) n); auto using int_str_int.
Qed.

(** * Further properties *)

(** ** The patterns of the log callback *)

Lemma str_app_nil_r (s : string) : s +:+ EmptyString = s.
Proof. induction s as [|c s IH]; [reflexivity|]. change (String c (s +:+ EmptyString) = String c s). by rewrite IH. Qed.

Lemma str_app_assoc (s1 s2 s3 : string) : (s1 +:+ s2) +:+ s3 = s1 +:+ (s2 +:+ s3).
Proof.
  induction s1 as [|c s1 IH]; [reflexivity|].
  change (String c ((s1 +:+ s2) +:+ s3) = String c (s1 +:+ (s2 +:+ s3))). by rewrite IH.
Qed.

Lemma str_app_nil_l (s : string) : EmptyString +:+ s = s.
Proof. reflexivity. Qed.

Lemma str_app_cons (c : ascii) (s1 s2 : string) :
  String c s1 +:+ s2 = String c (s1 +:+ s2).
Proof. reflexivity. Qed.

Lemma str_app_eq_nil (s1 s2 : string) :
  s1 +:+ s2 = EmptyString -> s1 = EmptyString /\ s2 = EmptyString.
Proof. destruct s1; simpl; [auto | discriminate]. Qed.

Lemma matches_seq_inv (r1 r2 : regex) (s : string) :
  matches (Seq r1 r2) s ->
  exists s1 s2, s = s1 +:+ s2 /\ matches r1 s1 /\ matches r2 s2.
Proof. intros H. inversion H; subst. eauto. Qed.

Lemma matches_alt_inv (r1 r2 : regex) (s : string) :
  matches (Alt r1 r2) s -> matches r1 s \/ matches r2 s.
Proof. intros H. inversion H; subst; auto. Qed.

Lemma matches_chr_inv (c : ascii) (s : string) :
  matches (Chr c) s -> s = String c EmptyString.
Proof. intros H. by inversion H. Qed.

Lemma matches_dot_inv (s : string) :
  matches Dot s -> exists c, s = String c EmptyString /\ c <> newline.
Proof. intros H. inversion H; subst. eauto. Qed.

Lemma matches_eps_inv (s : string) : matches Eps s -> s = EmptyString.
Proof. intros H. by inversion H. Qed.

Lemma matches_void_inv (s : string) : matches Void s -> False.
Proof. intros H. inversion H. Qed.

Lemma nullable_matches (r : regex) : nullable r = true <-> matches r EmptyString.
Proof.
  induction r as [| c | | r1 IH1 r2 IH2 | r1 IH1 r2 IH2 | r IH |]; simpl.
  - split; [constructor | reflexivity].
  - split; [discriminate | intros H%matches_chr_inv; discriminate].
  - split; [discriminate | intros (c & H & _)%matches_dot_inv; discriminate].
  - rewrite andb_true_iff, IH1, IH2. split.
    + intros [H1 H2]. apply (MSeq _ _ EmptyString EmptyString); assumption.
    + intros (s1 & s2 & Heq & H1 & H2)%matches_seq_inv. symmetry in Heq.
      apply str_app_eq_nil in Heq as [-> ->]. auto.
  - rewrite orb_true_iff, IH1, IH2. split.
    + intros [H | H]; [by apply MAltL | by apply MAltR].
    + apply matches_alt_inv.
  - split; [constructor | reflexivity].
  - split; [discriminate | intros []%matches_void_inv].
Qed.

Lemma matches_star_cons (r : regex) (c : ascii) (s : string) :
  matches (Star r) (String c s) ->
  exists s1 s2, s = s1 +:+ s2 /\ matches r (String c s1) /\ matches (Star r) s2.
Proof.
  intros H. remember (Star r) as R eqn:HR. remember (String c s) as S eqn:HS.
  revert c s HS.
  induction H as [| | | | | | | r' t1 t2 H1 _ H2 IH2]; intros c0 s0 HS; try discriminate.
  injection HR as ->. destruct t1 as [|c1 t1];
    rewrite ?str_app_nil_l, ?str_app_cons in HS.
  - by apply IH2.
  - injection HS as Hc Hs. subst. exists t1, t2. auto.
Qed.

Lemma deriv_matches (c : ascii) (r : regex) (s : string) :
  matches (deriv c r) s <-> matches r (String c s).
Proof.
  revert s.
  induction r as [| d | | r1 IH1 r2 IH2 | r1 IH1 r2 IH2 | r IH |]; intros s; simpl.
  - split; [intros []%matches_void_inv | intros H%matches_eps_inv; discriminate].
  - destruct (Ascii.eqb_spec c d) as [-> | Hne].
    + split; [intros ->%matches_eps_inv; constructor|].
      intros [= ->]%matches_chr_inv. constructor.
    + split; [intros []%matches_void_inv | intros [= -> _]%matches_chr_inv; contradiction].
  - destruct (Ascii.eqb_spec c newline) as [-> | Hne].
    + split; [intros []%matches_void_inv|].
      intros (c & [= <- _] & Hc)%matches_dot_inv. contradiction.
    + split; [intros ->%matches_eps_inv; by constructor|].
      intros (c' & [= <- ->] & _)%matches_dot_inv. constructor.
  - assert (Hseq : matches (Seq (deriv c r1) r2) s
                   <-> exists s1 s2, s = s1 +:+ s2 /\ matches r1 (String c s1)
                                     /\ matches r2 s2).
    { split.
      - intros (s1 & s2 & -> & H1 & H2)%matches_seq_inv.
        exists s1, s2. rewrite <- IH1. auto.
      - intros (s1 & s2 & -> & H1 & H2). constructor; [by apply IH1 | assumption]. }
    assert (Hfull : matches (Seq r1 r2) (String c s)
                    <-> (exists s1 s2, s = s1 +:+ s2 /\ matches r1 (String c s1)
                                       /\ matches r2 s2)
                        \/ (matches r1 EmptyString /\ matches r2 (String c s))).
    { split.
      - intros (s1 & s2 & Heq & H1 & H2)%matches_seq_inv.
        destruct s1 as [|c1 s1]; rewrite ?str_app_nil_l, ?str_app_cons in Heq.
        + subst s2. auto.
        + injection Heq as <- ->. left. eauto.
      - intros [(s1 & s2 & -> & H1 & H2) | [H1 H2]].
        + apply (MSeq _ _ (String c s1) s2); assumption.
        + apply (MSeq _ _ EmptyString (String c s)); assumption. }
    rewrite Hfull. destruct (nullable r1) eqn:Hn.
    + apply nullable_matches in Hn. split.
      * intros [H | H]%matches_alt_inv; [left; by apply Hseq|].
        right. split; [assumption | by apply IH2].
      * intros [H | [_ H]]; [apply MAltL; by apply Hseq | apply MAltR; by apply IH2].
    + rewrite Hseq. split; [auto|].
      intros [H | [H _]]; [assumption|].
      apply nullable_matches in H. congruence.
  - split.
    + intros [H | H]%matches_alt_inv; [apply MAltL; by apply IH1 | apply MAltR; by apply IH2].
    + intros [H | H]%matches_alt_inv; [apply MAltL; by apply IH1 | apply MAltR; by apply IH2].
  - split.
    + intros (s1 & s2 & -> & H1 & H2)%matches_seq_inv.
      apply (MStarS _ (String c s1) s2); [by apply IH | assumption].
    + intros H. apply matches_star_cons in H as (s1 & s2 & -> & H1 & H2).
      constructor; [by apply IH | assumption].
  - split; intros []%matches_void_inv.
Qed.

(** [re.match] succeeds exactly when a prefix of the text is in the
    language of the pattern. *)
Lemma re_match_prefix (r : regex) (s : string) :
  re_match r s = true <-> exists pre suf, s = pre +:+ suf /\ matches r pre.
Proof.
  revert r. induction s as [|c s IH]; intros r; simpl.
  - rewrite orb_false_r, nullable_matches. split.
    + intros H. exists EmptyString, EmptyString. auto.
    + intros (pre & suf & Heq & H). symmetry in Heq.
      apply str_app_eq_nil in Heq as [-> _]. assumption.
  - rewrite orb_true_iff, nullable_matches, IH. split.
    + intros [H | (pre & suf & -> & H)].
      * exists EmptyString, (String c s). auto.
      * exists (String c pre), suf. split; [reflexivity | by apply deriv_matches].
    + intros (pre & suf & Heq & H).
      destruct pre as [|c1 pre]; rewrite ?str_app_nil_l, ?str_app_cons in Heq.
      * auto.
      * injection Heq as <- ->. right. exists pre, suf.
        split; [reflexivity | by apply deriv_matches].
Qed.

Lemma matches_lit (p s : string) : matches (lit p) s <-> s = p.
Proof.
  revert s. induction p as [|c p IH]; intros s; simpl.
  - split; [apply matches_eps_inv | intros ->; constructor].
  - split.
    + intros (s1 & s2 & -> & ->%matches_chr_inv & H2)%matches_seq_inv.
      rewrite str_app_cons, str_app_nil_l. f_equal. by apply IH.
    + intros ->. apply (MSeq _ _ (String c EmptyString) p); [constructor | by apply IH].
Qed.

Lemma matches_star_dot (s : string) :
  matches (Star Dot) s <-> contains_char newline s = false.
Proof.
  split.
  - intros H. remember (Star Dot) as R eqn:HR.
    induction H as [| | | | | | | r t1 t2 H1 _ H2 IH2]; try discriminate; [reflexivity|].
    injection HR as ->. apply matches_dot_inv in H1 as (c & -> & Hc).
    rewrite str_app_cons, str_app_nil_l.
    change (Ascii.eqb newline c || contains_char newline t2 = false).
    rewrite IH2 by reflexivity.
    destruct (Ascii.eqb_spec newline c); [congruence | reflexivity].
  - induction s as [|c s IH]; [constructor|].
    change (Ascii.eqb newline c || contains_char newline s = false
            -> matches (Star Dot) (String c s)).
    intros [Hc Hs]%orb_false_iff.
    apply (MStarS _ (String c EmptyString) s); [|by apply IH].
    constructor. intros ->. by rewrite Ascii.eqb_refl in Hc.
Qed.

(** What the three patterns of the log callback accept: a text that
    starts with [Failed to ], followed on the same line by
    [ the agentx master agent]; one that starts with
    [AgentX subagent connected]; one that starts with
    [AgentX master disconnected us]. Whatever follows is ignored. *)
Lemma log_patterns (s : string) :
  (re_match connect_failed_re s = true
   <-> exists m rest, s = "Failed to " +:+ m +:+ " the agentx master agent" +:+ rest
                      /\ contains_char newline m = false)
  /\ (re_match connected_re s = true
      <-> exists rest, s = "AgentX subagent connected" +:+ rest)
  /\ (re_match disconnected_re s = true
      <-> exists rest, s = "AgentX master disconnected us" +:+ rest).
Proof.
  split; [|split].
  - rewrite re_match_prefix. unfold connect_failed_re. split.
    + intros (pre & suf & -> & H).
      apply matches_seq_inv in H as (a & t1 & -> & ->%matches_lit & H).
      apply matches_seq_inv in H as (m & t2 & -> & Hm%matches_star_dot & H).
      apply matches_seq_inv in H as (b & t3 & -> & ->%matches_lit & _).
      exists m, (t3 +:+ suf). split; [|exact Hm].
      by rewrite !str_app_assoc.
    + intros (m & rest & -> & Hm).
      exists ("Failed to " +:+ m +:+ " the agentx master agent"), rest.
      split; [by rewrite !str_app_assoc|].
      constructor; [by apply matches_lit|].
      constructor; [by apply matches_star_dot|].
      rewrite <- (str_app_nil_r " the agentx master agent").
      constructor; [by apply matches_lit | constructor].
  - rewrite re_match_prefix. unfold connected_re. split.
    + intros (pre & suf & -> & ->%matches_lit). eauto.
    + intros (rest & ->). eexists _, rest. split; [reflexivity | by apply matches_lit].
  - rewrite re_match_prefix. unfold disconnected_re. split.
    + intros (pre & suf & -> & H).
      apply matches_seq_inv in H as (a & t & -> & ->%matches_lit & _).
      exists (t +:+ suf). by rewrite str_app_assoc.
    + intros (rest & ->). exists "AgentX master disconnected us", rest.
      split; [reflexivity|].
      rewrite <- (str_app_nil_r "AgentX master disconnected us").
      constructor; [by apply matches_lit | constructor].
Qed.

Lemma info_priority (p : log_priority) :
  String.eqb (priorities p) "Info" = bool_decide (p = LOG_INFO).
Proof. destruct p; reflexivity. Qed.

(** X1. How the log callback classifies a message, by priority and
    text. With [text] the message without trailing linefeeds and
    severity heading:
    - every [Warning], and an [Error] whose text starts with [Failed to ]
      followed on the same line by [ the agentx master agent], is taken
      for a connection failure: in [FIRSTCONNECT] the status becomes
      [CONNECTFAILED] and nothing reaches the sink, in any other status
      the status stays and the message is forwarded;
    - an [Info] whose text starts with [AgentX subagent connected] sets
      [CONNECTED], one whose text starts with
      [AgentX master disconnected us] sets [RECONNECTING], and both are
      forwarded;
    - every other message is forwarded and leaves the status alone; the
      same texts at other priorities change nothing.
    A forwarded message adds one line to the sink: the call of
    [LogHandler] with priority name and text, or the printed line
    [[priority] text]. *)
Theorem log_callback_classification (a : netsnmpAgent) (p : log_priority) (msg : string) :
  let text := msgtext_of msg in
  let a' := _py_log_handler a p msg in
  let line := if LogHandler a then ToLogHandler (priorities p) text
              else Printed ("[" +:+ priorities p +:+ "] " +:+ text) in
  let failure :=
    p = LOG_WARNING
    \/ (p = LOG_ERR
        /\ exists m rest, text = "Failed to " +:+ m +:+ " the agentx master agent" +:+ rest
                          /\ contains_char newline m = false) in
  let connected := p = LOG_INFO /\ exists rest, text = "AgentX subagent connected" +:+ rest in
  let disconnected :=
    p = LOG_INFO /\ exists rest, text = "AgentX master disconnected us" +:+ rest in
  (failure -> _status a = FIRSTCONNECT ->
   _status a' = CONNECTFAILED /\ sink a' = sink a)
  /\ (failure -> _status a <> FIRSTCONNECT ->
      _status a' = _status a /\ sink a' = (sink a ++ [line])%list)
  /\ (connected -> _status a' = CONNECTED /\ sink a' = (sink a ++ [line])%list)
  /\ (disconnected -> _status a' = RECONNECTING /\ sink a' = (sink a ++ [line])%list)
  /\ (~ failure -> ~ connected -> ~ disconnected ->
      _status a' = _status a /\ sink a' = (sink a ++ [line])%list).
Proof.
  intros text a' line failure connected disconnected.
  destruct (log_patterns text) as (Hf & Hc & Hd).
  assert (Hfb : failure_branch (priorities p) text = true <-> failure).
  { rewrite failure_branch_priorities. subst failure.
    rewrite orb_true_iff, andb_true_iff, !bool_decide_eq_true, Hf. reflexivity. }
  assert (Hcb : String.eqb (priorities p) "Info" && re_match connected_re text = true
                <-> connected).
  { rewrite info_priority. subst connected.
    rewrite andb_true_iff, bool_decide_eq_true, Hc. reflexivity. }
  assert (Hdb : String.eqb (priorities p) "Info" && re_match disconnected_re text = true
                <-> disconnected).
  { rewrite info_priority. subst disconnected.
    rewrite andb_true_iff, bool_decide_eq_true, Hd. reflexivity. }
  assert (Hexcl1 : failure -> connected -> False).
  { intros [-> | [-> _]] [Hp _]; discriminate. }
  assert (Hexcl2 : failure -> disconnected -> False).
  { intros [-> | [-> _]] [Hp _]; discriminate. }
  assert (Hexcl3 : connected -> disconnected -> False).
  { intros [_ [r1 E1]] [_ [r2 E2]]. rewrite E1 in E2.
    rewrite !str_app_cons in E2. discriminate. }
  subst a'. unfold _py_log_handler. fold text.
  destruct (failure_branch (priorities p) text) eqn:Efb.
  - assert (Hfail : failure) by (by apply Hfb).
    split; [|split; [|split; [|split]]].
    + intros _ Hs. rewrite decide_True by exact Hs. split; reflexivity.
    + intros _ Hs. rewrite decide_False by exact Hs.
      (rewrite status_forward, sink_forward; split; reflexivity).
    + intros Hcon. destruct (Hexcl1 Hfail Hcon).
    + intros Hdis. destruct (Hexcl2 Hfail Hdis).
    + intros Hn. destruct (Hn Hfail).
  - assert (Hnf : ~ failure) by (intros H; apply Hfb in H; discriminate).
    split; [intros H; destruct (Hnf H)|]. split; [intros H; destruct (Hnf H)|].
    destruct (String.eqb (priorities p) "Info" && re_match connected_re text) eqn:Ecb.
    + assert (Hcon : connected) by (by apply Hcb).
      split; [|split].
      * intros _. (rewrite status_forward, sink_forward; split; reflexivity).
      * intros Hdis. destruct (Hexcl3 Hcon Hdis).
      * intros _ Hn. destruct (Hn Hcon).
    + assert (Hnc : ~ connected) by (intros H; apply Hcb in H; discriminate).
      split; [intros H; destruct (Hnc H)|].
      destruct (String.eqb (priorities p) "Info" && re_match disconnected_re text) eqn:Edb.
      * assert (Hdis : disconnected) by (by apply Hdb).
        split; [intros _; (rewrite status_forward, sink_forward; split; reflexivity)|].
        intros _ _ Hn. destruct (Hn Hdis).
      * assert (Hnd : ~ disconnected) by (intros H; apply Hdb in H; discriminate).
        split; [intros H; destruct (Hnd H)|].
        intros _ _ _. (rewrite status_forward, sink_forward; split; reflexivity).
Qed.

(** ** The text of a log message *)

Lemma str_take_drop (n : nat) (s : string) : str_take n s +:+ str_drop n s = s.
Proof.
  revert s. induction n as [|n IH]; intros s; [reflexivity|].
  destruct s as [|c s]; [reflexivity|].
  change (String c (str_take n s +:+ str_drop n s) = String c s). by rewrite IH.
Qed.

Lemma longest_prefix_cons (r : regex) (c : ascii) (s : string) :
  longest_prefix r (String c s)
  = match longest_prefix (deriv c r) s with
    | Some n => Some (S n)
    | None => if nullable r then Some 0%nat else None
    end.
Proof. simpl. by destruct (longest_prefix (deriv c r) s). Qed.

Lemma longest_prefix_matches (r : regex) (s : string) (n : nat) :
  longest_prefix r s = Some n -> matches r (str_take n s).
Proof.
  revert r n. induction s as [|c s IH]; intros r n.
  - simpl. destruct (nullable r) eqn:Hn; [|discriminate].
    intros [= <-]. by apply nullable_matches.
  - rewrite longest_prefix_cons.
    destruct (longest_prefix (deriv c r) s) as [k|] eqn:Hk.
    + intros [= <-]. simpl. apply deriv_matches. by apply IH.
    + destruct (nullable r) eqn:Hn; [|discriminate].
      intros [= <-]. by apply nullable_matches.
Qed.

Lemma longest_prefix_longest (r : regex) (s pre suf : string) :
  s = pre +:+ suf -> matches r pre ->
  exists n, longest_prefix r s = Some n /\ (String.length pre <= n)%nat.
Proof.
  revert r pre. induction s as [|c s IH]; intros r pre Heq Hm.
  - symmetry in Heq. apply str_app_eq_nil in Heq as [-> ->].
    apply nullable_matches in Hm. simpl. rewrite Hm. eauto.
  - rewrite longest_prefix_cons. destruct pre as [|c1 pre].
    + apply nullable_matches in Hm. rewrite Hm.
      destruct (longest_prefix (deriv c r) s); simpl; eauto with lia.
    + rewrite str_app_cons in Heq. injection Heq as -> ->.
      apply deriv_matches in Hm.
      destruct (IH _ _ eq_refl Hm) as (k & -> & Hk). exists (S k). simpl. split; [done | lia].
Qed.

Lemma matches_blanks (s : string) :
  matches (Star (Chr " ")) s <-> exists k, s = blanks k.
Proof.
  split.
  - intros H. remember (Star (Chr " ")) as R eqn:HR.
    induction H as [| | | | | | | r t1 t2 H1 _ H2 IH2]; try discriminate.
    + by exists 0%nat.
    + injection HR as ->. apply matches_chr_inv in H1 as ->.
      destruct (IH2 eq_refl) as (k & ->). by exists (S k).
  - intros (k & ->). induction k as [|k IH]; [constructor|].
    apply (MStarS _ (String " " EmptyString) (blanks k)); [constructor | exact IH].
Qed.

Lemma matches_severity_prefix (pre : string) :
  matches severity_prefix_re pre
  <-> exists k, pre = "Warning:" +:+ blanks k \/ pre = "Error:" +:+ blanks k.
Proof.
  unfold severity_prefix_re. split.
  - intros (h & t & -> & Hh & Ht)%matches_seq_inv.
    apply matches_seq_inv in Ht as (c & b & -> & ->%matches_chr_inv & (k & ->)%matches_blanks).
    exists k. apply matches_alt_inv in Hh as [->%matches_lit | ->%matches_lit]; auto.
  - intros (k & [-> | ->]).
    + apply (MSeq _ _ "Warning" (":" +:+ blanks k)); [apply MAltL; by apply matches_lit|].
      apply (MSeq _ _ ":" (blanks k)); [constructor | apply matches_blanks; eauto].
    + apply (MSeq _ _ "Error" (":" +:+ blanks k)); [apply MAltR; by apply matches_lit|].
      apply (MSeq _ _ ":" (blanks k)); [constructor | apply matches_blanks; eauto].
Qed.

Lemma rstrip_while_last (p : ascii -> bool) (s : string) :
  last_satisfies p (rstrip_while p s) = false.
Proof.
  induction s as [|c s IH]; [reflexivity|]. simpl.
  destruct (rstrip_while p s) as [|d r] eqn:Hr.
  - destruct (p c) eqn:Hc; simpl; [reflexivity | exact Hc].
  - exact IH.
Qed.

Lemma last_satisfies_suffix (p : ascii -> bool) (pre s : string) :
  last_satisfies p (pre +:+ s) = false -> last_satisfies p s = false.
Proof.
  induction pre as [|c pre IH]; [auto|]. rewrite str_app_cons.
  destruct s as [|d s]; [reflexivity|].
  intros H. apply IH. destruct pre; exact H.
Qed.

Lemma blanks_app_eq (k k' : nat) (t t' : string) :
  blanks k' +:+ t' = blanks k +:+ t -> (k <= k')%nat ->
  (k' = k /\ t' = t) \/ exists t0, t = String " " t0.
Proof.
  revert k'. induction k as [|k IH]; intros k' Heq Hle.
  - destruct k' as [|k']; [left; auto|]. right. rewrite str_app_nil_l in Heq.
    subst t. simpl. eauto.
  - destruct k' as [|k']; [lia|]. simpl in Heq. rewrite !str_app_cons in Heq.
    injection Heq as Heq. destruct (IH k' Heq) as [[-> ->] | H]; [lia | auto | auto].
Qed.

Lemma length_blanks (k : nat) : String.length (blanks k) = k.
Proof. induction k as [|k IH]; simpl; [reflexivity | by rewrite IH]. Qed.

Lemma str_length_app (s1 s2 : string) :
  String.length (s1 +:+ s2) = (String.length s1 + String.length s2)%nat.
Proof.
  induction s1 as [|c s1 IH]; [reflexivity|].
  rewrite str_app_cons. simpl. by rewrite IH.
Qed.

Lemma str_drop_app (s1 s2 : string) : str_drop (String.length s1) (s1 +:+ s2) = s2.
Proof. induction s1 as [|c s1 IH]; [by destruct s2 | exact IH]. Qed.

Lemma str_take_app (s1 s2 : string) : str_take (String.length s1) (s1 +:+ s2) = s1.
Proof.
  induction s1 as [|c s1 IH]; [by destruct s2|].
  rewrite str_app_cons. simpl. by rewrite IH.
Qed.

Lemma length_str_take (n : nat) (s : string) :
  String.length (str_take n s) = (n `min` String.length s)%nat.
Proof.
  revert s. induction n as [|n IH]; intros s; [reflexivity|].
  destruct s as [|c s]; [reflexivity|]. simpl. by rewrite IH.
Qed.

(** Removing a heading: the whole run of blanks goes with it. *)
Lemma strip_heading (h t : string) (k : nat) :
  h = "Warning:" \/ h = "Error:" ->
  (forall t0, t <> String " " t0) ->
  re_sub_anchored severity_prefix_re (h +:+ blanks k +:+ t) = t.
Proof.
  intros Hh Ht. unfold re_sub_anchored.
  assert (Hm : matches severity_prefix_re (h +:+ blanks k)).
  { apply matches_severity_prefix. exists k. destruct Hh as [-> | ->]; auto. }
  destruct (longest_prefix_longest severity_prefix_re (h +:+ blanks k +:+ t)
              (h +:+ blanks k) t) as (n & Hn & Hlen);
    [by rewrite str_app_assoc | exact Hm |].
  rewrite Hn. pose proof (longest_prefix_matches _ _ _ Hn) as Hpre.
  apply matches_severity_prefix in Hpre as (k' & Hpre).
  pose proof (str_take_drop n (h +:+ blanks k +:+ t)) as Hsplit.
  assert (Hcase : str_take n (h +:+ blanks k +:+ t) = h +:+ blanks k').
  { destruct Hh as [-> | ->], Hpre as [Hp | Hp]; rewrite Hp in Hsplit |- *;
      try reflexivity; discriminate. }
  rewrite Hcase, str_app_assoc in Hsplit.
  assert (Hlen' : (k <= k')%nat).
  { pose proof (length_str_take n (h +:+ blanks k +:+ t)) as Hle.
    rewrite Hcase in Hle. rewrite !str_length_app, !length_blanks in *. lia. }
  apply String.app_inj in Hsplit.
  apply blanks_app_eq in Hsplit as [[_ ->] | (t0 & Ht0)]; [reflexivity | | exact Hlen'].
  by destruct (Ht t0).
Qed.

(** X2. The text the log callback classifies and forwards: the message
    without its trailing linefeeds and, when it starts with [Warning:] or
    [Error:], without that heading and all the blanks after it (one
    heading only); a message without such a heading keeps its text. The
    result never ends in a linefeed. *)
Theorem msgtext_of_spec (msg : string) :
  last_satisfies (Ascii.eqb newline) (msgtext_of msg) = false
  /\ (forall h k t, h = "Warning:" \/ h = "Error:" ->
                    rstrip_newlines msg = h +:+ blanks k +:+ t ->
                    (forall t0, t <> String " " t0) ->
                    msgtext_of msg = t)
  /\ ((forall rest, rstrip_newlines msg <> "Warning:" +:+ rest
                    /\ rstrip_newlines msg <> "Error:" +:+ rest) ->
      msgtext_of msg = rstrip_newlines msg).
Proof.
  unfold msgtext_of. split; [|split].
  - unfold re_sub_anchored.
    pose proof (rstrip_while_last (Ascii.eqb newline) msg) as Hlast.
    fold (rstrip_newlines msg) in Hlast.
    destruct (longest_prefix severity_prefix_re (rstrip_newlines msg)) as [n|]; [|exact Hlast].
    rewrite <- (str_take_drop n (rstrip_newlines msg)) in Hlast.
    by eapply last_satisfies_suffix.
  - intros h k t Hh -> Ht. by apply strip_heading.
  - intros Hno. unfold re_sub_anchored.
    destruct (longest_prefix severity_prefix_re (rstrip_newlines msg)) as [n|] eqn:Hn;
      [|reflexivity].
    exfalso. pose proof (longest_prefix_matches _ _ _ Hn) as Hpre.
    apply matches_severity_prefix in Hpre as (k & Hpre).
    pose proof (str_take_drop n (rstrip_newlines msg)) as Hsplit.
    destruct Hpre as [Hp | Hp]; rewrite Hp, str_app_assoc in Hsplit;
      symmetry in Hsplit; by apply Hno in Hsplit.
Qed.

Lemma msgtext_of_spec_witness :
  msgtext_of ("Warning:   Failed to connect" +:+ String newline (String newline EmptyString))
  = "Failed to connect".
Proof.
  refine (proj1 (proj2 (msgtext_of_spec _)) "Warning:" 3%nat "Failed to connect" _ _ _).
  - left. reflexivity.
  - vm_compute. reflexivity.
  - intros t0. discriminate.
Defined.

(** ** The state machine over whole runs *)

Lemma status_deliver_not_registration (env : environment) (a : netsnmpAgent) (cb : callback) :
  _status a <> REGISTRATION -> _status (deliver env a cb) <> REGISTRATION.
Proof.
  intros Ha. destruct cb as [p msg | minorID]; simpl.
  - unfold _py_log_handler.
    repeat case_match; rewrite ?status_forward; simpl; auto; discriminate.
  - unfold _py_index_stop_callback. case_decide; simpl; auto; discriminate.
Qed.

Lemma status_foldl_not_registration (env : environment) (cbs : list callback)
    (a : netsnmpAgent) :
  _status a <> REGISTRATION -> _status (foldl (deliver env) a cbs) <> REGISTRATION.
Proof.
  revert a. induction cbs as [|cb cbs IH]; intros a Ha; simpl; [exact Ha|].
  by apply IH, status_deliver_not_registration.
Qed.

Lemma status_start_not_registration (env : environment) (a : netsnmpAgent)
    (cbs : list callback) :
  _status (fst (start env a cbs)) <> REGISTRATION.
Proof.
  unfold start.
  destruct (decide (_status a = CONNECTED)) as [Hc | Hc]; [rewrite Hc; simpl; congruence|].
  destruct (decide (_status a = RECONNECTING)) as [Hr | Hr]; [rewrite Hr; simpl; congruence|].
  rewrite (bool_decide_eq_false_2 _ Hc), (bool_decide_eq_false_2 _ Hr). simpl.
  assert (_status (init_snmp env (set_status FIRSTCONNECT a) cbs) <> REGISTRATION) as Hs.
  { unfold init_snmp. apply status_foldl_not_registration. discriminate. }
  case_decide; exact Hs.
Qed.

Lemma status_run_not_registration (env : environment) (acts : list action)
    (a : netsnmpAgent) :
  _status a <> REGISTRATION -> _status (fst (run env a acts)) <> REGISTRATION.
Proof.
  revert a. induction acts as [|[cbs | cb] acts IH]; intros a Ha; simpl; [exact Ha | |].
  - pose proof (status_start_not_registration env a cbs) as Hs.
    destruct (start env a cbs) as [a1 r]. specialize (IH a1 Hs).
    destruct (run env a1 acts). exact IH.
  - by apply IH, status_deliver_not_registration.
Qed.

(** X3. Registration never reopens. [start()] always leaves a status
    other than [REGISTRATION], whether it raises or not, and no later
    callback or [start()] brings [REGISTRATION] back: from the first
    [start()] on, every attempt to register a scalar raises the
    registration-after-start exception and every attempt to register a
    table raises, and the agent is left as it was. *)
Theorem registration_closed_by_start (env : environment) (a : netsnmpAgent)
    (cbs : list callback) (acts : list action) :
  let a' := fst (run env (fst (start env a cbs)) acts) in
  _status a' <> REGISTRATION
  /\ (forall cls_inst c oidstr writable context callback,
        _cls_wrapper env a' cls_inst (Some (String c oidstr)) writable context callback
        = (a', Raise (netsnmpAgentException registration_after_start_msg)))
  /\ (forall oidstr idxobjs coldefs counterobj extendable context callback,
        let r := Table_init env a' oidstr idxobjs coldefs counterobj extendable
                            context callback in
        fst r = a' /\ raised (snd r) = true).
Proof.
  intros a'.
  assert (Hs : _status a' <> REGISTRATION).
  { apply status_run_not_registration, status_start_not_registration. }
  assert (Hprep : forall oidstr w, _prepareRegistration env a' oidstr w
                    = Raise (netsnmpAgentException registration_after_start_msg)).
  { intros. unfold _prepareRegistration. by rewrite (bool_decide_eq_false_2 _ Hs). }
  split; [exact Hs|]. split.
  - intros. unfold _cls_wrapper. by rewrite Hprep.
  - intros. subst r. unfold Table_init. rewrite Hprep.
    destruct (add_default_rows env [] coldefs); simpl; auto.
Qed.

Lemma sink_deliver (env : environment) (a : netsnmpAgent) (cb : callback) :
  exists lines, sink (deliver env a cb) = (sink a ++ lines)%list /\ (length lines <= 1)%nat.
Proof.
  destruct cb as [p msg | minorID]; simpl.
  - unfold _py_log_handler.
    repeat case_match; rewrite ?sink_forward; simpl;
      try (eexists [_]; split; [reflexivity | simpl; lia]).
    exists []. rewrite app_nil_r. split; [reflexivity | simpl; lia].
  - unfold _py_index_stop_callback. exists []. rewrite app_nil_r.
    case_decide; split; try reflexivity; simpl; lia.
Qed.

(** X4. Callbacks only ever touch the status and the sink. Whatever
    callbacks net-snmp delivers, in whatever number, the registry, the
    configuration and the count of [init_snmp] calls stay as they were,
    and the sink keeps every earlier line and gains at most one line per
    callback. *)
Theorem callbacks_keep_registry_and_extend_sink (env : environment) (a : netsnmpAgent)
    (cbs : list callback) :
  let a' := foldl (deliver env) a cbs in
  _objs a' = _objs a
  /\ AgentName a' = AgentName a /\ MasterSocket a' = MasterSocket a
  /\ UseMIBFiles a' = UseMIBFiles a /\ LogHandler a' = LogHandler a
  /\ init_snmp_calls a' = init_snmp_calls a
  /\ exists lines, sink a' = (sink a ++ lines)%list /\ (length lines <= length cbs)%nat.
Proof.
  intros a'. subst a'.
  pose proof (same_config_foldl env cbs a) as (Hn & Hm & Hu & Hl & Ho & Hi).
  repeat (split; [assumption|]). clear.
  revert a. induction cbs as [|cb cbs IH]; intros a; simpl.
  - exists []. by rewrite app_nil_r.
  - destruct (IH (deliver env a cb)) as (lines & -> & Hlen).
    destruct (sink_deliver env a cb) as (l1 & -> & Hl1).
    exists (l1 ++ lines)%list. rewrite length_app. split; [by rewrite app_assoc | lia].
Qed.

(** ** The registry *)

Lemma lookup_obj_store_obj (context oidstr c o : string) (obj : snmpobj) (a : netsnmpAgent) :
  lookup_obj (store_obj context oidstr obj a) c o
  = if decide (c = context /\ o = oidstr) then Some obj else lookup_obj a c o.
Proof.
  unfold lookup_obj, store_obj, defaultdict_getitem.
  destruct (_objs a !! context) as [d|] eqn:Hd; simpl.
  - destruct (decide (c = context)) as [-> | Hc].
    + rewrite lookup_insert_eq, Hd.
      destruct (decide (o = oidstr)) as [-> | Ho].
      * rewrite lookup_insert_eq. by rewrite decide_True.
      * rewrite lookup_insert_ne by done. rewrite decide_False by tauto. reflexivity.
    + rewrite lookup_insert_ne by done. rewrite decide_False by tauto. reflexivity.
  - destruct (decide (c = context)) as [-> | Hc].
    + rewrite lookup_insert_eq, Hd.
      destruct (decide (o = oidstr)) as [-> | Ho].
      * rewrite lookup_insert_eq. by rewrite decide_True.
      * rewrite lookup_insert_ne by done. rewrite decide_False by tauto. apply lookup_empty.
    + rewrite !lookup_insert_ne by done. rewrite decide_False by tauto. reflexivity.
Qed.

Lemma store_obj_keeps (context oidstr : string) (obj : snmpobj) (a : netsnmpAgent) :
  _status (store_obj context oidstr obj a) = _status a
  /\ sink (store_obj context oidstr obj a) = sink a
  /\ init_snmp_calls (store_obj context oidstr obj a) = init_snmp_calls a.
Proof. unfold store_obj. destruct (defaultdict_getitem _ _). repeat split. Qed.


(** X6. Registering a scalar, then looking it up. In [REGISTRATION],
    with an OID text that resolves and an engine that accepts the calls,
    the wrapper returns the variable and stores it under its context and
    OID text: that entry now holds the variable (replacing what was there:
    the last registration wins), every other entry is as before, the
    context is listed by [getContexts], and the status is still
    [REGISTRATION]. *)
Theorem scalar_registration_stores (env : environment) (a : netsnmpAgent)
    (cls_inst : VarType) (c : ascii) (rest : string) (writable : bool) (context : string)
    (callback : bool) (oid : list Z) :
  let oidstr := String c rest in
  let reginfo := mkReginfo oid writable context in
  _status a = REGISTRATION ->
  _prepareOID env a oidstr = Ok oid ->
  netsnmp_register_watched_scalar env reginfo cls_inst = 0 ->
  (callback = true -> netsnmp_inject_handler env reginfo = SNMPERR_SUCCESS) ->
  let r := _cls_wrapper env a cls_inst (Some oidstr) writable context callback in
  snd r = Ok cls_inst
  /\ lookup_obj (fst r) context oidstr = Some (ScalarObj cls_inst)
  /\ (forall c' o', (c' = context /\ o' = oidstr) \/ lookup_obj (fst r) c' o' = lookup_obj a c' o')
  /\ getContexts (fst r) = {[context]} ∪ getContexts a
  /\ _status (fst r) = REGISTRATION.
Proof.
  intros oidstr reginfo Hs Hoid Hreg Hinj r. subst r reginfo.
  assert (Hcb : (if callback
                 then _inject_custom_handler env (mkReginfo oid writable context)
                 else Ok tt) = Ok tt).
  { destruct callback; [|reflexivity]. unfold _inject_custom_handler.
    by rewrite decide_True by auto. }
  unfold _cls_wrapper, _prepareRegistration, set_contextName. rewrite Hs, Hoid. simpl.
  rewrite decide_True by exact Hreg. rewrite Hcb.
  simpl. split; [reflexivity|]. split; [|split; [|split]].
  - rewrite lookup_obj_store_obj. by rewrite decide_True.
  - intros c' o'. rewrite lookup_obj_store_obj. case_decide; auto.
  - apply getContexts_store_obj.
  - destruct (store_obj_keeps context oidstr (ScalarObj cls_inst) a) as (-> & _). exact Hs.
Qed.

Lemma scalar_registration_stores_witness :
  let env0 := spec_env Python3 0 [] in
  let a := new_agent "agent" None true false in
  let r := _cls_wrapper env0 a (Integer32 7) (Some "1.3.6.1.4.1.8072.2.1.1.0") true
                        "ctx" false in
  snd r = Ok (Integer32 7)
  /\ lookup_obj (fst r) "ctx" "1.3.6.1.4.1.8072.2.1.1.0" = Some (ScalarObj (Integer32 7)).
Proof.
  intros env0 a r.
  destruct (scalar_registration_stores env0 a (Integer32 7) "1" ".3.6.1.4.1.8072.2.1.1.0"
              true "ctx" false [1; 3; 6; 1; 4; 1; 8072; 2; 1; 1; 0]
              eq_refl eq_refl eq_refl ltac:(discriminate))
    as (H1 & H2 & _).
  split; [exact H1 | exact H2].
Defined.

(** X7. Registering a table. In [REGISTRATION], with an OID text that
    resolves and an engine that accepts the columns and the registration,
    the constructor returns a table without rows, with its columns in the
    order and under the numbers given, registered at the resolved OID,
    with the counter (when one was given) reset to 0; and the table is
    in the registry under its context and OID text. *)
Theorem table_registration_result (env : environment) (a : netsnmpAgent)
    (oidstr : string) (idxobjs : list VarType) (coldefs : list (Z * VarType * option Z))
    (counterobj : option Z) (extendable : bool) (context : string) (callback : bool)
    (cols : list storage) (oid : list Z) :
  let reginfo := mkReginfo oid extendable context in
  _status a = REGISTRATION ->
  add_default_rows env [] coldefs = Ok cols ->
  _prepareOID env a oidstr = Ok oid ->
  (callback = true -> netsnmp_inject_handler env reginfo = SNMPERR_SUCCESS) ->
  netsnmp_register_table_data_set env reginfo = SNMP_ERR_NOERROR ->
  exists t,
    Table_init env a oidstr idxobjs coldefs counterobj extendable context callback
    = (store_obj context oidstr (TableObj t) a, Ok t)
    /\ table_rows t = []
    /\ map column (default_row t) = map (fun cd => fst (fst cd)) coldefs
    /\ rootoid (_handler_reginfo t) = oid
    /\ _counterobj t = option_map (fun _ => 0) counterobj
    /\ lookup_obj (store_obj context oidstr (TableObj t) a) context oidstr = Some (TableObj t).
Proof.
  intros reginfo Hs Hcols Hoid Hinj Hreg. subst reginfo.
  assert (Hcb : (if callback
                 then _inject_custom_handler env (mkReginfo oid extendable context)
                 else Ok tt) = Ok tt).
  { destruct callback; [|reflexivity]. unfold _inject_custom_handler.
    by rewrite decide_True by auto. }
  unfold Table_init, _prepareRegistration, set_contextName. rewrite Hcols, Hs, Hoid. simpl.
  rewrite Hcb, decide_True by exact Hreg.
  eexists. split; [reflexivity|]. simpl. repeat split.
  - assert (Hgen : forall cds acc res,
               add_default_rows env acc cds = Ok res ->
               map column res = (map column acc ++ map (fun cd => fst (fst cd)) cds)%list).
    { clear. induction cds as [|[[colno defobj] w] cds IH]; intros acc res; simpl.
      - intros [= <-]. by rewrite app_nil_r.
      - case_decide; [|discriminate]. intros Hres. rewrite (IH _ _ Hres).
        rewrite map_app. simpl. by rewrite <- app_assoc. }
    apply (Hgen coldefs [] cols Hcols).
  - rewrite lookup_obj_store_obj. by rewrite decide_True.
Qed.

Lemma table_registration_result_witness :
  exists t,
    Table_init (int_index_env Python3) (new_agent "agent" None true false)
      "1.3.6.1.4.1.8072.2.2.1" [Integer32 0]
      [(2, OctetString "none", Some 1); (3, Integer32 0, None)]
      (Some 17) true EmptyString false
    = (store_obj EmptyString "1.3.6.1.4.1.8072.2.2.1" (TableObj t)
                 (new_agent "agent" None true false), Ok t)
    /\ map column (default_row t) = [2; 3]
    /\ _counterobj t = Some 0.
Proof.
  destruct (table_registration_result (int_index_env Python3)
              (new_agent "agent" None true false) "1.3.6.1.4.1.8072.2.2.1" [Integer32 0]
              [(2, OctetString "none", Some 1); (3, Integer32 0, None)]
              (Some 17) true EmptyString false
              [mkStorage 2 ASN_OCTET_STR 1 (Some (CBytes "none"));
               mkStorage 3 ASN_INTEGER 0 (Some (CInt 0))]
              [1; 3; 6; 1; 4; 1; 8072; 2; 2; 1]
              eq_refl eq_refl eq_refl ltac:(discriminate) eq_refl)
    as (t & Heq & _ & Hcols & _ & Hc & _).
  exists t. split; [exact Heq|]. split; [exact Hcols | exact Hc].
Defined.

Lemma mapM_Ok {A B} (f : A -> result B) (l : list A) (l' : list B) :
  mapM f l = Ok l' -> Forall2 (fun x y => f x = Ok y) l l'.
Proof.
  revert l'. induction l as [|x l IH]; intros l'; simpl.
  - intros [= <-]. constructor.
  - destruct (f x) as [y|e] eqn:Hx; simpl; [|discriminate].
    destruct (mapM f l) as [ys|e]; simpl; [|discriminate].
    intros [= <-]. constructor; [exact Hx | by apply IH].
Qed.

Lemma mapM_all_Ok {A B} (f : A -> result B) (l : list A) :
  (forall x, x ∈ l -> exists y, f x = Ok y) -> exists l', mapM f l = Ok l'.
Proof.
  induction l as [|x l IH]; intros Hall; simpl; [eauto|].
  destruct (Hall x) as (y & ->); [left|]. simpl.
  destruct IH as (ys & ->); [intros; apply Hall; by right|]. simpl. eauto.
Qed.

(** The entry [getRegistered] builds for one registered object. *)
Lemma listing_entries (env : environment) (l : list (string * snmpobj))
    (l' : list (string * (string * objvalue))) :
  Forall2 (fun x y =>
             (let '(oidstr, o) := x in
              bind (snmpobj_value env o) (fun v => Ok (oidstr, (type_name o, v)))) = Ok y)
          l l' ->
  l'.*1 = l.*1
  /\ forall k o, (k, o) ∈ l ->
                 exists v, snmpobj_value env o = Ok v /\ (k, (type_name o, v)) ∈ l'.
Proof.
  induction 1 as [|[k o] y l l' Hy _ [IH1 IH2]].
  - split; [reflexivity|]. intros k o Hin. inversion Hin.
  - destruct (snmpobj_value env o) as [v|e] eqn:Hv; simpl in Hy; [|discriminate].
    injection Hy as <-. split; [rewrite !fmap_cons; by f_equal|].
    intros k' o' Hin. apply elem_of_cons in Hin as [[= -> ->] | Hin].
    + exists v. split; [exact Hv | left].
    + destruct (IH2 _ _ Hin) as (v' & Hv' & Hin'). exists v'. split; [exact Hv' | by right].
Qed.

(** X8. What [getRegistered] lists. When it returns, the dictionary
    has exactly the OID texts registered under the context: each maps to
    the class name of its object ([Table] for a table) and the object's
    [value()]; nothing else is listed. If only scalars are registered
    under the context, it always returns. *)
Theorem getRegistered_lists_the_context (env : environment) (a : netsnmpAgent)
    (context : string) :
  (forall res, snd (getRegistered env a context) = Ok res ->
     forall oidstr,
       match lookup_obj a context oidstr with
       | Some o => exists v, snmpobj_value env o = Ok v
                             /\ res !! oidstr = Some (type_name o, v)
       | None => res !! oidstr = None
       end)
  /\ ((forall oidstr o, lookup_obj a context oidstr = Some o -> exists v, o = ScalarObj v) ->
      exists res, snd (getRegistered env a context) = Ok res).
Proof.
  assert (Hd : exists objs d, defaultdict_getitem (_objs a) context = (objs, d)
                              /\ forall oidstr, lookup_obj a context oidstr = d !! oidstr).
  { unfold defaultdict_getitem, lookup_obj.
    destruct (_objs a !! context) as [d|]; eexists _, _; (split; [reflexivity|]);
      intros; rewrite ?lookup_empty; reflexivity. }
  destruct Hd as (objs & d & Hget & Hlook).
  unfold getRegistered. rewrite Hget. simpl. split.
  - intros res Hres oidstr. rewrite Hlook.
    destruct (mapM _ (map_to_list d)) as [l'|e] eqn:Hm; simpl in Hres; [|discriminate].
    injection Hres as <-. apply mapM_Ok, listing_entries in Hm as [Hkeys Hent].
    assert (Hnd : NoDup (l'.*1)) by (rewrite Hkeys; apply NoDup_fst_map_to_list).
    destruct (d !! oidstr) as [o|] eqn:Ho.
    + apply elem_of_map_to_list in Ho. destruct (Hent _ _ Ho) as (v & Hv & Hin).
      exists v. split; [exact Hv|]. by apply elem_of_list_to_map_1.
    + apply not_elem_of_list_to_map_1. rewrite Hkeys. intros Hin.
      apply list_elem_of_fmap in Hin as ([k o] & -> & Hin). simpl in Ho.
      apply elem_of_map_to_list in Hin. congruence.
  - intros Hscalar.
    destruct (mapM_all_Ok
                (fun '(oidstr, o) =>
                   bind (snmpobj_value env o) (fun v => Ok (oidstr, (type_name o, v))))
                (map_to_list d)) as (l' & ->); [|simpl; eauto].
    intros [k o] Hin. apply elem_of_map_to_list in Hin. rewrite <- Hlook in Hin.
    destruct (Hscalar _ _ Hin) as (v & ->). simpl. eauto.
Qed.

(** X9. What [getRegistered] does to the registry. It never adds,
    removes or replaces a registered object and never touches the status;
    for a context that exists the agent is returned unchanged, and for one
    that does not, the only change is that the context now exists, with
    nothing registered under it. *)
Theorem getRegistered_keeps_objects (env : environment) (a : netsnmpAgent)
    (context : string) :
  let a' := fst (getRegistered env a context) in
  (forall c o, lookup_obj a' c o = lookup_obj a c o)
  /\ _status a' = _status a
  /\ (is_Some (_objs a !! context) -> a' = a)
  /\ (_objs a !! context = None -> _objs a' = <[context := ∅]> (_objs a))
  /\ getContexts a' = {[context]} ∪ getContexts a.
Proof.
  intros a'. split; [|split; [|split; [|split]]].
  - intros c o. subst a'. unfold getRegistered, defaultdict_getitem, lookup_obj.
    destruct (_objs a !! context) as [d|] eqn:Hd; simpl; [reflexivity|].
    destruct (decide (c = context)) as [-> | Hc].
    + rewrite lookup_insert_eq, Hd. apply lookup_empty.
    + by rewrite lookup_insert_ne.
  - subst a'. unfold getRegistered. by destruct (defaultdict_getitem _ _).
  - intros [d Hd]. subst a'. unfold getRegistered, defaultdict_getitem. rewrite Hd.
    simpl. by destruct a.
  - intros Hd. subst a'. unfold getRegistered, defaultdict_getitem. rewrite Hd. reflexivity.
  - apply getContexts_getRegistered.
Qed.

(** ** Dotted OID texts *)

Lemma all_chars_impl (p q : ascii -> bool) (s : string) :
  (forall c, p c = true -> q c = true) -> all_chars p s = true -> all_chars q s = true.
Proof.
  intros Hpq. induction s as [|c s IH]; simpl; [reflexivity|].
  intros [Hc Hs]%andb_true_iff. by rewrite (Hpq _ Hc), IH.
Qed.

Lemma pretty_N_go_digits (x : N) (s : string) :
  all_chars is_digit s = true -> all_chars is_digit (pretty_N_go x s) = true.
Proof.
  revert s. induction (N.lt_wf_0 x) as [x _ IH]; intros s Hs.
  destruct (decide (x = 0%N)) as [-> | Hx]; [by rewrite pretty_N_go_0|].
  rewrite pretty_N_go_step by lia. apply IH; [apply N.div_lt; lia|].
  simpl. rewrite Hs.
  destruct (pretty_N_char_digit (x mod 10)%N) as (-> & _); [|reflexivity].
  apply N.mod_lt. discriminate.
Qed.

Lemma contains_char_all (c : ascii) (s : string) :
  all_chars (fun d => negb (Ascii.eqb c d)) s = true -> contains_char c s = false.
Proof.
  induction s as [|d s IH]; simpl; [reflexivity|].
  intros [Hd Hs]%andb_true_iff. rewrite (IH Hs).
  apply negb_true_iff in Hd. by rewrite Hd.
Qed.

Lemma str_int_no_dot (z : Z) : contains_char dot (str_int z) = false.
Proof.
  assert (Hdigit : forall c, is_digit c = true -> negb (Ascii.eqb dot c) = true).
  { intros c Hc. destruct (Ascii.eqb_spec dot c) as [<- | _]; [discriminate | reflexivity]. }
  assert (Hpos : forall p, contains_char dot (pretty_N_go (Npos p) EmptyString) = false).
  { intros p. apply contains_char_all, (all_chars_impl is_digit); [exact Hdigit|].
    by apply pretty_N_go_digits. }
  unfold str_int, pretty, pretty_Z. destruct z as [|p|p]; [reflexivity | apply Hpos |].
  unfold pretty, pretty_positive, pretty, pretty_N. simpl.
  change (contains_char dot (String "-" (pretty_N_go (Npos p) EmptyString)) = false).
  simpl. apply Hpos.
Qed.

Lemma split_no_sep (c : ascii) (s : string) :
  contains_char c s = false -> split c s = [s].
Proof.
  induction s as [|d s IH]; simpl; [reflexivity|].
  intros [Hd Hs]%orb_false_iff. by rewrite (IH Hs), Hd.
Qed.

Lemma split_app_sep (c : ascii) (x s : string) :
  contains_char c x = false -> split c (x +:+ String c s) = x :: split c s.
Proof.
  induction x as [|d x IH].
  - intros _. rewrite str_app_nil_l. simpl.
    destruct (split_cons c s) as (f & fs & ->). by rewrite Ascii.eqb_refl.
  - rewrite str_app_cons. simpl. intros [Hd Hx]%orb_false_iff.
    by rewrite (IH Hx), Hd.
Qed.

Lemma split_join (c : ascii) (l : list string) :
  l <> [] -> Forall (fun x => contains_char c x = false) l ->
  split c (join (String c EmptyString) l) = l.
Proof.
  induction l as [|x l IH]; [done|]. intros _ Hall.
  apply Forall_cons in Hall as [Hx Hl]. destruct l as [|y l].
  - simpl. by apply split_no_sep.
  - change (split c (x +:+ String c EmptyString +:+ join (String c EmptyString) (y :: l))
            = x :: y :: l).
    rewrite str_app_cons, str_app_nil_l, split_app_sep by exact Hx.
    by rewrite IH.
Qed.

Lemma parse_fields_str_int (py : Py.version) (zs : list Z) :
  parse_fields py (map str_int zs) = Some zs.
Proof.
  induction zs as [|z zs IH]; simpl; [reflexivity|].
  by rewrite int_str_int, IH.
Qed.

(** X10. Round trip of dotted OID texts (without MIB files, where [long]
    is defined). Writing a non-empty sequence of integers in decimal,
    joined by dots, and parsing the text gives back the sequence, each
    integer reduced modulo the width of [c_oid]; sub-identifiers within
    the range of [c_oid] come back unchanged. *)
Theorem numeric_oid_round_trip (env : environment) (a : netsnmpAgent) (zs : list Z) :
  UseMIBFiles a = false -> python env = Python2 -> zs <> [] ->
  _prepareOID env a (join "." (map str_int zs)) = Ok (map (fun z => z mod 2 ^ c_oid_bits env) zs)
  /\ (Forall (fun z => 0 <= z < 2 ^ c_oid_bits env) zs ->
      _prepareOID env a (join "." (map str_int zs)) = Ok zs).
Proof.
  intros Hmib Hpy Hne.
  assert (Hgen : _prepareOID env a (join "." (map str_int zs))
                 = Ok (map (fun z => z mod 2 ^ c_oid_bits env) zs)).
  { unfold _prepareOID. rewrite Hmib, Hpy. simpl.
    rewrite (split_join dot).
    - by rewrite parse_fields_str_int.
    - by destruct zs.
    - apply Forall_forall. intros x (z & -> & _)%list_elem_of_fmap. apply str_int_no_dot. }
  split; [exact Hgen|].
  intros Hrange. rewrite Hgen. f_equal. clear Hne Hgen.
  induction Hrange as [|z zs' Hz _ IH]; simpl; [reflexivity|].
  rewrite IH. f_equal. by apply Z.mod_small.
Qed.

Lemma numeric_oid_round_trip_witness :
  _prepareOID (spec_env Python2 0 []) (new_agent "agent" None false false)
              (join "." (map str_int [1; 3; 6; 1; 4; 1; 8072]))
  = Ok [1; 3; 6; 1; 4; 1; 8072].
Proof.
  apply (numeric_oid_round_trip (spec_env Python2 0 []) (new_agent "agent" None false false)
           [1; 3; 6; 1; 4; 1; 8072] eq_refl eq_refl); [discriminate|].
  repeat constructor; simpl; lia.
Defined.

(** ** Row lookup, deletion and insertion *)

Lemma differs_true (m : string) (ri : indices_val) :
  differs m ri = true <-> ri <> IdxStr m.
Proof.
  destruct ri as [|z|s]; simpl; try (split; [discriminate | reflexivity]).
  destruct (String.eqb_spec m s) as [-> | Hne]; simpl.
  - split; [discriminate | congruence].
  - split; [congruence | reflexivity].
Qed.

(** The search stops at the first row whose indices are the text looked
    for; every row before it has indices that are something else. *)
Lemma find_row_first (env : environment) (t : Table) (m : string)
    (rows : list table_row) (pos p : nat) (row : table_row) :
  find_row env t m rows pos = Ok (Some (p, row))
  <-> (pos <= p)%nat /\ rows !! (p - pos)%nat = Some row
      /\ _getIndices env t row = Ok (IdxStr m)
      /\ forall q r, (q < p - pos)%nat -> rows !! q = Some r ->
                     exists ri, _getIndices env t r = Ok ri /\ ri <> IdxStr m.
Proof.
  revert pos. induction rows as [|r0 rest IH]; intros pos; simpl.
  - split; [discriminate | intros (_ & H & _); discriminate].
  - destruct (_getIndices env t r0) as [ri|e] eqn:Hri; simpl.
    + destruct (differs m ri) eqn:Hd.
      * rewrite IH. apply differs_true in Hd. split.
        -- intros (Hle & Hl & Hr & Hbefore). split; [lia|].
           replace (p - pos)%nat with (S (p - S pos)) by lia. split; [exact Hl|].
           split; [exact Hr|]. intros [|q] r Hq Hlook.
           ++ injection Hlook as <-. eauto.
           ++ apply (Hbefore q); [lia | exact Hlook].
        -- intros (Hle & Hl & Hr & Hbefore).
           destruct (decide (p = pos)) as [-> | Hne].
           { rewrite Nat.sub_diag in Hl. injection Hl as <-. congruence. }
           replace (p - pos)%nat with (S (p - S pos)) in * by lia.
           split; [lia|]. split; [exact Hl|]. split; [exact Hr|].
           intros q r Hq Hlook. apply (Hbefore (S q)); [lia | exact Hlook].
      * assert (ri = IdxStr m) as ->.
        { destruct (decide (ri = IdxStr m)) as [|Hne]; [done|].
          apply differs_true in Hne. congruence. }
        split.
        -- intros [= <- <-]. rewrite Nat.sub_diag. split; [lia|].
           split; [reflexivity|]. split; [exact Hri|]. intros q r Hq. lia.
        -- intros (Hle & Hl & Hr & Hbefore).
           destruct (decide (p = pos)) as [-> | Hne].
           { rewrite Nat.sub_diag in Hl. by injection Hl as <-. }
           destruct (Hbefore 0%nat r0) as (ri & Hri' & Hneq); [lia | reflexivity |].
           congruence.
    + split; [discriminate|]. intros (Hle & Hl & Hr & Hbefore).
      destruct (decide (p = pos)) as [-> | Hne].
      { rewrite Nat.sub_diag in Hl. injection Hl as <-. congruence. }
      destruct (Hbefore 0%nat r0) as (ri & Hri' & _); [lia | reflexivity |]. congruence.
Qed.

Lemma find_row_none (env : environment) (t : Table) (m : string)
    (rows : list table_row) (pos : nat) :
  find_row env t m rows pos = Ok None
  <-> forall r, r ∈ rows -> exists ri, _getIndices env t r = Ok ri /\ ri <> IdxStr m.
Proof.
  revert pos. induction rows as [|r0 rest IH]; intros pos; simpl.
  - split; [intros _ r Hr; inversion Hr | reflexivity].
  - destruct (_getIndices env t r0) as [ri|e] eqn:Hri; simpl.
    + destruct (differs m ri) eqn:Hd.
      * rewrite IH. apply differs_true in Hd. split.
        -- intros H r [-> | Hin]%elem_of_cons; eauto.
        -- intros H r Hin. apply H. by right.
      * split; [discriminate|]. intros H.
        destruct (H r0) as (ri' & Hri' & Hne); [left|].
        apply differs_true in Hne. congruence.
    + split; [discriminate|]. intros H.
      destruct (H r0) as (ri' & Hri' & _); [left|]. congruence.
Qed.

(** The only error of the search is the [IndexError] of a row whose
    rendered identifier has no dot. *)
Lemma find_row_raises (env : environment) (t : Table) (m : string)
    (rows : list table_row) (pos : nat) (e : exn) :
  find_row env t m rows pos = Raise e -> e = IndexError.
Proof.
  revert pos. induction rows as [|r0 rest IH]; intros pos; simpl; [discriminate|].
  destruct (_getIndices env t r0) as [ri|e'] eqn:Hri; simpl.
  - destruct (differs m ri); [apply IH | discriminate].
  - intros [= <-]. unfold _getIndices in Hri.
    destruct (snd (split1 dot _)) as [rest'|]; [|congruence].
    by destruct (Py.int (python env) rest').
Qed.

(** X11. Which row [getRow] returns. For an index argument that yields
    a text to look for, [getRow] returns the handle of position [p]
    exactly when the row at [p] is the first row, in store order, whose
    indices are that text; and it reports that the row was not found
    exactly when every stored row has indices that are something else.
    The table is never changed. *)
Theorem getRow_returns_first_match (env : environment) (t : Table) (indices : pyarg)
    (m : string) :
  matchStr_of env indices = Ok m ->
  (forall p,
      getRow env t indices = (t, Ok (mkTableRow p))
      <-> exists row, table_rows t !! p = Some row
                      /\ _getIndices env t row = Ok (IdxStr m)
                      /\ forall q r, (q < p)%nat -> table_rows t !! q = Some r ->
                                     exists ri, _getIndices env t r = Ok ri /\ ri <> IdxStr m)
  /\ (getRow env t indices = (t, Raise (netsnmpAgentException "Row not found!"))
      <-> forall r, r ∈ table_rows t ->
                    exists ri, _getIndices env t r = Ok ri /\ ri <> IdxStr m)
  /\ fst (getRow env t indices) = t.
Proof.
  intros Hm. unfold getRow, _getOrAddRow, _getRow. rewrite Hm. simpl. split; [|split].
  - intros p. destruct (find_row env t m (table_rows t) 0) as [[[p' row']|]|e] eqn:Hf.
    + apply find_row_first in Hf as (_ & Hl & Hr & Hb). rewrite Nat.sub_0_r in *. split.
      * intros [= <-]. eauto.
      * intros (row & Hl2 & Hr2 & Hb2).
        destruct (Nat.lt_trichotomy p p') as [Hlt | [-> | Hgt]]; [| reflexivity |].
        -- destruct (Hb p row Hlt Hl2) as (ri & Hri & Hne). congruence.
        -- destruct (Hb2 p' row' Hgt Hl) as (ri & Hri & Hne). congruence.
    + split; [discriminate|]. intros (row & Hl & Hr & _).
      pose proof (proj1 (find_row_none _ _ _ _ _) Hf row) as Hnone.
      destruct Hnone as (ri & Hri & Hne); [by eapply list_elem_of_lookup_2|]. congruence.
    + split; [discriminate|]. intros (row & Hl & Hr & Hb).
      assert (find_row env t m (table_rows t) 0 = Ok (Some (p, row))) as Hok.
      { apply find_row_first. rewrite Nat.sub_0_r. repeat split; [lia | done..]. }
      congruence.
  - destruct (find_row env t m (table_rows t) 0) as [[[p' row']|]|e] eqn:Hf.
    + split; [discriminate|]. intros H.
      apply (proj2 (find_row_none env t m _ 0%nat)) in H. congruence.
    + split; [intros _; by apply (proj1 (find_row_none env t m _ 0%nat)) | reflexivity].
    + split; [intros [= ->]|].
      * by apply find_row_raises in Hf.
      * intros H. apply (proj2 (find_row_none env t m _ 0%nat)) in H. congruence.
  - by destruct (find_row env t m (table_rows t) 0) as [[[p' row']|]|e].
Qed.

Lemma getRow_returns_first_match_witness :
  let env0 := spec_env Python3 10 [ASN_INTEGER; ASN_INTEGER] in
  let idx i := PyList [Var (Integer32 1); Var (Integer32 i)] in
  let t := foldl (apply_op env0) int_index_table [AddRow (idx 1); AddRow (idx 2)] in
  getRow env0 t (idx 2) = (t, Ok (mkTableRow 1)).
Proof.
  intros env0 idx t.
  destruct (getRow_returns_first_match env0 t (idx 2) "1.2" eq_refl) as (Hfound & _).
  apply Hfound. eexists. split; [reflexivity|]. split; [vm_compute; reflexivity|].
  intros [|q] r Hq Hl; [|lia]. vm_compute in Hl. injection Hl as <-.
  eexists. split; [vm_compute; reflexivity | discriminate].
Defined.

Lemma getIndices_reginfo (env : environment) (t t' : Table) (row : table_row) :
  _handler_reginfo t = _handler_reginfo t' ->
  _getIndices env t row = _getIndices env t' row.
Proof. unfold _getIndices. by intros ->. Qed.

Lemma find_row_reginfo (env : environment) (t t' : Table) (m : string)
    (rows : list table_row) (pos : nat) :
  _handler_reginfo t = _handler_reginfo t' ->
  find_row env t m rows pos = find_row env t' m rows pos.
Proof.
  intros H. revert pos. induction rows as [|r rest IH]; intros pos; simpl; [reflexivity|].
  rewrite (getIndices_reginfo env t t' r H).
  destruct (_getIndices env t' r) as [ri|e]; simpl; [|reflexivity].
  by rewrite IH.
Qed.

Lemma reginfo_update_counter (f : Z -> Z) (t : Table) :
  _handler_reginfo (update_counter f t) = _handler_reginfo t.
Proof. unfold update_counter. by destruct (_counterobj t). Qed.

Lemma rows_update_counter (f : Z -> Z) (t : Table) :
  table_rows (update_counter f t) = table_rows t.
Proof. unfold update_counter. by destruct (_counterobj t). Qed.

Lemma default_row_update_counter (f : Z -> Z) (t : Table) :
  default_row (update_counter f t) = default_row t.
Proof. unfold update_counter. by destruct (_counterobj t). Qed.

Lemma counter_update_counter (f : Z -> Z) (t : Table) :
  _counterobj (update_counter f t) = f <$> _counterobj t.
Proof. unfold update_counter. destruct (_counterobj t) eqn:H; simpl; by rewrite ?H. Qed.

(** X12. Deleting a row. When the row at position [p] is the first whose
    indices are the text looked for, [deleteRow] removes exactly that
    row, keeps the others in order and takes one off the counter. If no
    other row has these indices, a following [getRow] reports that the
    row is not found and a second [deleteRow] changes nothing. *)
Theorem deleteRow_removes_first_match (env : environment) (t : Table) (indices : pyarg)
    (m : string) (p : nat) (row : table_row) :
  matchStr_of env indices = Ok m ->
  table_rows t !! p = Some row ->
  _getIndices env t row = Ok (IdxStr m) ->
  (forall q r, (q < p)%nat -> table_rows t !! q = Some r ->
               exists ri, _getIndices env t r = Ok ri /\ ri <> IdxStr m) ->
  let t' := fst (deleteRow env t indices) in
  snd (deleteRow env t indices) = Ok tt
  /\ table_rows t' = delete p (table_rows t)
  /\ _counterobj t' = (fun c => c - 1) <$> _counterobj t
  /\ default_row t' = default_row t
  /\ _handler_reginfo t' = _handler_reginfo t
  /\ ((forall q r, (p < q)%nat -> table_rows t !! q = Some r ->
                   exists ri, _getIndices env t r = Ok ri /\ ri <> IdxStr m) ->
      getRow env t' indices = (t', Raise (netsnmpAgentException "Row not found!"))
      /\ deleteRow env t' indices = (t', Ok tt)).
Proof.
  intros Hm Hl Hr Hbefore t'.
  assert (Hf : find_row env t m (table_rows t) 0 = Ok (Some (p, row))).
  { apply find_row_first. rewrite Nat.sub_0_r. repeat split; [lia | done..]. }
  assert (Ht' : t' = update_counter (fun c => c - 1) (set_rows (delete p (table_rows t)) t)).
  { subst t'. unfold deleteRow, _getRow. rewrite Hm. simpl. by rewrite Hf. }
  assert (Hreg : _handler_reginfo t' = _handler_reginfo t).
  { by rewrite Ht', reginfo_update_counter. }
  assert (Hrows : table_rows t' = delete p (table_rows t)).
  { by rewrite Ht', rows_update_counter. }
  split; [|split; [|split; [|split; [|split]]]].
  - unfold deleteRow, _getRow. rewrite Hm. simpl. by rewrite Hf.
  - exact Hrows.
  - by rewrite Ht', counter_update_counter.
  - by rewrite Ht', default_row_update_counter.
  - exact Hreg.
  - intros Hafter. apply missing_row_behaviour. unfold _getRow. rewrite Hm. simpl.
    apply find_row_none. intros r Hin. rewrite Hrows in Hin.
    apply list_elem_of_lookup_1 in Hin as [q Hq].
    rewrite (getIndices_reginfo env t' t r Hreg).
    destruct (decide (q < p)%nat) as [Hlt | Hge].
    + rewrite list_lookup_delete_lt in Hq by exact Hlt. by apply (Hbefore q).
    + rewrite list_lookup_delete_ge in Hq by lia. apply (Hafter (S q)); [lia | exact Hq].
Qed.

Lemma deleteRow_removes_first_match_witness :
  let env0 := spec_env Python3 10 [ASN_INTEGER; ASN_INTEGER] in
  let idx i := PyList [Var (Integer32 1); Var (Integer32 i)] in
  let t := foldl (apply_op env0) int_index_table [AddRow (idx 1); AddRow (idx 2)] in
  let t' := fst (deleteRow env0 t (idx 2)) in
  length (table_rows t') = 1%nat
  /\ getRow env0 t' (idx 2) = (t', Raise (netsnmpAgentException "Row not found!")).
Proof.
  intros env0 idx t t'.
  assert (Hrow : exists row, table_rows t !! 1%nat = Some row
                             /\ _getIndices env0 t row = Ok (IdxStr "1.2")).
  { eexists. split; [reflexivity | vm_compute; reflexivity]. }
  destruct Hrow as (row & Hl & Hr).
  assert (Hbefore : forall q r, (q < 1)%nat -> table_rows t !! q = Some r ->
                      exists ri, _getIndices env0 t r = Ok ri /\ ri <> IdxStr "1.2").
  { intros [|q] r Hq Hlook; [|lia]. vm_compute in Hlook. injection Hlook as <-.
    eexists. split; [vm_compute; reflexivity | discriminate]. }
  destruct (deleteRow_removes_first_match env0 t (idx 2) "1.2" 1 row eq_refl Hl Hr Hbefore)
    as (_ & Hrows & _ & _ & _ & Hgone).
  split.
  - fold t' in Hrows. rewrite Hrows. reflexivity.
  - apply Hgone. intros [|[|q]] r Hq Hlook; [lia | lia |]. vm_compute in Hlook. discriminate.
Defined.

(** X13. Looking a row up after adding it. When the engine renders the
    indices of the new row as the text [getRow] looks for, and renders
    every stored row, [getRow] after [addRow] returns a row with these
    indices: the row just added if no stored row had them, in which case
    the two calls return the same handle, and otherwise an older row, as
    [addRow] does not look for duplicates. *)
Theorem addRow_then_getRow (env : environment) (t : Table) (idxobjs : pyarg)
    (m : string) (idx : list VarType) :
  matchStr_of env idxobjs = Ok m ->
  index_objects env idxobjs = Ok idx ->
  _getIndices env t (new_row env t idx) = Ok (IdxStr m) ->
  (forall r, r ∈ table_rows t -> exists ri, _getIndices env t r = Ok ri) ->
  let t' := fst (addRow env t idxobjs) in
  table_rows t' = (table_rows t ++ [new_row env t idx])%list
  /\ exists p row,
      getRow env t' idxobjs = (t', Ok (mkTableRow p))
      /\ table_rows t' !! p = Some row
      /\ _getIndices env t' row = Ok (IdxStr m)
      /\ ((forall r, r ∈ table_rows t -> _getIndices env t r <> Ok (IdxStr m)) ->
          row = new_row env t idx
          /\ snd (addRow env t idxobjs) = Ok (mkTableRow p))
      /\ ((exists r, r ∈ table_rows t /\ _getIndices env t r = Ok (IdxStr m)) ->
          (p < length (table_rows t))%nat /\ table_rows t !! p = Some row).
Proof.
  intros Hm Hidx Hnew Hall t'.
  assert (Ht' : t' = update_counter (fun c => c + 1)
                       (set_rows (table_rows t ++ [new_row env t idx])%list t)).
  { subst t'. unfold addRow, _getOrAddRow. by rewrite Hidx. }
  assert (Hadd : snd (addRow env t idxobjs) = Ok (mkTableRow (length (table_rows t)))).
  { unfold addRow, _getOrAddRow. by rewrite Hidx. }
  assert (Hreg : _handler_reginfo t' = _handler_reginfo t).
  { by rewrite Ht', reginfo_update_counter. }
  assert (Hrows : table_rows t' = (table_rows t ++ [new_row env t idx])%list).
  { by rewrite Ht', rows_update_counter. }
  split; [exact Hrows|].
  assert (Hsome : exists p row, find_row env t' m (table_rows t') 0 = Ok (Some (p, row))).
  { destruct (find_row env t' m (table_rows t') 0) as [[[p row]|]|e] eqn:Hf; [eauto | |].
    - pose proof (proj1 (find_row_none _ _ _ _ _) Hf (new_row env t idx)) as Hn.
      destruct Hn as (ri & Hri & Hne).
      + rewrite Hrows. apply elem_of_app. right. by left.
      + rewrite (getIndices_reginfo env t' t _ Hreg) in Hri. congruence.
    - exfalso. revert Hf. rewrite Hrows, (find_row_reginfo env t' t m _ 0 Hreg).
      clear -Hnew Hall. generalize 0%nat.
      induction (table_rows t) as [|r0 rest IH]; intros pos; simpl.
      + rewrite Hnew. simpl. by rewrite String.eqb_refl.
      + destruct (Hall r0) as (ri & ->); [left|]. simpl.
        destruct (differs m ri); [|discriminate].
        apply IH. intros r Hin. apply Hall. by right. }
  destruct Hsome as (p & row & Hf). exists p, row.
  pose proof (proj1 (find_row_first _ _ _ _ _ _ _) Hf) as (_ & Hl & Hr & Hbefore).
  rewrite Nat.sub_0_r in *.
  split; [|split; [exact Hl | split; [exact Hr | split]]].
  - unfold getRow, _getOrAddRow, _getRow. rewrite Hm. simpl. by rewrite Hf.
  - intros Hfresh.
    assert (p = length (table_rows t)) as ->.
    { destruct (decide (p < length (table_rows t))%nat) as [Hlt | Hge].
      - rewrite Hrows, lookup_app_l in Hl by exact Hlt.
        exfalso. apply (Hfresh row); [by eapply list_elem_of_lookup_2|].
        by rewrite <- (getIndices_reginfo env t' t _ Hreg).
      - apply lookup_lt_Some in Hl. rewrite Hrows, length_app in Hl. simpl in Hl. lia. }
    split; [|exact Hadd].
    rewrite Hrows, lookup_app_r, Nat.sub_diag in Hl by lia. by injection Hl as <-.
  - intros (r & Hin & Hri). apply list_elem_of_lookup_1 in Hin as [q Hq].
    assert (p <= q)%nat as Hpq.
    { destruct (decide (p <= q)%nat) as [|Hgt]; [done|].
      destruct (Hbefore q r) as (ri & Hri' & Hne); [lia | |].
      - rewrite Hrows, lookup_app_l; [exact Hq | by eapply lookup_lt_Some].
      - rewrite (getIndices_reginfo env t' t _ Hreg) in Hri'. congruence. }
    apply lookup_lt_Some in Hq.
    split; [lia|]. rewrite Hrows, lookup_app_l in Hl by lia. exact Hl.
Qed.

Lemma addRow_then_getRow_witness :
  let env0 := spec_env Python3 10 [ASN_INTEGER; ASN_INTEGER] in
  let idx := PyList [Var (Integer32 1); Var (Integer32 2)] in
  let t' := fst (addRow env0 int_index_table idx) in
  exists p row, getRow env0 t' idx = (t', Ok (mkTableRow p))
                /\ table_rows t' !! p = Some row
                /\ _getIndices env0 t' row = Ok (IdxStr "1.2").
Proof.
  intros env0 idx t'.
  destruct (addRow_then_getRow env0 int_index_table idx "1.2" [Integer32 1; Integer32 2]
              eq_refl eq_refl eq_refl ltac:(intros r Hr; inversion Hr))
    as (_ & p & row & Hget & Hl & Hr & _).
  exists p, row. split; [exact Hget|]. split; [exact Hl | exact Hr].
Defined.

(** ** The row counter and [setRowColumn] *)

Lemma setRowColumn_cases (env : environment) (t : Table) (indices : pyarg)
    (colIdx : Z) (snmpobj : VarType) :
  (fst (setRowColumn env t indices colIdx snmpobj) = t
   /\ raised (snd (setRowColumn env t indices colIdx snmpobj)) = true)
  \/ exists m p row,
      matchStr_of env indices = Ok m
      /\ find_row env t m (table_rows t) 0 = Ok (Some (p, row))
      /\ netsnmp_set_row_column env row colIdx (_asntype snmpobj) = SNMPERR_SUCCESS
      /\ setRowColumn env t indices colIdx snmpobj
         = (set_rows (<[p := set_cell colIdx (_cvar_value snmpobj) row]> (table_rows t)) t,
            Ok tt).
Proof.
  unfold setRowColumn, _getRow.
  destruct (matchStr_of env indices) as [m|e] eqn:Hm; simpl; [|by left].
  destruct (find_row env t m (table_rows t) 0) as [[[p row]|]|e] eqn:Hf; [| by left..].
  unfold set_row_column_at. case_decide as Hrc; [|by left].
  right. exists m, p, row. auto.
Qed.

(** X14. The row counter counts the rows. On a table constructed with a
    counter object, after any sequence of [addRow], [deleteRow], [clear]
    and [setRowColumn] calls, failed ones included, the counter holds the
    number of rows stored. *)
Theorem counter_counts_rows (env : environment) (a a' : netsnmpAgent) (oidstr : string)
    (idxobjs : list VarType) (coldefs : list (Z * VarType * option Z)) (c : Z)
    (extendable : bool) (context : string) (callback : bool) (t : Table)
    (calls : list table_call) :
  Table_init env a oidstr idxobjs coldefs (Some c) extendable context callback = (a', Ok t) ->
  _counterobj (foldl (apply_call env) t calls)
  = Some (Z.of_nat (length (table_rows (foldl (apply_call env) t calls)))).
Proof.
  intros Hinit.
  assert (H0 : counter_in_step t).
  { unfold Table_init in Hinit.
    destruct (add_default_rows env [] coldefs); [|by inversion Hinit].
    destruct (_prepareRegistration env a oidstr extendable); [|by inversion Hinit].
    destruct (if callback then _ else _); [|by inversion Hinit].
    case_decide; [|by inversion Hinit]. by injection Hinit as _ <-. }
  clear Hinit. fold (counter_in_step (foldl (apply_call env) t calls)).
  revert t H0. induction calls as [|call calls IH]; intros t H0; simpl; [exact H0|].
  apply IH. destruct call as [op | indices colIdx snmpobj]; simpl.
  - by apply counter_in_step_op.
  - destruct (setRowColumn_cases env t indices colIdx snmpobj)
      as [[-> _] | (m & p & row & _ & _ & _ & ->)]; [exact H0|].
    unfold counter_in_step in *. simpl. by rewrite length_insert.
Qed.

Lemma counter_counts_rows_witness :
  let env0 := int_index_env Python3 in
  let five := PyList [Var (Integer32 5)] in
  exists t,
    snd (Table_init env0 (new_agent "agent" None true false)
           "1.3.6.1.4.1.8072.2.2.1" [Integer32 0]
           [(2, OctetString "none", Some 1); (3, Integer32 0, None)]
           (Some 17) true EmptyString false) = Ok t
    /\ _counterobj (foldl (apply_call env0) t
                      [RowOp (AddRow five); SetRowColumn five 3 (Integer32 1);
                       RowOp (DeleteRow five)])
       = Some 1.
Proof.
  intros env0 five. eexists. split; [reflexivity|].
  rewrite (counter_counts_rows env0 (new_agent "agent" None true false) _
             "1.3.6.1.4.1.8072.2.2.1" [Integer32 0]
             [(2, OctetString "none", Some 1); (3, Integer32 0, None)]
             17 true EmptyString false _ _ eq_refl).
  reflexivity.
Defined.






(** ** [Table.value] *)

Lemma dict_get_set {K V} `{EqDecision K} (k k' : K) (v : V) (d : list (K * V)) :
  dict_get k' (dict_set k v d) = if decide (k' = k) then Some v else dict_get k' d.
Proof.
  induction d as [|[k0 v0] d IH]; simpl.
  - by destruct (decide (k' = k)).
  - destruct (decide (k = k0)) as [-> | Hne]; simpl.
    + by destruct (decide (k' = k0)).
    + rewrite IH. destruct (decide (k' = k0)) as [-> | Hne'].
      * by rewrite decide_False by congruence.
      * reflexivity.
Qed.

Lemma dict_set_keys {K V} `{EqDecision K} (k : K) (v : V) (d : list (K * V)) (k' : K) :
  k' ∈ map fst (dict_set k v d) <-> k' = k \/ k' ∈ map fst d.
Proof.
  induction d as [|[k0 v0] d IH]; simpl.
  - rewrite list_elem_of_singleton. split; [auto | intros [?|Hin]; [done | inversion Hin]].
  - destruct (decide (k = k0)) as [-> | Hne]; simpl.
    + rewrite !elem_of_cons. tauto.
    + rewrite !elem_of_cons, IH. tauto.
Qed.

Lemma rows_dump_spec (env : environment) (t : Table) (rows : list table_row)
    (acc d : list (indices_val * dump_entry)) :
  rows_dump env t rows acc = Ok d ->
  (forall row, row ∈ rows ->
               exists ri cells, _getIndices env t row = Ok ri
                                /\ dict_get ri d = Some (RowEntry cells))
  /\ (forall k, (forall row, row ∈ rows -> _getIndices env t row <> Ok k) ->
                dict_get k d = dict_get k acc)
  /\ (forall k cells, dict_get k acc = Some (RowEntry cells) ->
                      exists cells', dict_get k d = Some (RowEntry cells'))
  /\ (forall k, k ∈ map fst d <->
                k ∈ map fst acc \/ exists row, row ∈ rows /\ _getIndices env t row = Ok k).
Proof.
  revert acc. induction rows as [|r rest IH]; intros acc; simpl.
  - intros [= <-]. split; [|split; [|split]].
    + intros row Hin. inversion Hin.
    + reflexivity.
    + eauto.
    + intros k. split; [auto|]. intros [? | (row & Hin & _)]; [done | inversion Hin].
  - destruct (_getIndices env t r) as [ri|e] eqn:Hri; simpl; [|discriminate].
    destruct (row_cells (row_data r) []) as [cells|e] eqn:Hcells; simpl; [|discriminate].
    intros Hd. destruct (IH _ Hd) as (Hrows & Hkeep & Hentry & Hkeys).
    split; [|split; [|split]].
    + intros row [-> | Hin]%elem_of_cons; [|by apply Hrows].
      destruct (Hentry ri cells) as [cells' Hc'].
      { by rewrite dict_get_set, decide_True. }
      eauto.
    + intros k Hk. rewrite Hkeep.
      * rewrite dict_get_set, decide_False; [reflexivity|].
        intros ->. apply (Hk r); [left | exact Hri].
      * intros row Hin. apply Hk. by right.
    + intros k cells0 Hk. destruct (decide (k = ri)) as [-> | Hne].
      * apply (Hentry ri cells). by rewrite dict_get_set, decide_True.
      * apply (Hentry k cells0). by rewrite dict_get_set, decide_False.
    + intros k. rewrite Hkeys, dict_set_keys. split.
      * intros [[-> | Hin] | (row & Hin & Hrow)]; [right | by left | right].
        -- exists r. split; [left | exact Hri].
        -- exists row. split; [by right | exact Hrow].
      * intros [Hin | (row & [-> | Hin]%elem_of_cons & Hrow)].
        -- left. by right.
        -- left. left. congruence.
        -- right. eauto.
Qed.

Lemma foldl_dict_set_other {K V X} `{EqDecision K} (key : X -> K) (val : X -> V)
    (l : list X) (acc : list (K * V)) (k : K) :
  k ∉ map key l ->
  dict_get k (foldl (fun d x => dict_set (key x) (val x) d) acc l) = dict_get k acc.
Proof.
  revert acc. induction l as [|x l IH]; intros acc Hk; simpl; [reflexivity|].
  simpl in Hk. rewrite not_elem_of_cons in Hk. destruct Hk as [Hne Hk].
  rewrite IH by exact Hk. by rewrite dict_get_set, decide_False.
Qed.

Lemma foldl_dict_set_keys {K V X} `{EqDecision K} (key : X -> K) (val : X -> V)
    (l : list X) (acc : list (K * V)) (k : K) :
  k ∈ map fst (foldl (fun d x => dict_set (key x) (val x) d) acc l)
  <-> k ∈ map fst acc \/ k ∈ map key l.
Proof.
  revert acc. induction l as [|x l IH]; intros acc; simpl.
  - split; [auto | intros [? | Hin]; [done | inversion Hin]].
  - rewrite IH, dict_set_keys, elem_of_cons. tauto.
Qed.

(** The value a key has after a run of assignments is that of the last
    assignment to the key. *)
Lemma foldl_dict_set_last {K V X} `{EqDecision K} (key : X -> K) (val : X -> V)
    (l : list X) (acc : list (K * V)) (j : nat) (x : X) :
  l !! j = Some x ->
  (forall j' x', (j < j')%nat -> l !! j' = Some x' -> key x' <> key x) ->
  dict_get (key x) (foldl (fun d y => dict_set (key y) (val y) d) acc l) = Some (val x).
Proof.
  revert acc j. induction l as [|y l IH]; intros acc j Hl Hlast; [done|].
  destruct j as [|j]; simpl in *.
  - injection Hl as ->. rewrite foldl_dict_set_other.
    + by rewrite dict_get_set, decide_True.
    + intros Hin. apply list_elem_of_fmap in Hin as (x' & Hkey & Hin).
      apply list_elem_of_lookup_1 in Hin as [j' Hj'].
      apply (Hlast (S j') x'); [lia | exact Hj' | by rewrite Hkey].
  - apply (IH _ j Hl). intros j' x' Hlt Hl'. apply (Hlast (S j') x'); [lia | exact Hl'].
Qed.

Lemma row_cells_spec (cells : list storage) (acc res : list (Z * cellval)) :
  row_cells cells acc = Ok res ->
  (forall s, s ∈ cells -> is_Some (st_data s))
  /\ res = foldl (fun d s => dict_set (column s)
                               (cell_value (st_type s)
                                  (default (CInt 0) (st_data s))) d)
                 acc cells.
Proof.
  revert acc. induction cells as [|s cells IH]; intros acc; simpl.
  - intros [= <-]. split; [intros s Hin; inversion Hin | reflexivity].
  - destruct (st_data s) as [dat|] eqn:Hdat; [|discriminate].
    intros Hres. destruct (IH _ Hres) as (Hall & ->). split.
    + intros s' [-> | Hin]%elem_of_cons; [by rewrite Hdat | by apply Hall].
    + reflexivity.
Qed.

(** The entry under a key of the dictionary is that of the last row with
    these indices. *)
Lemma rows_dump_last (env : environment) (t : Table) (rows : list table_row)
    (acc d : list (indices_val * dump_entry)) (i : nat) (row : table_row)
    (k : indices_val) :
  rows_dump env t rows acc = Ok d ->
  rows !! i = Some row ->
  _getIndices env t row = Ok k ->
  (forall j row', (i < j)%nat -> rows !! j = Some row' -> _getIndices env t row' <> Ok k) ->
  exists cells, row_cells (row_data row) [] = Ok cells
                /\ dict_get k d = Some (RowEntry cells).
Proof.
  revert acc i. induction rows as [|r rest IH]; intros acc i Hd Hl Hk Hlast; [done|].
  simpl in Hd.
  destruct (_getIndices env t r) as [ri|e] eqn:Hri; simpl in Hd; [|discriminate].
  destruct (row_cells (row_data r) []) as [cells|e] eqn:Hcells; simpl in Hd; [|discriminate].
  destruct i as [|i]; simpl in Hl.
  - injection Hl as ->. rewrite Hk in Hri. injection Hri as <-.
    exists cells. split; [exact Hcells|].
    destruct (rows_dump_spec env t _ _ _ Hd) as (_ & Hkeep & _).
    rewrite Hkeep; [by rewrite dict_get_set, decide_True|].
    intros row' Hin. apply list_elem_of_lookup_1 in Hin as [j Hj].
    apply (Hlast (S j) row'); [lia | exact Hj].
  - apply (IH _ i Hd Hl Hk). intros j row' Hlt Hj.
    apply (Hlast (S j) row'); [lia | exact Hj].
Qed.

(** X17. What [value()] returns. When it returns a dictionary, every
    stored row renders and every stored cell carries data; the keys are 0
    and the indices of the stored rows and nothing else. Under the
    indices of a row the dictionary has the cells of the last stored row
    with these indices: one entry per column number of that row, holding
    the data of the row's last cell with that number, shown as text for a
    string, as a dotted quad for an IP address and as the integer
    otherwise. Key 0 holds the description of the columns, type name and
    default value, unless a row has the integer 0 as its indices, in
    which case the cells of that row have taken its place. *)
Theorem value_entries (env : environment) (t : Table)
    (d : list (indices_val * dump_entry)) :
  value env t = Ok d ->
  let shown (s : storage) (dat : cval) : cellval :=
    match st_type s with
    | ASN_OCTET_STR => TextVal (text_of dat)
    | ASN_IPADDRESS => TextVal (inet_ntoa_pack_I (int_of dat))
    | _ => IntVal (int_of dat)
    end in
  (forall row, row ∈ table_rows t ->
     (exists k, _getIndices env t row = Ok k)
     /\ forall s, s ∈ row_data row -> is_Some (st_data s))
  /\ (forall k, k ∈ map fst d <->
                k = IdxInt 0
                \/ exists row, row ∈ table_rows t /\ _getIndices env t row = Ok k)
  /\ (forall i row k,
        table_rows t !! i = Some row ->
        _getIndices env t row = Ok k ->
        (forall j row', (i < j)%nat -> table_rows t !! j = Some row' ->
                        _getIndices env t row' <> Ok k) ->
        exists cells,
          dict_get k d = Some (RowEntry cells)
          /\ (forall c, c ∈ map fst cells <-> c ∈ map column (row_data row))
          /\ forall n s,
               row_data row !! n = Some s ->
               (forall n' s', (n < n')%nat -> row_data row !! n' = Some s' ->
                              column s' <> column s) ->
               exists dat, st_data s = Some dat
                           /\ dict_get (column s) cells = Some (shown s dat))
  /\ ((forall row, row ∈ table_rows t -> _getIndices env t row <> Ok (IdxInt 0)) ->
      exists schema,
        dict_get (IdxInt 0) d = Some (SchemaEntry schema)
        /\ (forall c, c ∈ map fst schema <-> c ∈ map column (default_row t))
        /\ forall n s,
             default_row t !! n = Some s ->
             (forall n' s', (n < n')%nat -> default_row t !! n' = Some s' ->
                            column s' <> column s) ->
             dict_get (column s) schema
             = Some (asntypes (st_type s),
                     match st_data s with
                     | Some dat => Some (shown s dat)
                     | None => None
                     end)).
Proof.
  intros Hd shown. unfold value in Hd. cbv zeta in Hd.
  destruct (rows_dump_spec env t _ _ _ Hd) as (Hrows & Hkeep & _ & Hkeys).
  assert (Hcells : forall i row k,
             table_rows t !! i = Some row ->
             _getIndices env t row = Ok k ->
             (forall j row', (i < j)%nat -> table_rows t !! j = Some row' ->
                             _getIndices env t row' <> Ok k) ->
             exists cells, row_cells (row_data row) [] = Ok cells
                           /\ dict_get k d = Some (RowEntry cells)).
  { intros i row k. exact (rows_dump_last env t _ _ d i row k Hd). }
  split; [|split; [|split]].
  - intros row Hin. destruct (Hrows row Hin) as (ri & cells0 & Hri & _).
    split; [eauto|].
    revert Hin. clear -Hd. revert Hd.
    generalize [(IdxInt 0, SchemaEntry
                   (foldl (fun d0 s0 => dict_set (column s0) (schema_cell s0) d0) []
                          (default_row t)))].
    induction (table_rows t) as [|r rest IH]; intros acc Hd Hin; [inversion Hin|].
    simpl in Hd.
    destruct (_getIndices env t r) as [ri|e]; simpl in Hd; [|discriminate].
    destruct (row_cells (row_data r) []) as [cells|e] eqn:Hc; simpl in Hd; [|discriminate].
    apply elem_of_cons in Hin as [-> | Hin]; [|by apply (IH _ Hd)].
    by destruct (row_cells_spec _ _ _ Hc) as (Hall & _).
  - intros k. rewrite Hkeys. simpl. rewrite list_elem_of_singleton. tauto.
  - intros i row k Hl Hk Hlast.
    destruct (Hcells i row k Hl Hk Hlast) as (cells & Hc & Hget).
    exists cells. split; [exact Hget|].
    destruct (row_cells_spec _ _ _ Hc) as (Hall & ->). split.
    + intros c. rewrite foldl_dict_set_keys. simpl.
      split; [intros [Hin | ?]; [inversion Hin | done] | auto].
    + intros n s Hn Hlastcol.
      destruct (Hall s) as [dat Hdat]; [by eapply list_elem_of_lookup_2|].
      exists dat. split; [exact Hdat|].
      rewrite (foldl_dict_set_last column
                 (fun s0 => cell_value (st_type s0) (default (CInt 0) (st_data s0)))
                 _ _ n s Hn Hlastcol).
      by rewrite Hdat.
  - intros Hno. rewrite (Hkeep _ Hno). simpl. eexists. split; [reflexivity|]. split.
    + intros c. rewrite foldl_dict_set_keys. simpl.
      split; [intros [Hin | ?]; [inversion Hin | done] | auto].
    + intros n s Hn Hlastcol.
      rewrite (foldl_dict_set_last column schema_cell _ _ n s Hn Hlastcol).
      reflexivity.
Qed.

Lemma value_entries_witness :
  let env0 := spec_env Python3 10 [ASN_INTEGER; ASN_INTEGER] in
  let t := fst (addRow env0 int_index_table (PyList [Var (Integer32 1); Var (Integer32 2)])) in
  exists d cells,
    value env0 t = Ok d
    /\ dict_get (IdxStr "1.2") d = Some (RowEntry cells)
    /\ dict_get 2 cells = Some (TextVal "none")
    /\ dict_get 3 cells = Some (IntVal 0).
Proof.
  intros env0 t.
  destruct (value_entries env0 t _ eq_refl) as (_ & _ & Hcells & _).
  destruct (Hcells 0%nat (new_row env0 int_index_table [Integer32 1; Integer32 2])
                   (IdxStr "1.2") eq_refl eq_refl)
    as (cells & Hget & _ & Hcell).
  { intros [|j] row' Hlt Hj; [lia | discriminate]. }
  eexists. exists cells. split; [reflexivity|]. split; [exact Hget|].
  split.
  - destruct (Hcell 0%nat (mkStorage 2 ASN_OCTET_STR 1 (Some (CBytes "none"))) eq_refl)
      as (dat & [= <-] & Hv); [|exact Hv].
    intros [|[|n']] s' Hlt Hs'; [lia | | discriminate].
    injection Hs' as <-. discriminate.
  - destruct (Hcell 1%nat (mkStorage 3 ASN_INTEGER 0 (Some (CInt 0))) eq_refl)
      as (dat & [= <-] & Hv); [|exact Hv].
    intros [|[|n']] s' Hlt Hs'; [lia | lia | discriminate].
Defined.

(** ** Traps: type names, variables and what is sent *)

Lemma str_take_4_not_uinteger (s : string) :
  String.eqb (str_take 4 s) "uinteger" = false.
Proof.
  destruct (String.eqb_spec (str_take 4 s) "uinteger") as [Heq | _]; [|reflexivity].
  apply (f_equal String.length) in Heq. rewrite length_str_take in Heq.
  change (String.length "uinteger") with 8%nat in Heq.
  pose proof (Nat.le_min_l 4 (String.length s)). lia.
Qed.

Lemma humanToASNtype_long (c c' : ascii) (s : string) :
  exists ty,
    _humanToASNtype (Some (String c (String c' s))) = Ok ty
    /\ (ty = c \/ ty ∈ ["x"; "o"; "u"; "a"; "d"; "C"; "i"; "b"]%char)
    /\ (ty = "3"%char -> c = "3"%char).
Proof.
  unfold _humanToASNtype. simpl default. cbv zeta.
  change (1 <? String.length (String c (String c' s)))%nat with true. cbv iota.
  rewrite str_take_4_not_uinteger.
  repeat match goal with
         | |- context [if ?b then _ else _] => destruct b
         end;
    (eexists; split; [reflexivity|]; split;
     [first [by left | right; set_solver] | first [discriminate | done]]).
Qed.

(** X18. The type character of a variable. No name means [=]; a
    one-character name is its own type character; the empty name is the
    only one that raises. A longer name gives one of the eight characters
    of the table or else its own first character; the comparison of four
    characters with [uinteger] never holds, so no name is translated to
    [3], and [uinteger] ends up as [u]. *)
Theorem humanToASNtype_result :
  _humanToASNtype None = Ok "="%char
  /\ (forall c, _humanToASNtype (Some (String c EmptyString)) = Ok c)
  /\ (forall s, raised (_humanToASNtype (Some s)) = true <-> s = EmptyString)
  /\ (forall c s ty,
         _humanToASNtype (Some (String c s)) = Ok ty ->
         ty = c \/ ty ∈ ["x"; "o"; "u"; "a"; "d"; "C"; "i"; "b"]%char)
  /\ (forall c s, _humanToASNtype (Some (String c s)) = Ok "3"%char -> c = "3"%char)
  /\ _humanToASNtype (Some "uinteger") = Ok "u"%char.
Proof.
  split; [reflexivity|]. split; [reflexivity|]. split; [|split; [|split]].
  - intros [|c [|c' s]]; [done | split; discriminate |].
    destruct (humanToASNtype_long c c' s) as (ty & -> & _). split; discriminate.
  - intros c [|c' s] ty; [intros [= <-]; by left|].
    destruct (humanToASNtype_long c c' s) as (ty' & -> & H & _). by intros [= <-].
  - intros c [|c' s]; [by intros [= <-]|].
    destruct (humanToASNtype_long c c' s) as (ty' & -> & _ & H). intros [= ->]. by apply H.
  - reflexivity.
Qed.

Lemma add_cases (env : environment) (a : netsnmpAgent) (st : trap_state)
    (varOID varData : string) (varType : option string) :
  (raised (snd (add env a st varOID varData varType)) = true
   /\ fst (add env a st varOID varData varType) = st)
  \/ exists ty varOid ret calls,
      _humanToASNtype varType = Ok ty
      /\ _prepareOID env a varOID = Ok varOid
      /\ snd (add env a st varOID varData varType) = Ok ret
      /\ add_var_calls (fst (add env a st varOID varData varType))
         = (add_var_calls st ++ calls)%list
      /\ (calls = [(varOid, ty, varData)] /\ printed (fst (add env a st varOID varData varType))
                                             = printed st
          \/ calls = [(varOid, ty, varData); (varOid, "="%char, varData)]
             /\ ty <> "="%char
             /\ exists line, printed (fst (add env a st varOID varData varType))
                             = (printed st ++ [line])%list)
      /\ (ret = 0 ->
          exists vb, last calls = Some vb
                     /\ variables (fst (add env a st varOID varData varType))
                        = (variables st ++ [vb])%list)
      /\ (ret <> 0 -> variables (fst (add env a st varOID varData varType)) = variables st)
      /\ sent (fst (add env a st varOID varData varType)) = sent st.
Proof.
  unfold add. destruct (_humanToASNtype varType) as [ty|e]; [|by left].
  destruct (_prepareOID env a varOID) as [varOid|e]; [|by left].
  right. unfold call_snmp_add_var. simpl.
  destruct (decide (snmp_add_var env (variables st) varOid ty varData = 0)) as [H0 | H0].
  - exists ty, varOid, (snmp_add_var env (variables st) varOid ty varData),
      [(varOid, ty, varData)]. simpl.
    repeat split; [by left | eauto | intros; contradiction].
  - destruct (Ascii.eqb_spec ty "=") as [-> | Hty]; simpl.
    + exists "="%char, varOid, (snmp_add_var env (variables st) varOid "=" varData),
        [(varOid, "="%char, varData)]. simpl.
      repeat split; [by left | intros; contradiction].
    + exists ty, varOid, (snmp_add_var env (variables st) varOid "=" varData),
        [(varOid, ty, varData); (varOid, "="%char, varData)]. simpl.
      split; [reflexivity|]. split; [reflexivity|]. split; [reflexivity|].
      split; [by rewrite <- app_assoc|].
      split; [right; split; [reflexivity|]; split; [exact Hty | eauto]|].
      case_decide as H1; (split; [|split]); try reflexivity; try (intros; contradiction); eauto.
Qed.


Lemma add_entries_sent (env : environment) (a : netsnmpAgent) (st : trap_state)
    (traps : list trap_entry) :
  sent (fst (add_entries env a st traps)) = sent st.
Proof.
  revert st. induction traps as [|entry rest IH]; intros st; simpl; [reflexivity|].
  destruct (entry_oid entry) as [varOid|]; [|reflexivity].
  destruct (entry_val entry) as [varData|]; [|reflexivity].
  pose proof (sent_add env a st varOid varData (entry_type entry)) as Hs.
  destruct (add env a st varOid varData (entry_type entry)) as [st' [ret|e]]; simpl in *.
  - by rewrite IH.
  - exact Hs.
Qed.

Lemma variables_add_prefix (env : environment) (a : netsnmpAgent) (st : trap_state)
    (varOID varData : string) (varType : option string) :
  variables st `prefix_of` variables (fst (add env a st varOID varData varType)).
Proof.
  destruct (add_cases env a st varOID varData varType)
    as [[_ ->] | (ty & varOid & ret & calls & _ & _ & _ & _ & _ & H0 & Hn0 & _)]; [done|].
  destruct (decide (ret = 0)) as [Hz | Hnz].
  - destruct (H0 Hz) as (vb & _ & ->). by apply prefix_app_r.
  - by rewrite (Hn0 Hnz).
Qed.

Lemma variables_add_entries_prefix (env : environment) (a : netsnmpAgent) (st : trap_state)
    (traps : list trap_entry) :
  variables st `prefix_of` variables (fst (add_entries env a st traps)).
Proof.
  revert st. induction traps as [|entry rest IH]; intros st; simpl; [done|].
  destruct (entry_oid entry) as [varOid|]; [|done].
  destruct (entry_val entry) as [varData|]; [|done].
  pose proof (variables_add_prefix env a st varOid varData (entry_type entry)) as Hp.
  destruct (add env a st varOid varData (entry_type entry)) as [st' [ret|e]]; simpl in *.
  - etrans; [exact Hp | apply IH].
  - exact Hp.
Qed.

(** X20. One trap or none. [send_trap] hands exactly one trap to the
    engine when it returns and none when it raises. With an [oid] the
    trap carries the variables of the PDU as they stand at the end, among
    them the trap OID with type [=], and goes out as a v3 trap exactly
    when a non-empty context is given; without an [oid] an easy trap is
    sent and the engine is never asked to add a variable. *)
Theorem send_trap_sends_one_or_none (env : environment) (a : netsnmpAgent) (args : list Z)
    (kw : trap_kwargs) :
  let r := send_trap env a args kw in
  (raised (snd r) = true /\ sent (fst r) = []
   \/ snd r = Ok tt /\ exists tr, sent (fst r) = [tr])
  /\ (forall tr, sent (fst r) = [tr] ->
        if truthy_str (kw_oid kw) then
          (exists trapOid,
              _prepareOID env a "SNMPv2-MIB::snmpTrapOID.0" = Ok trapOid
              /\ (trapOid, "="%char, default EmptyString (kw_oid kw)) ∈ variables (fst r))
          /\ tr = (if truthy_str (kw_context kw)
                   then V3Trap (variables (fst r)) (default EmptyString (kw_context kw))
                   else V2Trap (variables (fst r)))
        else (exists trap specific, tr = EasyTrap trap specific)
             /\ add_var_calls (fst r) = [] /\ variables (fst r) = []).
Proof.
  intros r. subst r. unfold send_trap.
  destruct (truthy_str (kw_oid kw)) eqn:Hoid.
  - set (oid := default EmptyString (kw_oid kw)).
    assert (Hup : sent (fst (add_uptime env a new_pdu kw)) = []).
    { unfold add_uptime. destruct (truthy_int (kw_uptime kw)); [|reflexivity].
      by rewrite sent_add. }
    destruct (add_uptime env a new_pdu kw) as [pdu0 [r0|e]]; simpl in Hup;
      [|split; [left; split; [reflexivity | simpl; congruence]
              | intros tr Htr; simpl in Htr; congruence]].
    pose proof (sent_add env a pdu0 "SNMPv2-MIB::snmpTrapOID.0" oid (Some "=")) as Hs1.
    pose proof (add_cases env a pdu0 "SNMPv2-MIB::snmpTrapOID.0" oid (Some "=")) as Hc.
    destruct (add env a pdu0 "SNMPv2-MIB::snmpTrapOID.0" oid (Some "=")) as [pdu1 [ret|e]];
      simpl in Hs1, Hc;
      [|split; [left; split; [reflexivity | simpl; congruence]
              | intros tr Htr; simpl in Htr; congruence]].
    destruct (Z.eqb_spec ret 0) as [-> | Hne]; simpl;
      [|split; [left; split; [reflexivity | simpl; congruence]
              | intros tr Htr; simpl in Htr; congruence]].
    pose proof (add_entries_sent env a pdu1 (default [] (kw_traps kw))) as Hs2.
    pose proof (variables_add_entries_prefix env a pdu1 (default [] (kw_traps kw))) as Hp.
    destruct (add_entries env a pdu1 (default [] (kw_traps kw))) as [pdu2 [u|e]];
      simpl in Hs2, Hp;
      [|split; [left; split; [reflexivity | simpl; congruence]
              | intros tr Htr; simpl in Htr; congruence]].
    assert (Hin : exists trapOid,
               _prepareOID env a "SNMPv2-MIB::snmpTrapOID.0" = Ok trapOid
               /\ (trapOid, "="%char, oid) ∈ variables pdu2).
    { destruct Hc as [[Hr _] | (ty & varOid & ret & calls & Hty & Hprep & Hret & _ & Hshape
                                & H0 & _)]; [discriminate|].
      injection Hret as <-. injection Hty as <-.
      destruct (H0 eq_refl) as (vb & Hlast & Hv).
      destruct Hshape as [[-> _] | (_ & Hne & _)]; [|done].
      injection Hlast as <-. exists varOid. split; [exact Hprep|].
      destruct Hp as [rest ->]. rewrite Hv. set_solver. }
    destruct (truthy_str (kw_context kw)); simpl; rewrite Hs2, Hs1, Hup; simpl.
    + split; [right; eauto|]. intros tr [= <-]. split; [exact Hin | reflexivity].
    + split; [right; eauto|]. intros tr [= <-]. split; [exact Hin | reflexivity].
  - destruct (if truthy_int (kw_trap kw) && truthy_int (kw_specific kw)
              then (kw_trap kw, kw_specific kw)
              else match args with
                   | [t; s] => (Some t, Some s)
                   | _ => (kw_trap kw, kw_specific kw)
                   end) as [trap specific].
    simpl. split; [right; eauto|]. intros tr [= <-]. eauto.
Qed.

Lemma add_accepted (env : environment) (a : netsnmpAgent) (st : trap_state)
    (varOID varData : string) (varType : option string) (ty : ascii) (varOid : list Z) :
  _humanToASNtype varType = Ok ty ->
  _prepareOID env a varOID = Ok varOid ->
  snmp_add_var env (variables st) varOid ty varData = 0 ->
  add env a st varOID varData varType
  = (mkTrapState (variables st ++ [(varOid, ty, varData)])%list
                 (add_var_calls st ++ [(varOid, ty, varData)])%list
                 (printed st) (sent st),
     Ok 0).
Proof.
  intros Hty Hoid H0. unfold add, call_snmp_add_var. rewrite Hty, Hoid, H0. reflexivity.
Qed.

(** X21. A trap whose variables the engine accepts. When there is no
    uptime, the trap OID and the OID of every entry translate, every
    entry has a value and a type name that translates, and the engine
    accepts every variable at the first call, [send_trap] sends one trap
    whose variables are the trap OID followed by the entries in the order
    given, each entry with its own type, after exactly one engine call
    per variable and without a debug line. *)
Theorem send_trap_variables_in_order (env : environment) (a : netsnmpAgent)
    (args : list Z) (kw : trap_kwargs) (c : ascii) (oid : string) (trapOid : list Z)
    (entries : list trap_entry) (vbs : list varbind) :
  kw_oid kw = Some (String c oid) ->
  truthy_int (kw_uptime kw) = false ->
  default [] (kw_traps kw) = entries ->
  _prepareOID env a "SNMPv2-MIB::snmpTrapOID.0" = Ok trapOid ->
  Forall2 (fun e vb =>
             exists o v, entry_oid e = Some o /\ entry_val e = Some v
                         /\ _humanToASNtype (entry_type e) = Ok (snd (fst vb))
                         /\ _prepareOID env a o = Ok (fst (fst vb))
                         /\ snd vb = v) entries vbs ->
  (forall vars o ty v, snmp_add_var env vars o ty v = 0) ->
  let vars := (trapOid, "="%char, String c oid) :: vbs in
  send_trap env a args kw
  = (mkTrapState vars vars []
       [if truthy_str (kw_context kw)
        then V3Trap vars (default EmptyString (kw_context kw))
        else V2Trap vars],
     Ok tt).
Proof.
  intros Hoid Hup Hentries Htrap Hall Hengine vars.
  assert (Hloop : forall st,
             add_entries env a st entries
             = (mkTrapState (variables st ++ vbs)%list (add_var_calls st ++ vbs)%list
                            (printed st) (sent st), Ok tt)).
  { clear -Hall Hengine.
    induction Hall as [|e [[o' ty'] v'] es vbs' (o & v & Ho & Hv & Hty & Hprep & Hsnd) _ IH];
      intros st; simpl.
    - rewrite !app_nil_r. by destruct st.
    - rewrite Ho, Hv. simpl in *. subst v'.
      rewrite (add_accepted env a st o v (entry_type e) ty' o' Hty Hprep (Hengine _ _ _ _)).
      rewrite IH. simpl. by rewrite <- !app_assoc. }
  unfold send_trap, add_uptime. rewrite Hoid, Hup. simpl truthy_str. cbv iota.
  simpl default at 1.
  rewrite (add_accepted env a new_pdu "SNMPv2-MIB::snmpTrapOID.0" (String c oid) (Some "=")
             "="%char trapOid eq_refl Htrap (Hengine _ _ _ _)).
  simpl negb. cbv iota. rewrite Hentries, Hloop. simpl.
  by destruct (truthy_str (kw_context kw)).
Qed.

Lemma send_trap_variables_in_order_witness :
  let env0 := spec_env Python3 0 [] in
  let a := new_agent "agent" None true false in
  let kw := mkKwargs None None (Some "1.3.6.1.4")
              (Some [mkEntry (Some "1.3.6.1.5") (Some "12") (Some "integer");
                     mkEntry (Some "1.3.6.1.6") (Some "up") None]) (Some "ctx") None in
  let vars := [([1; 3; 6; 1; 6; 3; 1; 1; 4; 1; 0], "="%char, "1.3.6.1.4");
               ([1; 3; 6; 1; 5], "i"%char, "12"); ([1; 3; 6; 1; 6], "="%char, "up")] in
  send_trap env0 a [] kw = (mkTrapState vars vars [] [V3Trap vars "ctx"], Ok tt).
Proof.
  intros env0 a kw vars.
  apply (send_trap_variables_in_order env0 a [] kw "1" ".3.6.1.4"
           [1; 3; 6; 1; 6; 3; 1; 1; 4; 1; 0]
           [mkEntry (Some "1.3.6.1.5") (Some "12") (Some "integer");
            mkEntry (Some "1.3.6.1.6") (Some "up") None]
           [([1; 3; 6; 1; 5], "i"%char, "12"); ([1; 3; 6; 1; 6], "="%char, "up")]
           eq_refl eq_refl eq_refl eq_refl).
  - repeat constructor; eexists _, _; repeat split.
  - reflexivity.
Defined.

(** ** Construction of the agent *)

Section Setup.

Variable env : environment.
Variable lib : libnsa.

Lemma delivered_app (before p q : list setup_call) :
  delivered lib before (p ++ q)%list
  = (delivered lib before p ++ delivered lib (before ++ p)%list q)%list.
Proof.
  revert before. induction p as [|c p IH]; intros before; simpl.
  - by rewrite app_nil_r.
  - rewrite IH, <- !app_assoc. reflexivity.
Qed.

Lemma all_ok_app (before p q : list setup_call) :
  all_ok lib before (p ++ q)%list
  <-> all_ok lib before p /\ all_ok lib (before ++ p)%list q.
Proof.
  revert before. induction p as [|c p IH]; intros before; simpl.
  - rewrite app_nil_r. tauto.
  - rewrite IH, <- !app_assoc. simpl. tauto.
Qed.

Lemma made_after_calls (st : setup_state) (calls : list setup_call) :
  made (after_calls env lib st calls) = (made st ++ calls)%list.
Proof. reflexivity. Qed.

Lemma after_calls_nil (st : setup_state) : after_calls env lib st [] = st.
Proof. destruct st as [calls a]. unfold after_calls. simpl. by rewrite app_nil_r. Qed.

Lemma after_calls_app (st : setup_state) (p q : list setup_call) :
  after_calls env lib (after_calls env lib st p) q = after_calls env lib st (p ++ q)%list.
Proof.
  unfold after_calls. simpl. by rewrite delivered_app, foldl_app, app_assoc.
Qed.

Lemma libcall_eq (c : setup_call) (st : setup_state) :
  libcall env lib c st = (after_calls env lib st [c], Ok (snd (lib (made st) c))).
Proof.
  unfold libcall, after_calls. simpl. destruct (lib (made st) c) as [cbs rc]. simpl.
  by rewrite app_nil_r.
Qed.

Lemma checked_eq (c : setup_call) (failed : Z -> bool) (msg : string) (st : setup_state) :
  checked env lib c failed msg st
  = (after_calls env lib st [c],
     if failed (snd (lib (made st) c)) then Raise (netsnmpAgentException msg) else Ok tt).
Proof.
  unfold checked, setup_bind. rewrite libcall_eq. unfold setup_ret.
  by destruct (failed (snd (lib (made st) c))).
Qed.

Lemma stops_ret {A} (x : A) : stops_at_first_failure env lib (setup_ret x) [] x.
Proof. intros st. left. unfold setup_ret. by rewrite after_calls_nil. Qed.

Lemma stops_later {A B} (m : setup B) (k : setup A) (p plan : list setup_call) (x : A) :
  (forall st,
      ((exists y, m st = (after_calls env lib st p, Ok y)) /\ all_ok lib (made st) p)
      \/ exists before c rest msg,
          p = (before ++ c :: rest)%list
          /\ all_ok lib (made st) before
          /\ failed_code c (snd (lib (made st ++ before)%list c))
          /\ m st = (after_calls env lib st (before ++ [c])%list,
                     Raise (netsnmpAgentException msg))
          /\ (msg = "netsnmp_read_module({0}) failed!" <-> exists mib, c = read_mib mib)) ->
  stops_at_first_failure env lib k plan x ->
  stops_at_first_failure env lib (setup_bind m (fun _ => k)) (p ++ plan) x.
Proof.
  intros Hm Hk st. unfold setup_bind.
  destruct (Hm st) as [[[y ->] Hok]
                      | (before & c & rest & msg & -> & Hok & Hfail & -> & Hmsg)].
  - destruct (Hk (after_calls env lib st p))
      as [[-> Hok2] | (before & c & rest & msg & -> & Hok2 & Hfail & -> & Hmsg)];
      rewrite made_after_calls in *.
    + left. rewrite after_calls_app. split; [reflexivity|]. by apply all_ok_app.
    + right. exists (p ++ before)%list, c, rest, msg.
      split; [by rewrite <- app_assoc|]. split; [by apply all_ok_app|].
      split; [by rewrite app_assoc|].
      split; [by rewrite after_calls_app, <- app_assoc | exact Hmsg].
  - right. exists before, c, (rest ++ plan)%list, msg.
    split; [by rewrite <- app_assoc|]. auto.
Qed.

Lemma stops_checked {A} (c : setup_call) (msg : string) (k : setup A)
    (plan : list setup_call) (x : A) :
  match c with read_mib _ | snmp_enable_calllog | netsnmp_init_mib => False | _ => True end ->
  msg <> "netsnmp_read_module({0}) failed!" ->
  stops_at_first_failure env lib k plan x ->
  stops_at_first_failure env lib
    (setup_bind (checked env lib c (fun rc => negb (rc =? 0)%Z) msg) (fun _ => k))
    (c :: plan) x.
Proof.
  intros Hc Hmsg Hk. apply (stops_later _ k [c] plan x); [|exact Hk].
  intros st. rewrite checked_eq.
  destruct (Z.eqb_spec (snd (lib (made st) c)) 0) as [H0 | H0]; simpl.
  - left. split; [eauto|]. split; [|exact I]. destruct c; simpl; tauto.
  - right. exists [], c, [], msg. rewrite app_nil_r. split; [reflexivity|].
    split; [exact I|]. split; [by destruct c|]. split; [reflexivity|].
    split; [intros ->; done | intros [mib ->]; done].
Qed.

Lemma stops_libcall {A B} (c : setup_call) (f : Z -> B) (k : setup A)
    (plan : list setup_call) (x : A) :
  (forall rc, ~ failed_code c rc) ->
  stops_at_first_failure env lib k plan x ->
  stops_at_first_failure env lib
    (setup_bind (setup_bind (libcall env lib c) (fun rc => setup_ret (f rc))) (fun _ => k))
    (c :: plan) x.
Proof.
  intros Hc Hk. apply (stops_later _ k [c] plan x); [|exact Hk].
  intros st. left. unfold setup_bind. rewrite libcall_eq. unfold setup_ret.
  split; [eauto|]. split; [apply Hc | exact I].
Qed.

Lemma stops_when {A} (b : bool) (m : setup unit) (p : list setup_call) (k : setup A)
    (plan : list setup_call) (x : A) :
  stops_at_first_failure env lib (setup_bind m (fun _ => k)) (p ++ plan) x ->
  stops_at_first_failure env lib k plan x ->
  stops_at_first_failure env lib
    (setup_bind (if b then m else setup_ret tt) (fun _ => k))
    ((if b then p else []) ++ plan) x.
Proof.
  intros Hm Hk. destruct b; [exact Hm|]. intros st. apply Hk.
Qed.

Lemma stops_read_mibs (mibs : list string) :
  stops_at_first_failure env lib (read_mibs env lib mibs) (map read_mib mibs) tt.
Proof.
  induction mibs as [|mib rest IH]; simpl; [apply stops_ret|].
  apply (stops_later _ _ [read_mib mib]); [|exact IH].
  intros st. rewrite checked_eq.
  destruct (Z.eqb_spec (snd (lib (made st) (read_mib mib))) 0) as [H0 | H0]; simpl.
  - right. exists [], (read_mib mib), [], "netsnmp_read_module({0}) failed!".
    rewrite app_nil_r. split; [reflexivity|]. split; [exact I|].
    split; [exact H0|]. split; [reflexivity|]. split; eauto.
  - left. split; [eauto|]. split; [exact H0 | exact I].
Qed.

Lemma init_net_snmp_stops (args : init_args) :
  stops_at_first_failure env lib (init_net_snmp env lib args) (setup_plan args) tt.
Proof.
  unfold init_net_snmp, setup_plan, not_success, SNMPERR_SUCCESS. cbv zeta.
  apply stops_checked; [exact I | discriminate|].
  apply (stops_later _ _ [snmp_enable_calllog]).
  { intros st. left. rewrite libcall_eq. split; [eauto|]. split; [tauto | exact I]. }
  apply stops_checked; [exact I | discriminate|].
  apply stops_checked; [exact I | discriminate|].
  assert (Hmib : stops_at_first_failure env lib
                   (setup_bind
                      (if arg_UseMIBFiles args
                       then setup_bind (libcall env lib netsnmp_init_mib)
                                       (fun _ => setup_ret tt)
                       else setup_ret tt)
                      (fun _ => if arg_UseMIBFiles args
                                then read_mibs env lib (mibfiles_list (arg_MIBFiles args))
                                else setup_ret tt))
                   (if arg_UseMIBFiles args
                    then netsnmp_init_mib :: map read_mib (mibfiles_list (arg_MIBFiles args))
                    else []) tt).
  { destruct (arg_UseMIBFiles args).
    - apply (stops_libcall netsnmp_init_mib (fun _ => tt)); [tauto | apply stops_read_mibs].
    - intros st. apply (stops_ret tt). }
  assert (Hinit : stops_at_first_failure env lib
                    (setup_bind (checked env lib (init_agent (arg_AgentName args))
                                   (fun rc => negb (rc =? 0)%Z) "init_agent() failed!")
                                (fun _ =>
                     setup_bind
                       (if arg_UseMIBFiles args
                        then setup_bind (libcall env lib netsnmp_init_mib)
                                        (fun _ => setup_ret tt)
                        else setup_ret tt)
                       (fun _ => if arg_UseMIBFiles args
                                 then read_mibs env lib (mibfiles_list (arg_MIBFiles args))
                                 else setup_ret tt)))
                    ([init_agent (arg_AgentName args)]
                     ++ (if arg_UseMIBFiles args
                         then netsnmp_init_mib
                              :: map read_mib (mibfiles_list (arg_MIBFiles args))
                         else [])) tt).
  { apply stops_checked; [exact I | discriminate | exact Hmib]. }
  apply stops_when; [apply stops_checked; [exact I | discriminate|]|];
    (apply stops_when; [apply stops_checked; [exact I | discriminate|]|]; exact Hinit).
Qed.

(** Creating the registry at the end changes nothing the callbacks of
    the set-up calls have left. *)
Lemma registry_after_calls (st : setup_state) (calls : list setup_call) :
  _objs (self st) = ∅ ->
  mkSetup (made (after_calls env lib st calls))
          (set_objs ∅ (self (after_calls env lib st calls)))
  = after_calls env lib st calls.
Proof.
  intros Hempty. unfold after_calls. cbn [made self]. f_equal.
  pose proof (same_config_foldl env (delivered lib (made st) calls) (self st))
    as (_ & _ & _ & _ & Hobjs & _).
  rewrite Hempty in Hobjs. revert Hobjs.
  generalize (foldl (deliver env) (self st) (delivered lib (made st) calls)).
  intros a Ha. destruct a. simpl in *. by subst.
Qed.

Lemma init_cases (insp : inspect_env) (args : init_args) :
  let st0 := mkSetup [] (new_agent (arg_AgentName args) (arg_MasterSocket args)
                                   (arg_UseMIBFiles args) (arg_LogHandler args)) in
  (all_ok lib [] (setup_plan args)
   /\ netsnmpAgent_init env lib insp args
      = (after_calls env lib st0 (setup_plan args),
         class_wrappers insp (vartype_classes insp)))
  \/ exists before c rest msg,
      setup_plan args = (before ++ c :: rest)%list
      /\ all_ok lib [] before
      /\ failed_code c (snd (lib before c))
      /\ netsnmpAgent_init env lib insp args
         = (after_calls env lib st0 (before ++ [c])%list, Raise (netsnmpAgentException msg))
      /\ (msg = "netsnmp_read_module({0}) failed!" <-> exists mib, c = read_mib mib).
Proof.
  intros st0. unfold netsnmpAgent_init. fold st0.
  destruct (init_net_snmp_stops args st0)
    as [[-> Hok] | (before & c & rest & msg & Hplan & Hok & Hfail & -> & Hmsg)].
  - left. split; [exact Hok|]. f_equal. by apply registry_after_calls.
  - right. exists before, c, rest, msg. auto.
Qed.

End Setup.

Lemma prefix_app_cases {A} (l pre post : list A) :
  l `prefix_of` (pre ++ post)%list ->
  l `prefix_of` pre \/ exists post', l = (pre ++ post')%list /\ post' `prefix_of` post.
Proof.
  revert l. induction pre as [|x pre IH]; intros l Hl; simpl in *.
  - right. eauto.
  - destruct l as [|y l]; [left; apply prefix_nil|].
    pose proof (prefix_cons_inv_1 _ _ _ _ Hl) as ->.
    apply prefix_cons_inv_2 in Hl.
    destruct (IH l Hl) as [Hp | (post' & -> & Hp)].
    + left. by apply prefix_cons.
    + right. eauto.
Qed.

Lemma init_trace_prefix (env : environment) (lib : libnsa) (insp : inspect_env)
    (args : init_args) :
  made (fst (netsnmpAgent_init env lib insp args)) `prefix_of` setup_plan args.
Proof.
  destruct (init_cases env lib insp args)
    as [[_ ->] | (before & c & rest & msg & -> & _ & _ & -> & _)]; [done|].
  simpl. exists rest. by rewrite <- app_assoc.
Qed.

Lemma class_wrappers_names (insp : inspect_env) (classes : list string)
    (wrappers : list (string * cval)) :
  class_wrappers insp classes = Ok wrappers -> map fst wrappers = classes.
Proof.
  revert wrappers. induction classes as [|cls rest IH]; intros wrappers; simpl.
  - by intros [= <-].
  - destruct (getargspec insp) as [f|]; [|discriminate].
    destruct (f cls) as [spec|e]; simpl; [|discriminate].
    destruct (default_initval spec) as [d|e]; simpl; [|discriminate].
    destruct (class_wrappers insp rest) as [ws|e]; simpl; [|discriminate].
    intros [= <-]. simpl. by rewrite (IH ws).
Qed.

(** A log message of a priority other than [Info] leaves the status
    alone unless the status is [FIRSTCONNECT]. *)
Lemma status_kept_by_log (a : netsnmpAgent) (p : log_priority) (msg : string) :
  _status a <> FIRSTCONNECT -> p <> LOG_INFO ->
  _status (_py_log_handler a p msg) = _status a.
Proof.
  intros Hs Hp. unfold _py_log_handler.
  destruct (failure_branch (priorities p) (msgtext_of msg)).
  - rewrite decide_False by exact Hs. apply status_forward.
  - destruct p; simpl; try apply status_forward. congruence.
Qed.

Lemma registration_kept_by_logs (env : environment) (cbs : list callback)
    (a : netsnmpAgent) :
  _status a = REGISTRATION ->
  (forall cb, cb ∈ cbs -> exists p msg, cb = LogCallback p msg /\ p <> LOG_INFO) ->
  _status (foldl (deliver env) a cbs) = REGISTRATION.
Proof.
  revert a. induction cbs as [|cb cbs IH]; intros a Ha Hcbs; simpl; [exact Ha|].
  apply IH.
  - destruct (Hcbs cb) as (p & msg & -> & Hp); [left|]. simpl.
    rewrite status_kept_by_log; [exact Ha | congruence | exact Hp].
  - intros cb' Hin. apply Hcbs. by right.
Qed.

(** X22. The constructor. [__init__] makes its net-snmp calls in one
    fixed order: the two callback registrations around the enabling of
    callback logging, the AgentX role, the socket and the persistence
    directory when a non-empty one is given, [init_agent], and with
    [UseMIBFiles] the MIB parser and the MIB files in the order given. It
    stops at the first checked call that reports failure, which is then
    the last call made, and raises. When no call fails, it goes on to
    define the class wrappers and returns or raises as that loop does; on
    an interpreter without [inspect.getargspec] this is an
    [AttributeError] as soon as there is a class to wrap. The object is
    left as the callbacks delivered during the calls have made it: its
    configuration is that of the arguments and its registry is empty;
    its status is [REGISTRATION] if the callbacks were log messages of
    priorities other than [Info], and nothing has reached the sink if
    there were none. *)
Theorem init_call_sequence (env : environment) (lib : libnsa) (insp : inspect_env)
    (args : init_args) :
  let st0 := mkSetup [] (new_agent (arg_AgentName args) (arg_MasterSocket args)
                                   (arg_UseMIBFiles args) (arg_LogHandler args)) in
  let r := netsnmpAgent_init env lib insp args in
  made (fst r) `prefix_of` setup_plan args
  /\ fst r = after_calls env lib st0 (made (fst r))
  /\ (forall wrappers, snd r = Ok wrappers ->
        made (fst r) = setup_plan args
        /\ all_ok lib [] (setup_plan args)
        /\ class_wrappers insp (vartype_classes insp) = Ok wrappers
        /\ map fst wrappers = vartype_classes insp)
  /\ (forall e, snd r = Raise e ->
        (exists before c msg,
            made (fst r) = (before ++ [c])%list
            /\ all_ok lib [] before
            /\ failed_code c (snd (lib before c))
            /\ e = netsnmpAgentException msg)
        \/ (made (fst r) = setup_plan args
            /\ all_ok lib [] (setup_plan args)
            /\ class_wrappers insp (vartype_classes insp) = Raise e))
  /\ (all_ok lib [] (setup_plan args) ->
      snd r = class_wrappers insp (vartype_classes insp)
      /\ (getargspec insp = None -> vartype_classes insp <> [] ->
          snd r = Raise AttributeError))
  /\ (_objs (self (fst r)) = ∅
      /\ AgentName (self (fst r)) = arg_AgentName args
      /\ MasterSocket (self (fst r)) = arg_MasterSocket args
      /\ UseMIBFiles (self (fst r)) = arg_UseMIBFiles args
      /\ LogHandler (self (fst r)) = arg_LogHandler args
      /\ init_snmp_calls (self (fst r)) = 0%nat)
  /\ ((forall cb, cb ∈ delivered lib [] (made (fst r)) ->
                  exists p msg, cb = LogCallback p msg /\ p <> LOG_INFO) ->
      _status (self (fst r)) = REGISTRATION)
  /\ (delivered lib [] (made (fst r)) = [] -> sink (self (fst r)) = []).
Proof.
  intros st0 r.
  assert (Hstate : fst r = after_calls env lib st0 (made (fst r))).
  { subst r. destruct (init_cases env lib insp args)
      as [[_ ->] | (before & c & rest & msg & _ & _ & _ & -> & _)]; reflexivity. }
  split; [apply init_trace_prefix|]. split; [exact Hstate|].
  split; [|split; [|split; [|split; [|split]]]].
  - intros wrappers Hres. subst r.
    destruct (init_cases env lib insp args)
      as [[Hok Heq] | (before & c & rest & msg & _ & _ & _ & Heq & _)];
      rewrite Heq in *; [|discriminate].
    simpl in Hres. split; [reflexivity|]. split; [exact Hok|]. split; [exact Hres|].
    exact (class_wrappers_names insp _ _ Hres).
  - intros e Hres. subst r.
    destruct (init_cases env lib insp args)
      as [[Hok Heq] | (before & c & rest & msg & _ & Hok & Hfail & Heq & _)];
      rewrite Heq in *; simpl in Hres.
    + right. auto.
    + left. injection Hres as <-. exists before, c, msg. auto.
  - intros Hok. subst r.
    assert (Hres : snd (netsnmpAgent_init env lib insp args)
                   = class_wrappers insp (vartype_classes insp)).
    { destruct (init_cases env lib insp args)
        as [[_ ->] | (before & c & rest & msg & Hplan & _ & Hfail & _ & _)]; [reflexivity|].
      exfalso. rewrite Hplan in Hok. apply all_ok_app in Hok as [_ [Hc _]].
      by apply Hc. }
    split; [exact Hres|]. intros Hnone Hcls. rewrite Hres.
    destruct (vartype_classes insp); [done|]. simpl. by rewrite Hnone.
  - rewrite Hstate. unfold after_calls. cbn [self].
    pose proof (same_config_foldl env (delivered lib (made st0) (made (fst r))) (self st0))
      as (Hn & Hs & Hu & Hl & Ho & Hc).
    rewrite Hn, Hs, Hu, Hl, Ho, Hc. repeat split.
  - intros Hcbs. rewrite Hstate. unfold after_calls. cbn [self].
    by apply registration_kept_by_logs.
  - intros Hnone. rewrite Hstate. unfold after_calls. cbn [self].
    change (made st0) with (@nil setup_call). by rewrite Hnone.
Qed.

(** X23. MIB files. Without [UseMIBFiles] the constructor neither
    initialises the MIB parser nor reads a file, whatever [MIBFiles]
    holds. A file is read only if it is among [MIBFiles], and only after
    the parser was initialised; a single name given instead of a list is
    read as one file, the empty name included. When the constructor
    stops at a file that could not be read, the exception carries the
    text [netsnmp_read_module({0}) failed!] with the placeholder left in
    it, whichever file it was; this text comes from no other call. *)
Theorem init_mib_files (env : environment) (lib : libnsa) (insp : inspect_env)
    (args : init_args) :
  let r := netsnmpAgent_init env lib insp args in
  let unreadable := netsnmpAgentException "netsnmp_read_module({0}) failed!" in
  (arg_UseMIBFiles args = false ->
   forall c, c ∈ made (fst r) -> c <> netsnmp_init_mib /\ forall mib, c <> read_mib mib)
  /\ (forall mib, read_mib mib ∈ made (fst r) ->
        arg_UseMIBFiles args = true
        /\ mib ∈ mibfiles_list (arg_MIBFiles args)
        /\ exists before after, made (fst r) = (before ++ netsnmp_init_mib :: after)%list
                                /\ read_mib mib ∈ after)
  /\ (forall mib, arg_UseMIBFiles args = true -> arg_MIBFiles args = OneMIBFile mib ->
                  all_ok lib [] (setup_plan args) -> read_mib mib ∈ made (fst r))
  /\ (forall before mib,
        made (fst r) = (before ++ [read_mib mib])%list ->
        snd (lib before (read_mib mib)) = 0 ->
        snd r = Raise unreadable)
  /\ (snd r = Raise unreadable ->
      (exists before mib, made (fst r) = (before ++ [read_mib mib])%list
                          /\ snd (lib before (read_mib mib)) = 0)
      \/ class_wrappers insp (vartype_classes insp) = Raise unreadable).
Proof.
  intros r unreadable. subst r.
  assert (Hmib : forall mib, read_mib mib ∈ made (fst (netsnmpAgent_init env lib insp args)) ->
             arg_UseMIBFiles args = true
             /\ mib ∈ mibfiles_list (arg_MIBFiles args)
             /\ exists before after,
                 made (fst (netsnmpAgent_init env lib insp args))
                 = (before ++ netsnmp_init_mib :: after)%list
                 /\ read_mib mib ∈ after).
  { intros mib Hin. pose proof (init_trace_prefix env lib insp args) as Hp.
    unfold setup_plan in Hp. rewrite !app_assoc in Hp.
    apply prefix_app_cases in Hp as [Hp | (post & Heq & Hp)].
    - exfalso. pose proof (elem_of_prefix _ _ _ Hin Hp) as Hin'.
      destruct (truthy_str (arg_MasterSocket args)), (truthy_str (arg_PersistenceDir args));
        rewrite ?elem_of_app, ?elem_of_cons, ?elem_of_nil in Hin'; intuition discriminate.
    - rewrite Heq in *. clear Heq.
      apply elem_of_app in Hin as [Hin | Hin].
      { exfalso.
        destruct (truthy_str (arg_MasterSocket args)), (truthy_str (arg_PersistenceDir args));
          rewrite ?elem_of_app, ?elem_of_cons, ?elem_of_nil in Hin; intuition discriminate. }
      destruct (arg_UseMIBFiles args).
      + destruct post as [|c post]; [inversion Hin|].
        pose proof (prefix_cons_inv_1 _ _ _ _ Hp) as ->.
        apply prefix_cons_inv_2 in Hp.
        apply elem_of_cons in Hin as [Hin | Hin]; [discriminate|].
        split; [reflexivity|]. split.
        * pose proof (elem_of_prefix _ _ _ Hin Hp) as Hin'.
          apply list_elem_of_fmap in Hin' as (mib' & [= ->] & Hm). exact Hm.
        * eauto.
      + apply prefix_nil_inv in Hp as ->. inversion Hin. }
  split; [|split; [exact Hmib | split; [|split]]].
  - intros Huse c Hin.
    pose proof (elem_of_prefix _ _ _ Hin (init_trace_prefix env lib insp args)) as Hin'.
    unfold setup_plan in Hin'. rewrite Huse, app_nil_r in Hin'.
    destruct (truthy_str (arg_MasterSocket args)), (truthy_str (arg_PersistenceDir args));
      rewrite ?elem_of_app, ?elem_of_cons, ?elem_of_nil in Hin';
      (split; [intros -> | intros mib ->]; intuition discriminate).
  - intros mib Huse Hone Hok.
    destruct (init_cases env lib insp args)
      as [[_ ->] | (before & c & rest & msg & Hplan & _ & Hfail & _ & _)].
    + simpl. unfold setup_plan. rewrite Huse, Hone. simpl mibfiles_list. simpl map.
      rewrite !elem_of_app, !elem_of_cons. intuition.
    + exfalso. rewrite Hplan in Hok. apply all_ok_app in Hok as [_ [Hc _]]. by apply Hc.
  - intros before mib Hmade Hrc.
    destruct (init_cases env lib insp args)
      as [[Hok Heq] | (before' & c & rest & msg & _ & _ & _ & Heq & Hmsg)];
      rewrite Heq in *; simpl in Hmade.
    + exfalso. rewrite Hmade in Hok. apply all_ok_app in Hok as [_ [Hc _]].
      by apply Hc.
    + apply app_inj_tail in Hmade as [-> ->]. simpl. do 2 f_equal.
      apply Hmsg. eauto.
  - intros Hres.
    destruct (init_cases env lib insp args)
      as [[Hok Heq] | (before & c & rest & msg & _ & _ & Hfail & Heq & Hmsg)];
      rewrite Heq in *; simpl in Hres.
    + by right.
    + left. injection Hres as ->.
      destruct (proj1 Hmsg eq_refl) as [mib ->]. exists before, mib. auto.
Qed.

(** ** [enum] *)

Lemma dict_set_fresh {K V} `{EqDecision K} (k : K) (v : V) (d : list (K * V)) :
  k ∉ map fst d -> dict_set k v d = (d ++ [(k, v)])%list.
Proof.
  induction d as [|[k' v'] d IH]; simpl; [reflexivity|].
  rewrite not_elem_of_cons. intros [Hne Hnin].
  rewrite decide_False by exact Hne. by rewrite IH.
Qed.

Lemma foldl_dict_set_fresh {K V X} `{EqDecision K} (key : X -> K) (val : X -> V)
    (l : list X) (acc : list (K * V)) :
  NoDup (map key l) ->
  (forall x, x ∈ l -> key x ∉ map fst acc) ->
  foldl (fun d x => dict_set (key x) (val x) d) acc l
  = (acc ++ map (fun x => (key x, val x)) l)%list.
Proof.
  revert acc. induction l as [|x l IH]; intros acc Hnd Hfresh; simpl.
  - by rewrite app_nil_r.
  - apply NoDup_cons in Hnd as [Hx Hnd].
    rewrite dict_set_fresh by (apply Hfresh; left).
    rewrite IH; [by rewrite <- app_assoc | exact Hnd |].
    intros y Hy. rewrite map_app. simpl. rewrite elem_of_app, list_elem_of_singleton.
    intros [Hin | Heq].
    + by apply (Hfresh y); [right|].
    + apply Hx. rewrite <- Heq. apply list_elem_of_fmap. eauto.
Qed.

Lemma dict_get_lookup {K V} `{EqDecision K} (l l' : list (K * V)) (i : nat) (k : K) (v : V) :
  NoDup (map fst l) -> l !! i = Some (k, v) -> dict_get k (l ++ l')%list = Some v.
Proof.
  revert i. induction l as [|[k0 v0] l IH]; intros i Hnd Hl; [done|].
  apply NoDup_cons in Hnd as [Hk0 Hnd]. simpl.
  destruct i as [|i]; simpl in Hl.
  - injection Hl as -> ->. by rewrite decide_True.
  - rewrite decide_False; [by apply (IH i)|].
    intros ->. apply Hk0. apply list_elem_of_fmap. exists (k0, v).
    split; [reflexivity | by eapply list_elem_of_lookup_2].
Qed.

Lemma zip_seq_lookup (l : list string) (i : nat) (name : string) (start : nat) :
  l !! i = Some name ->
  zip l (map Z.of_nat (seq start (length l))) !! i = Some (name, Z.of_nat (start + i)).
Proof.
  revert i start. induction l as [|x l IH]; intros i start Hl; [done|].
  destruct i as [|i]; simpl in *.
  - injection Hl as ->. by rewrite Nat.add_0_r.
  - rewrite (IH i (S start) Hl). do 3 f_equal. lia.
Qed.

Lemma zip_seq_fst (l : list string) (start : nat) :
  map fst (zip l (map Z.of_nat (seq start (length l)))) = l.
Proof.
  revert start. induction l as [|x l IH]; intros start; simpl; [reflexivity|].
  by rewrite IH.
Qed.

Lemma zip_seq_snd (l : list string) (start : nat) :
  map snd (zip l (map Z.of_nat (seq start (length l))))
  = map Z.of_nat (seq start (length l)).
Proof.
  revert start. induction l as [|x l IH]; intros start; simpl; [reflexivity|].
  by rewrite IH.
Qed.

(** X24. Names and numbers of an [enum]. For distinct names, none of them
    [Names], the class [enum] builds has the names as attributes in the
    order given, followed by [Names]; the attribute of the name at
    position [i] is the number [i], and [Names] maps [i] back to that
    name. *)
Theorem enum_names_round_trip (sequential : list string) :
  NoDup sequential ->
  "Names" ∉ sequential ->
  map fst (enum sequential []) = (sequential ++ ["Names"])%list
  /\ exists names,
      dict_get "Names" (enum sequential []) = Some (EnumNames names)
      /\ map fst names = map Z.of_nat (seq 0 (length sequential))
      /\ forall i name,
          sequential !! i = Some name ->
          dict_get name (enum sequential []) = Some (EnumVal (Z.of_nat i))
          /\ dict_get (Z.of_nat i) names = Some name.
Proof.
  intros Hnd Hnames.
  set (nums := map Z.of_nat (seq 0 (length sequential))).
  assert (Hnums : NoDup nums).
  { apply NoDup_fmap_2; [apply _ | apply NoDup_seq]. }
  assert (Hvalues : enum_values sequential [] = zip sequential nums).
  { unfold enum_values. simpl.
    rewrite (foldl_dict_set_fresh fst snd).
    - simpl. transitivity (map id (zip sequential nums)); [|apply map_id].
      apply map_ext. by intros [].
    - subst nums. by rewrite zip_seq_fst.
    - intros x _ Hin. inversion Hin. }
  assert (Hrev : enum_names (zip sequential nums)
                 = map (fun kv => (snd kv, fst kv)) (zip sequential nums)).
  { unfold enum_names. rewrite (foldl_dict_set_fresh snd fst); [reflexivity | |].
    - subst nums. by rewrite zip_seq_snd.
    - intros x _ Hin. inversion Hin. }
  assert (Henum : enum sequential []
                  = (map (fun kv => (fst kv, EnumVal (snd kv))) (zip sequential nums)
                     ++ [("Names", EnumNames (map (fun kv => (snd kv, fst kv))
                                                  (zip sequential nums)))])%list).
  { unfold enum. cbv zeta. rewrite Hvalues, Hrev. apply dict_set_fresh.
    rewrite map_map. simpl. subst nums.
    change (map (fun x : string * Z => fst x)) with (map (@fst string Z)).
    by rewrite zip_seq_fst. }
  assert (Hkeys : map fst (map (fun kv : string * Z => (fst kv, EnumVal (snd kv)))
                             (zip sequential nums)) = sequential).
  { rewrite map_map. simpl. subst nums. apply zip_seq_fst. }
  split.
  - rewrite Henum, map_app, Hkeys. reflexivity.
  - exists (map (fun kv => (snd kv, fst kv)) (zip sequential nums)).
    split; [|split].
    + rewrite Henum. clear Henum Hrev Hvalues.
      assert (Hgen : forall (l : list (string * enum_attr)) v,
                 "Names" ∉ map fst l -> dict_get "Names" (l ++ [("Names", v)])%list = Some v).
      { induction l as [|[k0 v0] l IH]; intros v Hn; simpl; [reflexivity|].
        simpl in Hn. rewrite not_elem_of_cons in Hn. destruct Hn as [Hne Hn].
        rewrite decide_False by congruence. by apply IH. }
      apply Hgen. by rewrite Hkeys.
    + rewrite map_map. simpl. subst nums. apply zip_seq_snd.
    + intros i name Hl.
      pose proof (zip_seq_lookup sequential i name 0 Hl) as Hz. simpl in Hz. fold nums in Hz.
      split.
      * rewrite Henum. apply (dict_get_lookup _ _ i); [by rewrite Hkeys|].
        by rewrite list_lookup_fmap, Hz.
      * rewrite <- (app_nil_r (map _ _)). apply (dict_get_lookup _ _ i).
        -- rewrite map_map. simpl. subst nums.
           change (map (fun x : string * Z => snd x)) with (map (@snd string Z)).
           by rewrite zip_seq_snd.
        -- by rewrite list_lookup_fmap, Hz.
Qed.

Lemma enum_names_round_trip_witness :
  let statuses := ["REGISTRATION"; "FIRSTCONNECT"; "CONNECTFAILED"; "CONNECTED";
                   "RECONNECTING"] in
  dict_get "CONNECTED" (enum statuses []) = Some (EnumVal 3)
  /\ map fst (enum statuses []) = (statuses ++ ["Names"])%list.
Proof.
  intros statuses.
  assert (Hnd : NoDup statuses) by (apply (bool_decide_unpack _); vm_compute; exact I).
  assert (Hn : "Names" ∉ statuses) by (apply (bool_decide_unpack _); vm_compute; exact I).
  destruct (enum_names_round_trip statuses Hnd Hn) as (Hkeys & names & _ & _ & Hget).
  split; [|exact Hkeys].
  exact (proj1 (Hget 3%nat "CONNECTED" eq_refl)).
Defined.
